(** * sitemap-url-tester: the sitemap resolver and the URL checker

    A shallow embedding of [src/sitemap.py] and [src/checker.py], and the
    properties of the specification proved (or refuted) on it.

    Modelling conventions.
    - A Python [str] is a Rocq [string] that holds its UTF-8 encoding (so
      is the arrow of a redirect chain); a slice counts characters, not
      bytes; [lower] and [strip] act on the ASCII letters and the ASCII
      white space.
    - A Python [int] is a [Z].  Readings of [time.perf_counter] are exact
      rationals ([Q]); the rounding of floating point is not modelled.
    - The network, the clock and the random generator are an oracle
      ([Env]); a computation threads a [World] and may raise a Python
      exception (monad [M]).
    - [headers.py] is not part of the sources at hand: [make_headers],
      [SAFARI_UA] and [UA_PRESETS] are parameters. *)

From Stdlib Require Import ZArith QArith Lia Ascii String.
From stdpp Require Import base option list strings gmap.

Local Open Scope string_scope.
Local Open Scope list_scope.
Local Open Scope Z_scope.

(** ** Python text primitives *)

Module Py.

Definition is_upper (c : ascii) : bool :=
  let n := N_of_ascii c in ((65 <=? n) && (n <=? 90))%N.

Definition lower_char (c : ascii) : ascii :=
  if is_upper c then ascii_of_N (N_of_ascii c + 32) else c.

(** [s.lower()] *)
Fixpoint lower (s : string) : string :=
  match s with
  | EmptyString => EmptyString
  | String c s' => String (lower_char c) (lower s')
  end.

(** [s.startswith(p)] *)
Fixpoint startswith (p s : string) : bool :=
  match p, s with
  | EmptyString, _ => true
  | String _ _, EmptyString => false
  | String a p', String b s' => if Ascii.eqb a b then startswith p' s' else false
  end.

(** [sub in s] *)
Fixpoint contains (sub s : string) : bool :=
  startswith sub s ||
  match s with
  | EmptyString => false
  | String _ s' => contains sub s'
  end.

(** [s[:n]] *)
Fixpoint take (n : nat) (s : string) : string :=
  match n, s with
  | O, _ => EmptyString
  | S _, EmptyString => EmptyString
  | S n', String c s' => String c (take n' s')
  end.

(** A [str] is held in UTF-8: a character is a leading byte and the
    continuation bytes (of the form 10xxxxxx) that follow it. *)
Definition is_continuation (c : ascii) : bool :=
  let n := N_of_ascii c in ((128 <=? n) && (n <? 192))%N.

(** [s[:n]] counted in characters, as Python counts: the first [n]
    characters of [s], each with all its bytes. *)
Fixpoint take_chars (n : nat) (s : string) : string :=
  match s with
  | EmptyString => EmptyString
  | String c s' =>
      if is_continuation c then String c (take_chars n s')
      else
        match n with
        | O => EmptyString
        | S n' => String c (take_chars n' s')
        end
  end.

(** [s[n:]] *)
Fixpoint drop (n : nat) (s : string) : string :=
  match n, s with
  | O, _ => s
  | S _, EmptyString => EmptyString
  | S n', String _ s' => drop n' s'
  end.

(** White space in the sense of [str.isspace], on ASCII. *)
Definition is_space (c : ascii) : bool :=
  let n := N_of_ascii c in
  ((n =? 32) || ((9 <=? n) && (n <=? 13)) || ((28 <=? n) && (n <=? 31)))%N.

Fixpoint lstrip (s : string) : string :=
  match s with
  | EmptyString => EmptyString
  | String c s' => if is_space c then lstrip s' else s
  end.

Fixpoint rstrip (s : string) : string :=
  match s with
  | EmptyString => EmptyString
  | String c s' =>
      match rstrip s' with
      | EmptyString => if is_space c then EmptyString else String c EmptyString
      | r => String c r
      end
  end.

(** [s.strip()] *)
Definition strip (s : string) : string := rstrip (lstrip s).

(** [sep.join(l)] *)
Fixpoint join (sep : string) (l : list string) : string :=
  match l with
  | [] => ""
  | [x] => x
  | x :: l' => x +:+ sep +:+ join sep l'
  end.

(** [s.split(sep)] for a non-empty [sep]: the segments between the
    occurrences of [sep], scanned from the left without overlap.  [cur] is
    the segment being read, [skip] the number of characters of a found
    separator still to pass over. *)
Fixpoint split_go (sep : string) (skip : nat) (cur : string) (s : string)
  : list string :=
  match s with
  | EmptyString => [cur]
  | String c s' =>
      match skip with
      | S k => split_go sep k cur s'
      | O =>
          if startswith sep s
          then cur :: split_go sep (String.length sep - 1) "" s'
          else split_go sep 0 (cur +:+ String c "") s'
      end
  end.

Definition split (sep s : string) : list string := split_go sep 0 "" s.

End Py.

(** ** The world a run lives in *)

(** A Python exception, as far as the code looks at it:
    [type(exc).__name__] and [str(exc)]. *)
Record Exception := mkException { exc_type : string; exc_str : string }.

Definition Headers := list (string * string).

(** What [checker.py] and [sitemap.py] import from [headers.py]. *)
Record HeadersModule := {
  make_headers : string -> Headers;
  SAFARI_UA : string;
  UA_PRESETS : list (string * string)
}.

Record Request := mkRequest {
  rq_method : string;
  rq_url : string;
  rq_headers : Headers
}.

(** An [httpx.Response].  [history] lists the status codes of the
    redirect hops that came before it (the code reads nothing else of
    them); [request] is the request it answers, of which the code reads
    the method (following a redirect keeps a HEAD a HEAD and a GET a
    GET). *)
Record Response := mkResponse {
  request : Request;
  status_code : Z;
  history : list Z;
  url : string;
  headers : Headers;
  text : string
}.

(** What the network sends back to a request, before the client attaches
    the request to it. *)
Record Reply := mkReply {
  rp_status : Z;
  rp_history : list Z;
  rp_url : string;
  rp_headers : Headers;
  rp_text : string
}.

(** The environment of one task: its view of the network (the answer to a
    request may depend on everything the task sent before, and comes with
    the time it took), and the draws of [random.random]. *)
Record Env := mkEnv {
  respond : list Request -> Request -> (Exception + Reply) * Q;
  rand : nat -> Q
}.

Record World := mkWorld {
  now : Q;                (* the clock, in seconds *)
  sent : list Request;    (* the calls of [client.request], oldest first *)
  slept : list Q;         (* the [asyncio.sleep] calls so far *)
  draws : nat             (* random numbers drawn so far *)
}.

Definition world0 : World := mkWorld 0 [] [] 0.

(** ** A state and exception monad *)

Inductive Outcome (A : Type) : Type :=
| Ok (a : A)
| Raised (e : Exception).
Arguments Ok {A} a.
Arguments Raised {A} e.

Definition M (A : Type) : Type := World -> Outcome A * World.

Definition ret {A} (a : A) : M A := fun w => (Ok a, w).

Definition bind {A B} (c : M A) (k : A -> M B) : M B :=
  fun w =>
    match c w with
    | (Ok a, w') => k a w'
    | (Raised e, w') => (Raised e, w')
    end.

Definition raise {A} (e : Exception) : M A := fun w => (Raised e, w).

(** [try: c  except Exception as exc: h exc] *)
Definition try_except {A} (c : M A) (h : Exception -> M A) : M A :=
  fun w =>
    match c w with
    | (Ok a, w') => (Ok a, w')
    | (Raised e, w') => h e w'
    end.

(** The [try] statement whose two branches go different ways: the outcome
    of [c] is handed over as a value. *)
Definition attempt {A} (c : M A) : M (Exception + A) :=
  fun w =>
    match c w with
    | (Ok a, w') => (Ok (inr a), w')
    | (Raised e, w') => (Ok (inl e), w')
    end.

Notation "x <- c ;; k" := (bind c (fun x => k))
  (at level 100, c at next level, right associativity).
Notation "c ;;; k" := (bind c (fun _ => k))
  (at level 100, right associativity).

(** [time.perf_counter()] *)
Definition perf_counter : M Q := fun w => (Ok (now w), w).

(** [asyncio.sleep(d)] *)
Definition asyncio_sleep (d : Q) : M unit :=
  fun w => (Ok tt, mkWorld (now w + d)%Q (sent w) (slept w ++ [d]) (draws w)).

(** [random.uniform(a, b)] is [a + (b - a) * random.random()]. *)
Definition random_uniform (env : Env) (a b : Q) : M Q :=
  fun w =>
    (Ok (a + (b - a) * rand env (draws w))%Q,
     mkWorld (now w) (sent w) (slept w) (S (draws w))).

(** [client.request(method, url, headers=headers)] *)
Definition client_request (env : Env) (method url : string) (hs : Headers)
  : M Response :=
  fun w =>
    let rq := mkRequest method url hs in
    let '(o, dt) := respond env (sent w) rq in
    let w' := mkWorld (now w + dt)%Q (sent w ++ [rq]) (slept w) (draws w) in
    match o with
    | inl e => (Raised e, w')
    | inr rp =>
        (Ok (mkResponse rq (rp_status rp) (rp_history rp) (rp_url rp)
               (rp_headers rp) (rp_text rp)), w')
    end.

(** ** checker.py *)

(** [str(n)] for an [int]. *)
Definition digit_char (n : N) : ascii := ascii_of_N (48 + n mod 10).

Fixpoint str_N_go (fuel : nat) (n : N) (acc : string) : string :=
  match fuel with
  | O => acc
  | S fuel' =>
      let acc' := String (digit_char n) acc in
      if (n <? 10)%N then acc' else str_N_go fuel' (n / 10)%N acc'
  end.

Definition str_N (n : N) : string := str_N_go (S (N.to_nat (N.log2 n))) n "".

Definition str_Z (z : Z) : string :=
  if z <? 0 then String "-" (str_N (Z.to_N (- z))) else str_N (Z.to_N z).

Definition _SOFT_404_PATTERNS : list string :=
  [ "page not found";
    "404 not found";
    "404 error";
    "not found</title>";
    "<title>404";
    "does not exist";
    "no longer available";
    "page doesn't exist";
    "page does not exist";
    "we couldn't find";
    "we can't find" ].

Record CheckResult := mkCheckResult {
  input_url : string;
  first_status_code : string;
  final_status_code : string;
  final_url : string;
  response_time_ms : Q;
  redirect_count : Z;
  redirect_chain : string;
  method_used : string;
  user_agent_used : string;
  soft_404 : bool;
  error : string;
  alt_status_code : string;
  alt_user_agent_used : string
}.

(** [CheckResult(input_url=url)] *)
Definition new_CheckResult (u : string) : CheckResult :=
  mkCheckResult u "" "" "" 0 0 "" "" "" false "" "" "".

(** [type(exc).__name__] and [str(exc)], where [exc] may be [None]. *)
Definition type_name (exc : option Exception) : string :=
  match exc with Some e => exc_type e | None => "NoneType" end.

Definition py_str (exc : option Exception) : string :=
  match exc with Some e => exc_str e | None => "None" end.

(** The five tests of [_classify_error], in the order of the source. *)
Definition looks_ssl (exc : option Exception) : bool :=
  Py.contains "ssl" (Py.lower (type_name exc))
  || Py.contains "ssl" (Py.lower (py_str exc)).

Definition looks_timeout (exc : option Exception) : bool :=
  Py.contains "timeout" (Py.lower (type_name exc))
  || Py.contains "timeout" (Py.lower (py_str exc)).

Definition looks_dns (exc : option Exception) : bool :=
  let msg := Py.lower (py_str exc) in
  Py.contains "dns" msg
  || Py.contains "name or service not known" msg
  || Py.contains "nodename nor servname" msg.

Definition looks_connect (exc : option Exception) : bool :=
  Py.contains "connect" (Py.lower (type_name exc))
  || Py.contains "connect" (Py.lower (py_str exc)).

Definition looks_read (exc : option Exception) : bool :=
  Py.contains "read" (Py.lower (type_name exc)).

Definition _classify_error (exc : option Exception) : string :=
  let name := type_name exc in
  if looks_ssl exc then "SSL_ERROR"
  else if looks_timeout exc then "TIMEOUT"
  else if looks_dns exc then "DNS_ERROR"
  else if looks_connect exc then "CONNECT_ERROR"
  else if looks_read exc then "READ_ERROR"
  else "ERROR (" +:+ name +:+ ")".

(** The patterns are ASCII, and they are looked for in the lower case of
    the snippet.  Outside ASCII, the only characters whose lower case
    holds an ASCII letter are U+0130 (an [i] followed by U+0307) and
    U+212A (a [k]); no pattern holds a [k] or ends with an [i], so the
    lower case of the ASCII letters alone finds the same patterns. *)
Definition _detect_soft_404 (content_type body_snippet : string) : bool :=
  if negb (Py.contains "text/html" content_type) then false
  else
    let lower := Py.lower body_snippet in
    existsb (fun pat => Py.contains pat lower) _SOFT_404_PATTERNS.

Definition _build_redirect_chain (resp : Response) : string :=
  match history resp with
  | [] => str_Z (status_code resp)
  | _ =>
      let codes := map str_Z (history resp) in
      let codes := codes ++ [str_Z (status_code resp)] in
      Py.join "→" codes
  end.

Definition _get_first_status (resp : Response) : string :=
  match history resp with
  | first :: _ => str_Z first
  | [] => str_Z (status_code resp)
  end.

Definition _do_request (env : Env) (u : string) (hs : Headers)
    (head_then_get : bool) : M Response :=
  if head_then_get then
    resp <- client_request env "HEAD" u hs ;;
    if status_code resp >=? 400
    then client_request env "GET" u hs
    else ret resp
  else client_request env "GET" u hs.

Definition _method_from_resp (resp : Response) : string :=
  rq_method (request resp).

(** [headers.get(key, default)] of [httpx.Headers]: header names compare
    without case, and the values of a header that is repeated are joined
    by a comma and a space, in the order they came. *)
Definition headers_get (hs : Headers) (key default : string) : string :=
  match
    map snd
      (List.filter (fun kv => String.eqb (Py.lower (fst kv)) (Py.lower key))
         hs)
  with
  | [] => default
  | items => Py.join ", " items
  end.

(** [range(n)] *)
Definition range (n : Z) : list Z := map Z.of_nat (seq 0 (Z.to_nat n)).

Section CheckOne.

Context (hdr : HeadersModule) (env : Env).
Context (u : string) (primary_headers : Headers) (primary_ua_label : string).
Context (head_then_get : bool) (retries : Z) (safari_retry : bool).

(** Lines 205-216: what the Safari retry writes into the result once its
    request has come back. *)
Definition record_alternate (result : CheckResult) (alt_resp : Response)
  : CheckResult :=
  let result :=
    mkCheckResult (input_url result) (first_status_code result)
      (final_status_code result) (final_url result)
      (response_time_ms result) (redirect_count result)
      (redirect_chain result) (method_used result)
      (user_agent_used result) (soft_404 result) (error result)
      (str_Z (status_code alt_resp)) "Safari macOS" in
  (* If Safari got a better result, use it as the final *)
  if status_code alt_resp <? 400 then
    mkCheckResult (input_url result) (_get_first_status alt_resp)
      (str_Z (status_code alt_resp)) (url alt_resp)
      (response_time_ms result)
      (Z.of_nat (length (history alt_resp)))
      (_build_redirect_chain alt_resp) (_method_from_resp alt_resp)
      "Safari macOS (retry)" (soft_404 result) (error result)
      (alt_status_code result) (alt_user_agent_used result)
  else result.

(** The Safari retry of [_check_one]: the inner [try] block of the source
    and its [except Exception: pass]. *)
Definition safari_probe (result : CheckResult) : M CheckResult :=
  let safari_headers := make_headers hdr (SAFARI_UA hdr) in
  try_except
    (alt_resp <- _do_request env u safari_headers head_then_get ;;
     ret (record_alternate result alt_resp))
    (fun _ => ret result).

(** Lines 183-196: what the [try] block writes into the result once
    [_do_request] has returned [resp] and [elapsed] has been computed. *)
Definition record_response (result : CheckResult) (resp : Response)
    (elapsed : Q) : CheckResult :=
  let result :=
    mkCheckResult (input_url result) (_get_first_status resp)
      (str_Z (status_code resp)) (url resp) elapsed
      (Z.of_nat (length (history resp))) (_build_redirect_chain resp)
      (_method_from_resp resp) primary_ua_label (soft_404 result)
      (error result) (alt_status_code result) (alt_user_agent_used result) in
  (* Soft-404 detection (GET only) *)
  if String.eqb (method_used result) "GET" && (status_code resp =? 200)
  then
    let ct := headers_get (headers resp) "content-type" "" in
    let body_snippet := Py.take_chars (N.to_nat 8000) (text resp) in
    mkCheckResult (input_url result) (first_status_code result)
      (final_status_code result) (final_url result)
      (response_time_ms result) (redirect_count result)
      (redirect_chain result) (method_used result)
      (user_agent_used result) (_detect_soft_404 ct body_snippet)
      (error result) (alt_status_code result) (alt_user_agent_used result)
  else result.

(** The rest of the [try] block, up to [return result]. *)
Definition after_response (result : CheckResult) (resp : Response)
    (elapsed : Q) : M CheckResult :=
  let result := record_response result resp elapsed in
  (* Safari UA retry on 403/404 *)
  if safari_retry && ((status_code resp =? 403) || (status_code resp =? 404))
  then safari_probe result
  else ret result.

(** The whole [try] block of one attempt. *)
Definition try_block (result : CheckResult) (t0 : Q) : M CheckResult :=
  resp <- _do_request env u primary_headers head_then_get ;;
  t1 <- perf_counter ;;
  let elapsed := ((t1 - t0) * 1000)%Q in
  after_response result resp elapsed.

(** The end of the [except] clause: back off when attempts remain. *)
Definition backoff_sleep (att : Z) : M unit :=
  if att <? retries then
    jitter <- random_uniform env 0 (3 # 10) ;;
    let backoff := ((1 # 2) * inject_Z (2 ^ att) + jitter)%Q in
    asyncio_sleep backoff
  else ret tt.

(** What [_check_one] returns when all attempts are exhausted. *)
Definition exhausted (result : CheckResult) (last_exc : option Exception)
    (elapsed : Q) : CheckResult :=
  let error_label := _classify_error last_exc in
  mkCheckResult (input_url result) (first_status_code result) error_label
    (final_url result) elapsed (redirect_count result)
    (redirect_chain result) (method_used result) primary_ua_label
    (soft_404 result) error_label (alt_status_code result)
    (alt_user_agent_used result).

(** [for attempt in range(1 + retries): ...] and what follows the loop. *)
Fixpoint attempts_loop (atts : list Z) (last_exc : option Exception)
    (elapsed : Q) (result : CheckResult) : M CheckResult :=
  match atts with
  | [] => ret (exhausted result last_exc elapsed)
  | att :: rest =>
      t0 <- perf_counter ;;
      o <- attempt (try_block result t0) ;;
      match o with
      | inr r => ret r
      | inl exc =>
          t1 <- perf_counter ;;
          let elapsed := ((t1 - t0) * 1000)%Q in
          backoff_sleep att ;;;
          attempts_loop rest (Some exc) elapsed result
      end
  end.

Definition _check_one : M CheckResult :=
  let result := new_CheckResult u in
  attempts_loop (range (1 + retries)) None 0%Q result.

(** *** The attempts of a check, one by one

    The record of one pass through the loop: the world when [t0] is read,
    what [_do_request] did, and the world when it came back. *)
Record Attempt := mkAttempt {
  at_start : World;
  at_outcome : Outcome Response;
  at_end : World
}.

Definition at_elapsed (a : Attempt) : Q :=
  ((now (at_end a) - now (at_start a)) * 1000)%Q.

Fixpoint attempts_trace (atts : list Z) (w : World) : list Attempt :=
  match atts with
  | [] => []
  | att :: rest =>
      let '(o, w1) := _do_request env u primary_headers head_then_get w in
      mkAttempt w o w1 ::
      match o with
      | Ok _ => []
      | Raised _ => attempts_trace rest (snd (backoff_sleep att w1))
      end
  end.

Definition check_trace (w : World) : list Attempt :=
  attempts_trace (range (1 + retries)) w.

End CheckOne.

(** [CheckResult.to_dict]: the dictionary has the keys of the record, and
    holds the record's values but for the response time, rounded to one
    decimal ([round1] is Python's [round(x, 1)] on floats). *)
Definition to_dict (round1 : Q -> Q) (r : CheckResult) : CheckResult :=
  mkCheckResult (input_url r) (first_status_code r) (final_status_code r)
    (final_url r) (round1 (response_time_ms r)) (redirect_count r)
    (redirect_chain r) (method_used r) (user_agent_used r) (soft_404 r)
    (error r) (alt_status_code r) (alt_user_agent_used r).

(** How a call of the event loop ends. *)
Inductive Run (A : Type) : Type :=
| Returns (a : A)
| Raises (e : Exception)
| Hangs.
Arguments Returns {A} a.
Arguments Raises {A} e.
Arguments Hangs {A}.

(** [d[key]] on a dictionary kept as an association list. *)
Fixpoint dict_get (d : list (string * string)) (key : string) : option string :=
  match d with
  | [] => None
  | (k, v) :: d' => if String.eqb k key then Some v else dict_get d' key
  end.

(** [for name, val in UA_PRESETS.items(): if val == user_agent: ...] *)
Fixpoint find_label (d : list (string * string)) (user_agent : string)
    (default : string) : string :=
  match d with
  | [] => default
  | (name, val) :: d' =>
      if String.eqb val user_agent then name
      else find_label d' user_agent default
  end.

(** [asyncio.gather] over the tasks: the results in the order of the
    tasks, or the first exception. *)
Fixpoint gather {A} (tasks : list (Outcome A)) : Outcome (list A) :=
  match tasks with
  | [] => Ok []
  | Ok a :: rest =>
      match gather rest with
      | Ok l => Ok (a :: l)
      | Raised e => Raised e
      end
  | Raised e :: _ => Raised e
  end.

(** [_run].  Task [i] checks the [i]-th URL against its own view
    [envs i] of the network: however the event loop interleaves the
    tasks, what one task sees of the network is such a view.  [timeout]
    and [follow_redirects] configure the client, that is, the views.  A
    semaphore of a negative value is refused by [asyncio]; one of value 0
    never admits a task.  The progress callback is an observer and is
    left out. *)
Definition _run (hdr : HeadersModule) (round1 : Q -> Q) (envs : nat -> Env)
    (urls : list string) (concurrency : Z) (timeout : Q)
    (follow_redirects head_then_get : bool) (retries : Z)
    (user_agent : string) (safari_retry : bool) : Run (list CheckResult) :=
  match
    (if String.eqb user_agent ""
     then dict_get (UA_PRESETS hdr) "Chrome macOS (default)"
     else Some user_agent)
  with
  | None => Raises (mkException "KeyError" "'Chrome macOS (default)'")
  | Some user_agent =>
      let ua_label := find_label (UA_PRESETS hdr) user_agent "Custom" in
      let primary_headers := make_headers hdr user_agent in
      if concurrency <? 0 then
        Raises (mkException "ValueError" "Semaphore initial value must be >= 0")
      else
        match urls with
        | [] => Returns []
        | _ :: _ =>
            if concurrency =? 0 then Hangs
            else
              let tasks :=
                imap (fun i url_i =>
                        fst (_check_one hdr (envs i) url_i primary_headers
                               ua_label head_then_get retries safari_retry
                               world0)) urls in
              match gather tasks with
              | Ok results => Returns (map (to_dict round1) results)
              | Raised e => Raises e
              end
        end
  end.

(** [run_checks] runs [_run] to completion on an event loop. *)
Definition run_checks := _run.

(** ** sitemap.py *)

Definition bytes := list Byte.byte.

(** An element of the tree [lxml] builds, in a document whose nodes are
    all elements: its tag, its text ([None] when there is none) and its
    child elements in document order.  (The documents that hold a
    processing instruction or an entity reference are taken up further
    down, with [Node].) *)
#[warnings="-register-all"]
Inductive Element : Type :=
  mkElement { el_tag : string; el_text : option string;
              el_children : list Element }.

(** A sitemap source: raw document bytes, or a URL to fetch. *)
Inductive Source : Type :=
| Bytes (data : bytes)
| Url (s : string).

(** What the resolver calls outside this repository: [httpx.get] followed
    by [raise_for_status] and [.content] (the answer may depend on the
    URLs fetched before), [gzip.decompress], and [etree.fromstring] with
    the recovering parser, which yields a root, [None], or an error. *)
Record Web := mkWeb {
  http_get : list string -> string -> Headers -> Exception + bytes;
  gzip_decompress : bytes -> Exception + bytes;
  etree_fromstring : bytes -> Exception + option Element
}.

(** The state of one resolution run: the set [_visited], shared by all the
    calls of the run, the messages given to the progress callback, and two
    records kept for the statements only: the URLs handed to [httpx.get],
    and the depth of every call of [parse_sitemap]. *)
Record Run_state := mkRun_state {
  visited : gset string;
  messages : list string;
  fetched : list string;
  calls : list Z
}.

Definition fresh_run : Run_state := mkRun_state ∅ [] [] [].

(** Computations of the resolver: as [M], over [Run_state]; [None] stands
    for a recursion that was cut off by lack of fuel. *)
Definition R (A : Type) : Type := Run_state -> option (Outcome A * Run_state).

Definition retR {A} (a : A) : R A := fun s => Some (Ok a, s).

Definition bindR {A B} (c : R A) (k : A -> R B) : R B :=
  fun s =>
    match c s with
    | Some (Ok a, s') => k a s'
    | Some (Raised e, s') => Some (Raised e, s')
    | None => None
    end.

Definition raiseR {A} (e : Exception) : R A := fun s => Some (Raised e, s).

Definition liftR {A} (o : Exception + A) : R A :=
  match o with inl e => raiseR e | inr a => retR a end.

Notation "x <~ c ;; k" := (bindR c (fun x => k))
  (at level 100, c at next level, right associativity).

Definition progress_callback (msg : string) : R unit :=
  fun s => Some (Ok tt, mkRun_state (visited s) (messages s ++ [msg])
                          (fetched s) (calls s)).

Definition visited_contains (x : string) : R bool :=
  fun s => Some (Ok (bool_decide (x ∈ visited s)), s).

Definition visited_add (x : string) : R unit :=
  fun s => Some (Ok tt, mkRun_state ({[x]} ∪ visited s) (messages s)
                          (fetched s) (calls s)).

Definition enter_call (depth : Z) : R unit :=
  fun s => Some (Ok tt, mkRun_state (visited s) (messages s) (fetched s)
                          (calls s ++ [depth])).

(** [httpx.get(url, ...)], [resp.raise_for_status()], [resp.content],
    with the failure handed over as a value for the [except] clause. *)
Definition fetch (web : Web) (u : string) (hs : Headers)
  : R (Exception + bytes) :=
  fun s => Some (Ok (http_get web (fetched s) u hs),
                 mkRun_state (visited s) (messages s) (fetched s ++ [u])
                   (calls s)).

Definition _MAX_DEPTH : Z := 3.

(** The part of [s] after the first [c], if [c] occurs. *)
Fixpoint after_first (c : ascii) (s : string) : option string :=
  match s with
  | EmptyString => None
  | String a s' => if Ascii.eqb a c then Some s' else after_first c s'
  end.

Definition _strip_ns (tag : string) : string :=
  match after_first "}" tag with
  | Some rest => rest
  | None => tag
  end.

Definition _decompress_if_gz (web : Web) (data : bytes) : Exception + bytes :=
  match data with
  | Byte.x1f :: Byte.x8b :: _ => gzip_decompress web data
  | _ => inr data
  end.

Definition _parse_xml (web : Web) (data : bytes)
  : Exception + option Element :=
  let data :=
    match data with
    | Byte.xef :: Byte.xbb :: Byte.xbf :: rest => rest
    | _ => data
    end in
  etree_fromstring web data.

(** [if u not in seen_order: seen_order[u] = None; urls.append(u)], the
    dictionary [seen_order] being used as a set. *)
Definition note_url (acc : list string * gset string) (u : string)
  : list string * gset string :=
  let '(urls, seen_order) := acc in
  if bool_decide (u ∈ seen_order) then acc
  else (urls ++ [u], {[u]} ∪ seen_order).

(** [loc_el.text] counts when it is neither [None] nor empty. *)
Definition truthy_text (e : Element) : option string :=
  match el_text e with
  | Some "" => None
  | t => t
  end.

(** The [urlset] branch: the two nested loops. *)
Definition urlset_inner (acc : list string * gset string)
    (els : list Element) : list string * gset string :=
  foldl (fun acc child =>
           if String.eqb (_strip_ns (el_tag child)) "loc" then
             match truthy_text child with
             | Some t => note_url acc (Py.strip t)
             | None => acc
             end
           else acc) acc els.

Definition urlset_outer (root : Element) : list string :=
  fst (foldl (fun acc url_el =>
                if String.eqb (_strip_ns (el_tag url_el)) "url"
                then urlset_inner acc (el_children url_el)
                else acc) ([], ∅) (el_children root)).

Section Resolver.

Context (web : Web) (hdr : HeadersModule).

(** [self] is [parse_sitemap] itself, for the recursive call. *)
Context (self : Source -> string -> Z -> R (list string)).
Context (_depth : Z).

(** The [sitemapindex] branch: the loop over the children of one
    [sitemap] element. *)
Fixpoint index_inner (user_agent : string) (acc : list string * gset string)
    (els : list Element) : R (list string * gset string) :=
  match els with
  | [] => retR acc
  | loc_el :: rest =>
      acc' <~
        (if String.eqb (_strip_ns (el_tag loc_el)) "loc" then
           match truthy_text loc_el with
           | Some t =>
               let child_url := Py.strip t in
               seen <~ visited_contains child_url ;;
               if (_depth + 1 <=? _MAX_DEPTH) && negb seen then
                 child_urls <~ self (Url child_url) user_agent (_depth + 1) ;;
                 retR (foldl note_url acc child_urls)
               else retR acc
           | None => retR acc
           end
         else retR acc) ;;
      index_inner user_agent acc' rest
  end.

(** The loop over the children of the root. *)
Fixpoint index_outer (user_agent : string) (acc : list string * gset string)
    (els : list Element) : R (list string * gset string) :=
  match els with
  | [] => retR acc
  | child :: rest =>
      acc' <~
        (if String.eqb (_strip_ns (el_tag child)) "sitemap"
         then index_inner user_agent acc (el_children child)
         else retR acc) ;;
      index_outer user_agent acc' rest
  end.

(** Step 1 of [parse_sitemap]: obtain the raw bytes; [None] when the
    function returns the empty list at once. *)
Definition obtain_raw (fetch_headers : Headers) (source : Source)
  : R (option bytes) :=
  match source with
  | Bytes raw => retR (Some raw)
  | Url s =>
      let u := Py.strip s in
      seen <~ visited_contains u ;;
      if seen then retR None
      else
        _ <~ visited_add u ;;
        _ <~ progress_callback ("Fetching " +:+ u) ;;
        got <~ fetch web u fetch_headers ;;
        match got with
        | inr raw => retR (Some raw)
        | inl exc =>
            _ <~ progress_callback
                   ("Failed to fetch " +:+ u +:+ ": " +:+ exc_str exc) ;;
            retR None
        end
  end.

(** The body of [parse_sitemap]. *)
Definition parse_sitemap_body (source : Source) (user_agent : string)
  : R (list string) :=
  _ <~ enter_call _depth ;;
  user_agent <~
    (if String.eqb user_agent "" then
       match dict_get (UA_PRESETS hdr) "Chrome macOS (default)" with
       | Some ua => retR ua
       | None => raiseR (mkException "KeyError" "'Chrome macOS (default)'")
       end
     else retR user_agent) ;;
  let fetch_headers := make_headers hdr user_agent in
  got <~ obtain_raw fetch_headers source ;;
  match got with
  | None => retR []
  | Some raw =>
      raw <~ liftR (_decompress_if_gz web raw) ;;
      match _parse_xml web raw with
      | inl exc =>
          _ <~ progress_callback ("XML parse error: " +:+ exc_str exc) ;;
          retR []
      | inr None =>
          _ <~ progress_callback
                 "XML parse returned empty document – check the sitemap source." ;;
          retR []
      | inr (Some root) =>
          let root_tag := _strip_ns (el_tag root) in
          if String.eqb root_tag "sitemapindex" then
            acc <~ index_outer user_agent ([], ∅) (el_children root) ;;
            retR (fst acc)
          else if String.eqb root_tag "urlset" then
            retR (urlset_outer root)
          else
            _ <~ progress_callback
                   ("⚠️ Unknown root element: <" +:+ root_tag +:+ ">") ;;
            retR []
      end
  end.

End Resolver.

(** [parse_sitemap], with the recursion counted down by [fuel]. *)
Fixpoint parse_sitemap_fuel (fuel : nat) (web : Web) (hdr : HeadersModule)
    (source : Source) (user_agent : string) (_depth : Z) : R (list string) :=
  match fuel with
  | O => fun _ => None
  | S fuel' =>
      parse_sitemap_body web hdr
        (fun src ua d => parse_sitemap_fuel fuel' web hdr src ua d)
        _depth source user_agent
  end.

(** Fuel that a call at depth [_depth] cannot use up. *)
Definition enough_fuel (_depth : Z) : nat := S (Z.to_nat (_MAX_DEPTH - _depth)).

(** [parse_sitemap(source, user_agent=..., _visited=..., _depth=...)], the
    set [_visited] being the one of the state [s]. *)
Definition parse_sitemap (web : Web) (hdr : HeadersModule) (source : Source)
    (user_agent : string) (_depth : Z) : R (list string) :=
  parse_sitemap_fuel (enough_fuel _depth) web hdr source user_agent _depth.

(** *** The traversal the specification describes

    "First-seen order across the full recursive traversal (depth-first,
    children visited in document order)": [traversal] lists every [loc]
    the traversal meets, in the order it meets them and with repetitions;
    [first_seen] keeps of a list the first occurrence of each entry. *)
Fixpoint first_seen (l : list string) : list string :=
  match l with
  | [] => []
  | x :: l' => x :: filter (fun y => y ≠ x) (first_seen l')
  end.

(** The [loc] entries of a [urlset] document, in document order. *)
Definition loc_texts (els : list Element) : list string :=
  omap (fun child =>
          if String.eqb (_strip_ns (el_tag child)) "loc"
          then Py.strip <$> truthy_text child
          else None) els.

Definition urlset_locs (root : Element) : list string :=
  concat (map (fun url_el =>
                 if String.eqb (_strip_ns (el_tag url_el)) "url"
                 then loc_texts (el_children url_el)
                 else []) (el_children root)).

Section Traversal.

Context (web : Web) (hdr : HeadersModule).
Context (self : Source -> string -> Z -> R (list string)).
Context (_depth : Z).

(** The children of a sitemap index that are resolved, one after the
    other, and what their traversals list, one after the other. *)
Fixpoint walk_locs (user_agent : string) (els : list Element)
  : R (list string) :=
  match els with
  | [] => retR []
  | loc_el :: rest =>
      here <~
        (match loc_texts [loc_el] with
         | child_url :: _ =>
             seen <~ visited_contains child_url ;;
             if (_depth + 1 <=? _MAX_DEPTH) && negb seen
             then self (Url child_url) user_agent (_depth + 1)
             else retR []
         | [] => retR []
         end) ;;
      after <~ walk_locs user_agent rest ;;
      retR (here ++ after)
  end.

Fixpoint walk_sitemaps (user_agent : string) (els : list Element)
  : R (list string) :=
  match els with
  | [] => retR []
  | child :: rest =>
      here <~
        (if String.eqb (_strip_ns (el_tag child)) "sitemap"
         then walk_locs user_agent (el_children child)
         else retR []) ;;
      after <~ walk_sitemaps user_agent rest ;;
      retR (here ++ after)
  end.

Definition traversal_body (source : Source) (user_agent : string)
  : R (list string) :=
  _ <~ enter_call _depth ;;
  user_agent <~
    (if String.eqb user_agent "" then
       match dict_get (UA_PRESETS hdr) "Chrome macOS (default)" with
       | Some ua => retR ua
       | None => raiseR (mkException "KeyError" "'Chrome macOS (default)'")
       end
     else retR user_agent) ;;
  got <~ obtain_raw web (make_headers hdr user_agent) source ;;
  match got with
  | None => retR []
  | Some raw =>
      raw <~ liftR (_decompress_if_gz web raw) ;;
      match _parse_xml web raw with
      | inl exc =>
          _ <~ progress_callback ("XML parse error: " +:+ exc_str exc) ;;
          retR []
      | inr None =>
          _ <~ progress_callback
                 "XML parse returned empty document – check the sitemap source." ;;
          retR []
      | inr (Some root) =>
          let root_tag := _strip_ns (el_tag root) in
          if String.eqb root_tag "sitemapindex" then
            walk_sitemaps user_agent (el_children root)
          else if String.eqb root_tag "urlset" then
            retR (urlset_locs root)
          else
            _ <~ progress_callback
                   ("⚠️ Unknown root element: <" +:+ root_tag +:+ ">") ;;
            retR []
      end
  end.

End Traversal.

Fixpoint traversal_fuel (fuel : nat) (web : Web) (hdr : HeadersModule)
    (source : Source) (user_agent : string) (_depth : Z) : R (list string) :=
  match fuel with
  | O => fun _ => None
  | S fuel' =>
      traversal_body web hdr
        (fun src ua d => traversal_fuel fuel' web hdr src ua d)
        _depth source user_agent
  end.

Definition traversal (web : Web) (hdr : HeadersModule) (source : Source)
    (user_agent : string) (_depth : Z) : R (list string) :=
  traversal_fuel (enough_fuel _depth) web hdr source user_agent _depth.

(** The accumulator of the two loops, after the entries [raw] have gone
    by: the list [urls] and the dictionary [seen_order]. *)
Definition acc_of (raw : list string) : list string * gset string :=
  (first_seen raw, list_to_set (first_seen raw)).

(** A computation of the resolver seen through a function on its result. *)
Definition mapR {A B} (f : A -> B) (c : R A) : R B :=
  fun s =>
    match c s with
    | Some (Ok a, s') => Some (Ok (f a), s')
    | Some (Raised e, s') => Some (Raised e, s')
    | None => None
    end.

(** ** Vocabulary of the statements *)

(** A 3-digit numeric string. *)
Definition is_digit (c : ascii) : bool :=
  let n := N_of_ascii c in ((48 <=? n) && (n <=? 57))%N.

Definition three_digits (s : string) : bool :=
  match s with
  | String a (String b (String c EmptyString)) =>
      is_digit a && is_digit b && is_digit c
  | _ => false
  end.

(** [s.endswith(p)] for a one-character [p]. *)
Fixpoint ends_with_char (c : ascii) (s : string) : bool :=
  match s with
  | EmptyString => false
  | String a EmptyString => Ascii.eqb a c
  | String _ s' => ends_with_char c s'
  end.

(** The error taxonomy: the five fixed labels, and the generic label that
    carries a type name. *)
Definition error_label (s : string) : bool :=
  bool_decide (s ∈ ["SSL_ERROR"; "TIMEOUT"; "DNS_ERROR"; "CONNECT_ERROR";
                    "READ_ERROR"])
  || (Py.startswith "ERROR (" s && ends_with_char ")" s).

(** The views of the network in which every response carries a status
    code of HTTP, a number of three digits. *)
Definition http_statuses (env : Env) : Prop :=
  forall hist rq rp dt,
    respond env hist rq = (inr rp, dt) -> 100 <= rp_status rp <= 999.

(** An exception of the timeout kind that no earlier test of the cascade
    claims: its type name says timeout, and nothing in it says ssl. *)
Definition timeout_exception (e : Exception) : Prop :=
  Py.contains "timeout" (Py.lower (exc_type e)) = true
  /\ looks_ssl (Some e) = false.

(** The soft-404 test of the specification, on a response: HTML-like
    content type (the values of a repeated header taken together), and a
    marker in the first 8000 characters of the body, whatever the case of
    the letters. *)
Definition html_like (resp : Response) : bool :=
  Py.contains "text/html" (headers_get (headers resp) "content-type" "").

Definition has_marker (resp : Response) : bool :=
  existsb (fun pat =>
             Py.contains pat
               (Py.lower (Py.take_chars (N.to_nat 8000) (text resp))))
    _SOFT_404_PATTERNS.

Section Provenance.

Context (hdr : HeadersModule) (env : Env).
Context (u : string) (primary_headers : Headers).
Context (head_then_get : bool) (retries : Z) (safari_retry : bool).

(** The response of the primary identity that ended the loop, and the
    world right after it. *)
Definition primary_response (w : World) : option (Response * World) :=
  match last (check_trace env u primary_headers head_then_get retries w) with
  | Some a =>
      match at_outcome a with
      | Ok resp => Some (resp, at_end a)
      | Raised _ => None
      end
  | None => None
  end.

(** The Safari probe that follows it, when there is one: the world before
    it, its response, and the world after it. *)
Definition alternate_response (w : World)
  : option (World * Response * World) :=
  match primary_response w with
  | Some (resp, w1) =>
      if safari_retry && ((status_code resp =? 403) || (status_code resp =? 404))
      then
        match _do_request env u (make_headers hdr (SAFARI_UA hdr))
                head_then_get w1 with
        | (Ok alt_resp, w2) => Some (w1, alt_resp, w2)
        | (Raised _, _) => None
        end
      else None
  | None => None
  end.


End Provenance.


(** The final status of a result is a number of three digits or a label of
    the taxonomy, and so is not empty. *)
Definition final_status_known (r : CheckResult) : Prop :=
  final_status_code r <> ""
  /\ (three_digits (final_status_code r) = true
      \/ error_label (final_status_code r) = true).

(** A view of the network in which every request ends in a timeout. *)
Definition always_times_out (env : Env) : Prop :=
  forall hist rq, exists e dt,
    respond env hist rq = (inl e, dt) /\ timeout_exception e.

(** [avoids c s]: the character [c] does not occur in [s]. *)
Fixpoint avoids (c : ascii) (s : string) : Prop :=
  match s with
  | EmptyString => True
  | String a s' => a <> c /\ avoids c s'
  end.

(** What a stretch of a resolution run, inside a call at depth [lo], does
    to the state: the visited set only grows; the URLs fetched are new,
    distinct, not visited before and visited after; the calls made are
    deeper than [lo] and within the bound. *)
Definition Grows (lo : Z) (s s' : Run_state) : Prop :=
  visited s ⊆ visited s'
  /\ (exists new,
        fetched s' = fetched s ++ new /\ NoDup new
        /\ (forall x, x ∈ new -> (x ∉ visited s) /\ (x ∈ visited s')))
  /\ (exists deeper,
        calls s' = calls s ++ deeper
        /\ Forall (fun d => lo < d <= _MAX_DEPTH) deeper).

(** The same for a whole call at depth [d], which records itself first. *)
Definition Called (d : Z) (s s' : Run_state) : Prop :=
  Grows d (mkRun_state (visited s) (messages s) (fetched s) (calls s ++ [d])) s'.

(** ** Concrete runs, for the examples *)

Definition demo_headers : HeadersModule :=
  {| make_headers := fun ua => [("User-Agent", ua)];
     SAFARI_UA := "Safari";
     UA_PRESETS := [("Chrome macOS (default)", "Chrome");
                    ("Safari macOS", "Safari")] |}.

Definition html_page (st : Z) (body : string) : Reply :=
  mkReply st [] "http://example.org/"
    [("Content-Type", "text/html; charset=utf-8")] body.

(** Every request runs into a read timeout after 15 seconds. *)
Definition env_timeout : Env :=
  mkEnv (fun _ _ => (inl (mkException "ReadTimeout" ""), 15%Q))
        (fun _ => (1 # 2)%Q).

(** A server that answers 404 in one second, except to Safari, which gets
    after five seconds a page of status 200 that says it is missing. *)
Definition env_safari_only : Env :=
  mkEnv (fun _ rq =>
           if String.eqb (headers_get (rq_headers rq) "user-agent" "") "Safari"
           then (inr (html_page 200 "<h1>Page Not Found</h1>"), 5%Q)
           else (inr (html_page 404 "no"), 1%Q))
        (fun _ => 0%Q).

(** A server that redirects twice, then answers 200 to everyone. *)
Definition env_redirects : Env :=
  mkEnv (fun _ _ =>
           (inr (mkReply 200 [301; 302] "http://example.org/final"
                   [("Content-Type", "text/html")] "welcome"), 1%Q))
        (fun _ => 0%Q).

(** A server that answers every request with a page of status 200 that
    says it is missing. *)
Definition env_missing_page : Env :=
  mkEnv (fun _ _ => (inr (html_page 200 "<title>404 Not Found</title>"), 1%Q))
        (fun _ => 0%Q).


(** A server that refuses HEAD with 405 and answers GET with 200. *)
Definition env_head_refused : Env :=
  mkEnv (fun _ rq =>
           if String.eqb (rq_method rq) "HEAD"
           then (inr (html_page 405 ""), 1%Q)
           else (inr (html_page 200 "hello"), 2%Q))
        (fun _ => 0%Q).

Definition demo_check (env : Env) (head_then_get : bool) (retries : Z)
  : Outcome CheckResult * World :=
  _check_one demo_headers env "http://example.org/" [("User-Agent", "Chrome")]
    "Chrome macOS (default)" head_then_get retries true world0.

Definition loc_el (t : string) : Element :=
  mkElement "{http://www.sitemaps.org/schemas/sitemap/0.9}loc" (Some t) [].

Definition urlset_doc (locs : list string) : Element :=
  mkElement "{http://www.sitemaps.org/schemas/sitemap/0.9}urlset" None
    (map (fun t => mkElement "url" None [loc_el t]) locs).

Definition index_doc (locs : list string) : Element :=
  mkElement "sitemapindex" None
    (map (fun t => mkElement "sitemap" None [loc_el t]) locs).

(** A small web: an index that lists two url sets, itself, and a sitemap
    that cannot be fetched, twice. *)
Definition demo_web : Web :=
  mkWeb
    (fun _ u _ =>
       if String.eqb u "index.xml" then inr [Byte.x01]
       else if String.eqb u "one.xml" then inr [Byte.x02]
       else if String.eqb u "two.xml" then inr [Byte.x03]
       else inl (mkException "ConnectError" "unreachable"))
    (fun _ => inl (mkException "BadGzipFile" "not a gzip file"))
    (fun data =>
       match data with
       | [Byte.x01] =>
           inr (Some (index_doc ["one.xml"; "gone.xml"; "index.xml";
                                 "two.xml"; "gone.xml"]))
       | [Byte.x02] => inr (Some (urlset_doc ["/a"; "/b"]))
       | [Byte.x03] => inr (Some (urlset_doc ["/b"; "/c"]))
       | [Byte.x04] => inr (Some (urlset_doc ["/a"; "/b"; "/a"; "/c"]))
       | _ => inl (mkException "XMLSyntaxError" "no document")
       end).

(** ** app.py *)

(** [s.isdigit()], on ASCII. *)
Definition isdigit (s : string) : bool :=
  match s with
  | EmptyString => false
  | String _ _ => forallb is_digit (list_ascii_of_string s)
  end.

(** [_group], the status group of a row of results. *)
Definition _group (code : string) : string :=
  if isdigit code then
    match code with
    | String first _ =>
        match dict_get [("2", "2xx"); ("3", "3xx"); ("4", "4xx"); ("5", "5xx")]
                (String first "") with
        | Some g => g
        | None => "Other"
        end
    | EmptyString => "Other"
    end
  else "Error".

(** The rows of the failures download: [status_group] is one of 4xx, 5xx
    and Error, or the soft-404 flag is set. *)
Definition failure_row (r : CheckResult) : bool :=
  existsb (String.eqb (_group (final_status_code r))) ["4xx"; "5xx"; "Error"]
  || soft_404 r.

(** ** Vocabulary of further statements *)

(** How many calls of [client.request] one call of [_do_request] may
    make. *)
Definition requests_per_probe (head_then_get : bool) : nat :=
  if head_then_get then 2%nat else 1%nat.

(** What [client.request] hands over for the answer of the network to the
    request [rq]: the exception, or the response with [rq] attached. *)
Definition response_to (rq : Request) (rp : Reply) : Response :=
  mkResponse rq (rp_status rp) (rp_history rp) (rp_url rp) (rp_headers rp)
    (rp_text rp).

Definition outcome_of (rq : Request) (answer : Exception + Reply)
  : Outcome Response :=
  match answer with
  | inl e => Raised e
  | inr rp => Ok (response_to rq rp)
  end.

(** The exceptions of [parse_sitemap] and [_run] for a missing preset and
    of [asyncio] for a negative semaphore. *)
Definition KeyError_default : Exception :=
  mkException "KeyError" "'Chrome macOS (default)'".

Definition ValueError_semaphore : Exception :=
  mkException "ValueError" "Semaphore initial value must be >= 0".

(** The byte order mark and the gzip magic number at the head of [data]. *)
Definition has_bom (data : bytes) : bool :=
  match data with
  | Byte.xef :: Byte.xbb :: Byte.xbf :: _ => true
  | _ => false
  end.

Definition has_gzip_magic (data : bytes) : bool :=
  match data with
  | Byte.x1f :: Byte.x8b :: _ => true
  | _ => false
  end.

(** ** Vocabulary of the further properties *)

(** The group of a status by its hundreds. *)
Definition group_of_status (z : Z) : string :=
  if z <? 200 then "Other"
  else if z <? 300 then "2xx"
  else if z <? 400 then "3xx"
  else if z <? 500 then "4xx"
  else if z <? 600 then "5xx"
  else "Other".

(** A string that does not begin with white space. *)
Definition starts_clean (s : string) : Prop :=
  match s with
  | EmptyString => True
  | String c _ => Py.is_space c = false
  end.

(** What a stretch of a run adds to the state: the fetches it makes are
    the URLs it adds to the visited set, and each one is announced by one
    message "Fetching <url>", in the same order; no other message begins
    that way. *)
Definition Announced (s s' : Run_state) : Prop :=
  exists new_fetched new_messages,
    fetched s' = fetched s ++ new_fetched
    /\ messages s' = messages s ++ new_messages
    /\ List.filter (Py.startswith "Fetching ") new_messages
       = map (fun u => "Fetching " +:+ u) new_fetched
    /\ visited s' = visited s ∪ list_to_set new_fetched.

(** ** sitemap.py on documents with nodes that are not elements

    Iterating over an [lxml] element yields its child nodes.  The parser
    of [_parse_xml] removes the comments, but a processing instruction or
    an entity reference stays in the tree, and its [.tag] is a function of
    [lxml], not a [str]: on it [_strip_ns] raises a [TypeError], at
    ["}" in tag].  [Element] describes the documents without such nodes;
    [Node] describes all of them, and the definitions below follow
    [parse_sitemap] on them. *)
#[warnings="-register-all"]
Inductive Node : Type :=
| ElementNode (tag : string) (text : option string) (children : list Node)
| OtherNode.

(** [etree.fromstring] with the parser of [_parse_xml], and the text of
    the [TypeError] that ["}" in tag] raises for a [tag] that is a
    function. *)
Record Lxml := mkLxml {
  fromstring : bytes -> Exception + option Node;
  not_iterable : string
}.

Definition TypeError_tag (lx : Lxml) : Exception :=
  mkException "TypeError" (not_iterable lx).

(** [_strip_ns(node.tag)] *)
Definition strip_ns_tag (lx : Lxml) (n : Node) : Exception + string :=
  match n with
  | ElementNode tag _ _ => inr (_strip_ns tag)
  | OtherNode => inl (TypeError_tag lx)
  end.

(** [node.text], when it counts as true. *)
Definition truthy_node_text (n : Node) : option string :=
  match n with
  | ElementNode _ (Some "") _ => None
  | ElementNode _ t _ => t
  | OtherNode => None
  end.

(** [for child in node] *)
Definition child_nodes (n : Node) : list Node :=
  match n with
  | ElementNode _ _ children => children
  | OtherNode => []
  end.

Definition _parse_xml_nodes (lx : Lxml) (data : bytes)
  : Exception + option Node :=
  let data :=
    match data with
    | Byte.xef :: Byte.xbb :: Byte.xbf :: rest => rest
    | _ => data
    end in
  fromstring lx data.

(** The [urlset] branch: the two nested loops. *)
Fixpoint urlset_inner_nodes (lx : Lxml) (acc : list string * gset string)
    (els : list Node) : Exception + list string * gset string :=
  match els with
  | [] => inr acc
  | child :: rest =>
      match strip_ns_tag lx child with
      | inl exc => inl exc
      | inr tag =>
          urlset_inner_nodes lx
            (if String.eqb tag "loc" then
               match truthy_node_text child with
               | Some t => note_url acc (Py.strip t)
               | None => acc
               end
             else acc) rest
      end
  end.

Fixpoint urlset_outer_nodes (lx : Lxml) (acc : list string * gset string)
    (els : list Node) : Exception + list string * gset string :=
  match els with
  | [] => inr acc
  | url_el :: rest =>
      match strip_ns_tag lx url_el with
      | inl exc => inl exc
      | inr tag =>
          match
            (if String.eqb tag "url"
             then urlset_inner_nodes lx acc (child_nodes url_el)
             else inr acc)
          with
          | inl exc => inl exc
          | inr acc' => urlset_outer_nodes lx acc' rest
          end
      end
  end.

Section ResolverNodes.

Context (web : Web) (lx : Lxml) (hdr : HeadersModule).
Context (self : Source -> string -> Z -> R (list string)).
Context (_depth : Z).

(** The [sitemapindex] branch: the loop over the children of one
    [sitemap] element. *)
Fixpoint index_inner_nodes (user_agent : string)
    (acc : list string * gset string) (els : list Node)
  : R (list string * gset string) :=
  match els with
  | [] => retR acc
  | loc_el :: rest =>
      acc' <~
        (tag <~ liftR (strip_ns_tag lx loc_el) ;;
         if String.eqb tag "loc" then
           match truthy_node_text loc_el with
           | Some t =>
               let child_url := Py.strip t in
               seen <~ visited_contains child_url ;;
               if (_depth + 1 <=? _MAX_DEPTH) && negb seen then
                 child_urls <~ self (Url child_url) user_agent (_depth + 1) ;;
                 retR (foldl note_url acc child_urls)
               else retR acc
           | None => retR acc
           end
         else retR acc) ;;
      index_inner_nodes user_agent acc' rest
  end.

(** The loop over the children of the root. *)
Fixpoint index_outer_nodes (user_agent : string)
    (acc : list string * gset string) (els : list Node)
  : R (list string * gset string) :=
  match els with
  | [] => retR acc
  | child :: rest =>
      acc' <~
        (tag <~ liftR (strip_ns_tag lx child) ;;
         if String.eqb tag "sitemap"
         then index_inner_nodes user_agent acc (child_nodes child)
         else retR acc) ;;
      index_outer_nodes user_agent acc' rest
  end.

(** The body of [parse_sitemap]. *)
Definition parse_sitemap_body_nodes (source : Source) (user_agent : string)
  : R (list string) :=
  _ <~ enter_call _depth ;;
  user_agent <~
    (if String.eqb user_agent "" then
       match dict_get (UA_PRESETS hdr) "Chrome macOS (default)" with
       | Some ua => retR ua
       | None => raiseR (mkException "KeyError" "'Chrome macOS (default)'")
       end
     else retR user_agent) ;;
  let fetch_headers := make_headers hdr user_agent in
  got <~ obtain_raw web fetch_headers source ;;
  match got with
  | None => retR []
  | Some raw =>
      raw <~ liftR (_decompress_if_gz web raw) ;;
      match _parse_xml_nodes lx raw with
      | inl exc =>
          _ <~ progress_callback ("XML parse error: " +:+ exc_str exc) ;;
          retR []
      | inr None =>
          _ <~ progress_callback
                 "XML parse returned empty document – check the sitemap source." ;;
          retR []
      | inr (Some root) =>
          root_tag <~ liftR (strip_ns_tag lx root) ;;
          if String.eqb root_tag "sitemapindex" then
            acc <~ index_outer_nodes user_agent ([], ∅) (child_nodes root) ;;
            retR (fst acc)
          else if String.eqb root_tag "urlset" then
            acc <~ liftR (urlset_outer_nodes lx ([], ∅) (child_nodes root)) ;;
            retR (fst acc)
          else
            _ <~ progress_callback
                   ("⚠️ Unknown root element: <" +:+ root_tag +:+ ">") ;;
            retR []
      end
  end.

End ResolverNodes.

Fixpoint parse_sitemap_nodes_fuel (fuel : nat) (web : Web) (lx : Lxml)
    (hdr : HeadersModule) (source : Source) (user_agent : string)
    (_depth : Z) : R (list string) :=
  match fuel with
  | O => fun _ => None
  | S fuel' =>
      parse_sitemap_body_nodes web lx hdr
        (fun src ua d => parse_sitemap_nodes_fuel fuel' web lx hdr src ua d)
        _depth source user_agent
  end.

(** [parse_sitemap] on the documents of [lx]. *)
Definition parse_sitemap_nodes (web : Web) (lx : Lxml) (hdr : HeadersModule)
    (source : Source) (user_agent : string) (_depth : Z) : R (list string) :=
  parse_sitemap_nodes_fuel (enough_fuel _depth) web lx hdr source user_agent
    _depth.

(** An [Element] seen as a [Node], and the parser of [web] seen as one
    that yields nodes. *)
Fixpoint node_of (e : Element) : Node :=
  match e with
  | mkElement tag text children => ElementNode tag text (map node_of children)
  end.

Definition lxml_of (web : Web) (msg : string) : Lxml :=
  mkLxml
    (fun data =>
       match etree_fromstring web data with
       | inl exc => inl exc
       | inr root => inr (node_of <$> root)
       end)
    msg.

(** The root of a document, its children and their children are all
    elements: the resolver then reads the tag of no other node. *)
Definition reads_only_elements (root : Node) : bool :=
  match root with
  | OtherNode => false
  | ElementNode _ _ children =>
      forallb (fun child =>
                 match child with
                 | OtherNode => false
                 | ElementNode _ _ grandchildren =>
                     forallb (fun n => match n with
                                       | OtherNode => false
                                       | ElementNode _ _ _ => true
                                       end) grandchildren
                 end) children
  end.

(** The ways [parse_sitemap] can raise: the default preset is missing, a
    payload with the gzip magic number does not decompress, or a document
    has a node that is not an element where a tag is read. *)
Definition resolver_error (web : Web) (lx : Lxml) (hdr : HeadersModule)
    (e : Exception) : Prop :=
  (e = KeyError_default
   /\ dict_get (UA_PRESETS hdr) "Chrome macOS (default)" = None)
  \/ (exists data,
        has_gzip_magic data = true /\ gzip_decompress web data = inl e)
  \/ (e = TypeError_tag lx
      /\ exists data root,
           fromstring lx data = inr (Some root)
           /\ reads_only_elements root = false).

(** A document with a processing instruction among the children of its
    [urlset] root. *)
Definition demo_lxml : Lxml :=
  mkLxml
    (fun data =>
       match data with
       | [Byte.x05] =>
           inr (Some (ElementNode "urlset" None
                        [ElementNode "url" None
                           [ElementNode "loc" (Some "/a") []];
                         OtherNode;
                         ElementNode "url" None
                           [ElementNode "loc" (Some "/b") []]]))
       | _ => fromstring (lxml_of demo_web "not iterable") data
       end)
    "not iterable".

(** A page of 4000 two-byte characters followed by a soft-404 marker: the
    marker lies within the first 8000 characters and beyond the first
    8000 bytes.  It comes with two [Content-Type] headers. *)
Definition wide_page : Response :=
  mkResponse (mkRequest "GET" "http://example.org/" []) 200 []
    "http://example.org/"
    [("Content-Type", "text/plain"); ("content-type", "text/html")]
    (String.concat "" (replicate (N.to_nat 4000) "é") +:+ "<title>404 Not Found</title>").

(** * Properties *)

(** ** Text *)

Lemma app_nil_l (s : string) : "" +:+ s = s.
Proof. reflexivity. Qed.

Lemma app_cons (a : ascii) (s t : string) :
  String a s +:+ t = String a (s +:+ t).
Proof. reflexivity. Qed.

Lemma app_empty_r (s : string) : s +:+ "" = s.
Proof.
  induction s as [|a s IH]; [reflexivity | now rewrite app_cons, IH].
Qed.

Lemma app_assoc_str (a b c : string) : (a +:+ b) +:+ c = a +:+ (b +:+ c).
Proof.
  induction a as [|x a IH]; [reflexivity | now rewrite !app_cons, IH].
Qed.

Lemma split_go_avoids (c0 : ascii) (sep' x rest cur : string) :
  avoids c0 x ->
  Py.split_go (String c0 sep') 0 cur (x +:+ rest)
  = Py.split_go (String c0 sep') 0 (cur +:+ x) rest.
Proof.
  revert cur. induction x as [|a x IH]; intros cur Hx.
  - now rewrite app_nil_l, app_empty_r.
  - destruct Hx as [Ha Hx]. rewrite app_cons. simpl.
    destruct (Ascii.eqb_spec c0 a) as [->|_]; [congruence|].
    rewrite IH by assumption. now rewrite app_assoc_str.
Qed.

Lemma split_go_arrow (cur rest : string) :
  Py.split_go "→" 0 cur ("→" +:+ rest) = cur :: Py.split_go "→" 0 "" rest.
Proof. reflexivity. Qed.

Lemma split_join_arrow (codes : list string) (cur : string) :
  codes <> [] ->
  Forall (avoids "226"%char) codes ->
  Py.split_go "→" 0 cur (Py.join "→" codes)
  = match codes with
    | [] => []
    | x :: l => (cur +:+ x) :: l
    end.
Proof.
  intros Hne Hall. revert cur Hne.
  induction Hall as [|x l Hx Hl IH]; intros cur Hne; [congruence|].
  destruct l as [|y l'].
  - simpl. rewrite <- (app_empty_r x) at 1.
    change "→" with (String "226"%char (String "134"%char (String "146"%char ""))).
    now rewrite split_go_avoids.
  - change (Py.join "→" (x :: y :: l')) with (x +:+ "→" +:+ Py.join "→" (y :: l')).
    change "→" with (String "226"%char (String "134"%char (String "146"%char ""))) at 1.
    rewrite split_go_avoids by assumption.
    change (String "226"%char (String "134"%char (String "146"%char ""))) with "→".
    rewrite split_go_arrow. f_equal.
    rewrite IH by congruence. reflexivity.
Qed.

Lemma is_digit_digit_char (n : N) : is_digit (digit_char n) = true.
Proof.
  unfold is_digit, digit_char.
  assert (H : (n mod 10 < 10)%N) by (apply N.mod_lt; discriminate).
  revert H. generalize (n mod 10)%N as m. intros m H.
  rewrite N_ascii_embedding by lia.
  apply andb_true_iff. split; apply N.leb_le; lia.
Qed.

Lemma is_digit_avoids_arrow (c : ascii) : is_digit c = true -> c <> "226"%char.
Proof. intros H ->. discriminate H. Qed.

Lemma str_N_go_avoids (fuel : nat) (n : N) (acc : string) :
  avoids "226"%char acc -> avoids "226"%char (str_N_go fuel n acc).
Proof.
  revert n acc. induction fuel as [|fuel IH]; intros n acc Hacc; simpl; [assumption|].
  assert (Hd : avoids "226"%char (String (digit_char n) acc))
    by (split; [apply is_digit_avoids_arrow, is_digit_digit_char | assumption]).
  destruct (n <? 10)%N; [exact Hd | now apply IH].
Qed.

Lemma str_Z_avoids (z : Z) : avoids "226"%char (str_Z z).
Proof.
  unfold str_Z, str_N. destruct (z <? 0).
  - split; [discriminate | now apply str_N_go_avoids].
  - now apply str_N_go_avoids.
Qed.

Lemma str_Z_three_digits (z : Z) : 100 <= z <= 999 -> three_digits (str_Z z) = true.
Proof.
  intros Hz.
  assert (Hall : forallb (fun k => three_digits (str_Z (Z.of_nat k))) (seq 100 900) = true)
    by (vm_compute; reflexivity).
  rewrite forallb_forall in Hall.
  specialize (Hall (Z.to_nat z)). rewrite Z2Nat.id in Hall by lia.
  apply Hall, in_seq. lia.
Qed.

Lemma ends_with_char_app (c : ascii) (s : string) :
  ends_with_char c (s +:+ String c "") = true.
Proof.
  induction s as [|a s IH].
  - apply Ascii.eqb_refl.
  - rewrite app_cons. simpl.
    destruct (s +:+ String c "") eqn:E; [destruct s; discriminate E | exact IH].
Qed.

Lemma ends_with_char_cons (c a : ascii) (s : string) :
  s <> "" -> ends_with_char c (String a s) = ends_with_char c s.
Proof. destruct s; [congruence | reflexivity]. Qed.

Lemma error_label_classify (exc : option Exception) :
  error_label (_classify_error exc) = true.
Proof.
  unfold _classify_error.
  destruct (looks_ssl exc); [reflexivity|].
  destruct (looks_timeout exc); [reflexivity|].
  destruct (looks_dns exc); [reflexivity|].
  destruct (looks_connect exc); [reflexivity|].
  destruct (looks_read exc); [reflexivity|].
  unfold error_label. apply orb_true_iff. right.
  apply andb_true_iff. split; [reflexivity|].
  rewrite !app_cons, app_nil_l.
  repeat (rewrite ends_with_char_cons; [| destruct (type_name exc); discriminate ]).
  apply ends_with_char_app.
Qed.

(** C5. [_classify_error] gives every exception (or [None]) exactly one
    label, by a cascade: [SSL_ERROR] when the ssl test holds; [TIMEOUT]
    when it fails and the timeout test holds; then [DNS_ERROR],
    [CONNECT_ERROR] and [READ_ERROR] in the same way; and the generic
    label with the type name exactly when all five tests fail. *)
Theorem classify_error_cascade (exc : option Exception) :
  (_classify_error exc = "SSL_ERROR" <-> looks_ssl exc = true)
  /\ (_classify_error exc = "TIMEOUT"
      <-> looks_ssl exc = false /\ looks_timeout exc = true)
  /\ (_classify_error exc = "DNS_ERROR"
      <-> looks_ssl exc = false /\ looks_timeout exc = false
          /\ looks_dns exc = true)
  /\ (_classify_error exc = "CONNECT_ERROR"
      <-> looks_ssl exc = false /\ looks_timeout exc = false
          /\ looks_dns exc = false /\ looks_connect exc = true)
  /\ (_classify_error exc = "READ_ERROR"
      <-> looks_ssl exc = false /\ looks_timeout exc = false
          /\ looks_dns exc = false /\ looks_connect exc = false
          /\ looks_read exc = true)
  /\ (_classify_error exc = "ERROR (" +:+ type_name exc +:+ ")"
      <-> looks_ssl exc = false /\ looks_timeout exc = false
          /\ looks_dns exc = false /\ looks_connect exc = false
          /\ looks_read exc = false).
Proof.
  unfold _classify_error.
  destruct (looks_ssl exc), (looks_timeout exc), (looks_dns exc),
    (looks_connect exc), (looks_read exc); rewrite ?app_cons;
    repeat split; intros; try discriminate; try tauto;
    repeat match goal with H : _ /\ _ |- _ => destruct H end; try discriminate.
Qed.

(** ** The model at work *)

Example str_Z_examples :
  map str_Z [0; 7; 200; 404; 1000; -12] = ["0"; "7"; "200"; "404"; "1000"; "-12"].
Proof. reflexivity. Qed.

Example split_examples :
  Py.split "→" "301→302→200" = ["301"; "302"; "200"]
  /\ Py.split "→" "200" = ["200"]
  /\ Py.split "→" "" = [""].
Proof. repeat split; reflexivity. Qed.

Example strip_ns_example :
  _strip_ns "{http://www.sitemaps.org/schemas/sitemap/0.9}loc" = "loc"
  /\ _strip_ns "urlset" = "urlset".
Proof. split; reflexivity. Qed.

Example classify_error_examples :
  _classify_error (Some (mkException "ConnectTimeout" "")) = "TIMEOUT"
  /\ _classify_error (Some (mkException "ConnectError"
                              "[SSL: CERTIFICATE_VERIFY_FAILED]")) = "SSL_ERROR"
  /\ _classify_error (Some (mkException "ConnectError"
                              "[Errno -2] Name or service not known")) = "DNS_ERROR"
  /\ _classify_error (Some (mkException "ReadError" "")) = "READ_ERROR"
  /\ _classify_error (Some (mkException "RemoteProtocolError" "")) =
     "ERROR (RemoteProtocolError)"
  /\ _classify_error None = "ERROR (NoneType)".
Proof. repeat split; reflexivity. Qed.

Example take_chars_examples :
  Py.take_chars 2 "aé→b" = "aé"
  /\ Py.take_chars 3 "aé→b" = "aé→"
  /\ Py.take_chars 0 "abc" = ""
  /\ Py.take_chars 5 "abc" = "abc"
  /\ String.length (Py.take_chars 3 "aé→b") = 6%nat.
Proof. repeat split; vm_compute; reflexivity. Qed.

Example headers_get_examples :
  headers_get [("Content-Type", "text/plain"); ("Server", "x");
               ("content-type", "text/html")] "content-type" ""
  = "text/plain, text/html"
  /\ headers_get [("Server", "x")] "content-type" "" = ""
  /\ headers_get [("CONTENT-TYPE", "text/html; charset=utf-8")]
       "content-type" "" = "text/html; charset=utf-8".
Proof. repeat split; vm_compute; reflexivity. Qed.

(** The body is cut by characters, and the values of a repeated header
    count together. *)
Example soft_404_of_wide_page :
  Nat.ltb (N.to_nat 8000) (String.length (text wide_page)) = true
  /\ Py.contains "<title>404"
       (Py.lower (Py.take (N.to_nat 8000) (text wide_page))) = false
  /\ html_like wide_page = true
  /\ has_marker wide_page = true
  /\ soft_404 (record_response "Chrome" (new_CheckResult "http://example.org/")
                 wide_page 0) = true.
Proof. repeat split; vm_compute; reflexivity. Qed.

(** HEAD answered by 405, then GET by 200. *)
Example check_one_head_then_get :
  exists r w',
    demo_check env_head_refused true 1 = (Ok r, w')
    /\ method_used r = "GET"
    /\ final_status_code r = "200"
    /\ redirect_count r = 0
    /\ map rq_method (sent w') = ["HEAD"; "GET"].
Proof. eexists _, _. split; [vm_compute; reflexivity|]. repeat split. Qed.

(** ** The checker *)

Ltac run_m :=
  unfold bind, ret, raise, try_except, attempt, perf_counter in *; simpl in *.

Section CheckOneFacts.

Context (hdr : HeadersModule) (env : Env).
Context (u : string) (primary_headers : Headers) (primary_ua_label : string).
Context (head_then_get : bool) (retries : Z) (safari_retry : bool).

Local Abbreviation safari := (safari_probe hdr env u head_then_get).
Local Abbreviation after :=
  (after_response hdr env u primary_ua_label head_then_get safari_retry).
Local Abbreviation loop :=
  (attempts_loop hdr env u primary_headers primary_ua_label head_then_get
     retries safari_retry).
Local Abbreviation trace :=
  (attempts_trace env u primary_headers head_then_get retries).
Local Abbreviation spent := (exhausted primary_ua_label).

(** What the Safari retry returns, by the outcome of its request. *)
Lemma safari_probe_eq (result : CheckResult) (w : World) :
  safari result w =
  match _do_request env u (make_headers hdr (SAFARI_UA hdr)) head_then_get w with
  | (Ok alt_resp, w2) => (Ok (record_alternate result alt_resp), w2)
  | (Raised _, w2) => (Ok result, w2)
  end.
Proof.
  unfold safari_probe. run_m.
  destruct (_do_request env u _ head_then_get w) as [[alt_resp|e] w2];
    reflexivity.
Qed.

Lemma safari_probe_ok (result : CheckResult) (w : World) :
  exists r w', safari result w = (Ok r, w').
Proof.
  rewrite safari_probe_eq.
  destruct (_do_request env u _ head_then_get w) as [[alt_resp|e] w2]; eauto.
Qed.

(** The [try] block cannot raise once the request has come back. *)
Lemma after_response_ok (result : CheckResult) (resp : Response)
    (elapsed : Q) (w : World) :
  exists r w', after result resp elapsed w = (Ok r, w').
Proof.
  unfold after_response.
  destruct (safari_retry && _); [apply safari_probe_ok | run_m; eauto].
Qed.

Lemma backoff_sleep_ok (att : Z) (w : World) :
  exists w', backoff_sleep env retries att w = (Ok tt, w')
             /\ sent w' = sent w
             /\ length (slept w') =
                (length (slept w) + (if (att <? retries)%Z then 1 else 0))%nat.
Proof.
  unfold backoff_sleep. destruct (att <? retries).
  - unfold random_uniform, asyncio_sleep. run_m. eexists. split; [reflexivity|].
    split; [reflexivity|]. simpl. now rewrite length_app.
  - run_m. eexists. split; [reflexivity|]. split; [reflexivity|]. lia.
Qed.

(** The loop, read off the record of its attempts: it ends with the
    [try] block of the last attempt if that one got a response, and with
    the spent result of the last exception otherwise. *)
Lemma attempts_loop_last (atts : list Z) (last_exc : option Exception)
    (elapsed : Q) (result : CheckResult) (w : World) :
  match last (trace atts w) with
  | None =>
      atts = []
      /\ loop atts last_exc elapsed result w
         = (Ok (spent result last_exc elapsed), w)
  | Some a =>
      match at_outcome a with
      | Ok resp =>
          loop atts last_exc elapsed result w
          = after result resp (at_elapsed a) (at_end a)
      | Raised e =>
          exists w',
            loop atts last_exc elapsed result w
            = (Ok (spent result (Some e) (at_elapsed a)), w')
      end
  end.
Proof.
  revert last_exc elapsed w.
  induction atts as [|att rest IH]; intros last_exc elapsed w.
  - simpl. split; reflexivity.
  - simpl attempts_trace.
    destruct (_do_request env u primary_headers head_then_get w)
      as [[resp|e] w1] eqn:Hreq.
    + simpl last. simpl at_outcome.
      simpl attempts_loop. unfold try_block. run_m. rewrite Hreq.
      unfold at_elapsed. simpl.
      destruct (after_response_ok result resp ((now w1 - now w) * 1000)%Q w1)
        as (r & w2 & Hr).
      unfold after_response in *. rewrite Hr. reflexivity.
    + destruct (backoff_sleep_ok att w1) as (w2 & Hs & _).
      assert (Hloop :
        loop (att :: rest) last_exc elapsed result w
        = loop rest (Some e) ((now w1 - now w) * 1000)%Q result w2).
      { simpl attempts_loop. unfold try_block. run_m.
        rewrite Hreq. rewrite Hs. reflexivity. }
      rewrite Hloop. rewrite Hs. simpl snd.
      specialize (IH (Some e) ((now w1 - now w) * 1000)%Q w2).
      destruct (trace rest w2) as [|a tr] eqn:Htr.
      * simpl in IH. destruct IH as [-> IH]. simpl. eauto.
      * change (last (?x :: a :: tr)) with (last (a :: tr)).
        destruct (last (a :: tr)) eqn:Hl; [exact IH|].
        apply last_None in Hl. discriminate Hl.
Qed.

Local Abbreviation check :=
  (_check_one hdr env u primary_headers primary_ua_label head_then_get
     retries safari_retry).
Local Abbreviation primary :=
  (primary_response env u primary_headers head_then_get retries).

(** [_check_one] never raises. *)
Lemma check_one_ok (w : World) : exists r w', check w = (Ok r, w').
Proof.
  unfold _check_one.
  pose proof (attempts_loop_last (range (1 + retries)) None 0%Q
                (new_CheckResult u) w) as H.
  destruct (last _) as [a|].
  - destruct (at_outcome a) as [resp|e].
    + rewrite H. apply after_response_ok.
    + destruct H as [w' H]. eauto.
  - destruct H as [_ H]. eauto.
Qed.

(** The result of [_check_one], by what the last attempt met. *)
Lemma check_one_result (r : CheckResult) (w w' : World) :
  check w = (Ok r, w') ->
  match primary w with
  | Some (resp, w1) =>
      let '(t0, t1) :=
        match last (check_trace env u primary_headers head_then_get retries w) with
        | Some a => (now (at_start a), now (at_end a))
        | None => (0%Q, 0%Q)
        end in
      let base := record_response primary_ua_label (new_CheckResult u) resp
                    ((t1 - t0) * 1000)%Q in
      if safari_retry && ((status_code resp =? 403) || (status_code resp =? 404))
      then
        match _do_request env u (make_headers hdr (SAFARI_UA hdr))
                head_then_get w1 with
        | (Ok alt_resp, _) => r = record_alternate base alt_resp
        | (Raised _, _) => r = base
        end
      else r = base
  | None =>
      r = spent (new_CheckResult u)
            (match last (check_trace env u primary_headers head_then_get retries w) with
             | Some a => match at_outcome a with
                         | Raised e => Some e
                         | Ok _ => None
                         end
             | None => None
             end)
            (match last (check_trace env u primary_headers head_then_get retries w) with
             | Some a => at_elapsed a
             | None => 0%Q
             end)
  end.
Proof.
  unfold _check_one, primary_response, check_trace. intros Hrun.
  pose proof (attempts_loop_last (range (1 + retries)) None 0%Q
                (new_CheckResult u) w) as H.
  destruct (last _) as [a|].
  - destruct (at_outcome a) as [resp|e].
    + rewrite Hrun in H. unfold after_response in H.
      change ((now (at_end a) - now (at_start a)) * 1000)%Q with (at_elapsed a).
      cbv zeta.
      destruct (safari_retry && _).
      * rewrite safari_probe_eq in H.
        destruct (_do_request env u _ head_then_get (at_end a))
          as [[alt_resp|e] w2]; now inversion H.
      * now inversion H.
    + destruct H as [w2 H]. rewrite Hrun in H. now inversion H.
  - destruct H as [_ H]. rewrite Hrun in H. now inversion H.
Qed.

(** Every entry of the record is a request of the primary identity. *)
Lemma attempts_trace_requests (atts : list Z) (w : World) (a : Attempt) :
  a ∈ trace atts w ->
  _do_request env u primary_headers head_then_get (at_start a)
  = (at_outcome a, at_end a).
Proof.
  revert w. induction atts as [|att rest IH]; intros w Hin; simpl in Hin.
  - inversion Hin.
  - destruct (_do_request env u primary_headers head_then_get w)
      as [o w1] eqn:Hreq.
    apply elem_of_cons in Hin as [-> | Hin]; [exact Hreq|].
    destruct o; [inversion Hin | eauto].
Qed.

Lemma last_attempt_request (w : World) (a : Attempt) :
  last (check_trace env u primary_headers head_then_get retries w) = Some a ->
  _do_request env u primary_headers head_then_get (at_start a)
  = (at_outcome a, at_end a).
Proof.
  intros Hl. apply (attempts_trace_requests (range (1 + retries)) w).
  unfold check_trace in Hl. apply last_Some in Hl as [l' ->]. apply elem_of_app. right. now left.
Qed.

Lemma attempts_trace_nil (atts : list Z) (w : World) :
  trace atts w = [] -> atts = [].
Proof.
  destruct atts as [|att rest]; [reflexivity|]. simpl.
  destruct (_do_request env u primary_headers head_then_get w); discriminate.
Qed.

Lemma range_nil (n : Z) : range n = [] -> n <= 0.
Proof.
  unfold range. intros H. apply (f_equal (@length Z)) in H.
  rewrite length_map, length_seq in H. simpl in H. lia.
Qed.

Lemma do_request_status (hs : Headers) (w w' : World) (resp : Response) :
  http_statuses env ->
  _do_request env u hs head_then_get w = (Ok resp, w') ->
  100 <= status_code resp <= 999.
Proof.
  intros Henv. unfold _do_request, client_request. run_m.
  assert (Hone : forall m w0 resp0 w1,
    (let '(o, dt) := respond env (sent w0) (mkRequest m u hs) in
     match o with
     | inl e => (Raised e, mkWorld (now w0 + dt)%Q (sent w0 ++ [mkRequest m u hs]) (slept w0) (draws w0))
     | inr rp => (Ok (mkResponse (mkRequest m u hs) (rp_status rp) (rp_history rp)
                        (rp_url rp) (rp_headers rp) (rp_text rp)),
                  mkWorld (now w0 + dt)%Q (sent w0 ++ [mkRequest m u hs]) (slept w0) (draws w0))
     end) = (Ok resp0, w1) -> 100 <= status_code resp0 <= 999).
  { intros m w0 resp0 w1.
    destruct (respond env (sent w0) (mkRequest m u hs)) as [[e|rp] dt] eqn:Hr;
      intros H; inversion H; subst. simpl. eapply Henv, Hr. }
  destruct head_then_get.
  - destruct (respond env (sent w) (mkRequest "HEAD" u hs)) as [[e|rp] dt] eqn:Hr;
      [discriminate|].
    simpl. destruct (rp_status rp >=? 400).
    + apply Hone.
    + intros H; inversion H; subst. simpl. eapply Henv, Hr.
  - apply Hone.
Qed.

(** ** Properties of [_check_one] *)

(** C9, as amended.  The response time of a result is the time the
    request of the primary identity took in the last attempt made, whether
    that attempt ended the check with a response (also when the values of
    the Safari probe were promoted) or was the last to fail; it is 0 when
    no attempt was made. *)
Theorem response_time_is_primary_elapsed (r : CheckResult) (w w' : World) :
  check w = (Ok r, w') ->
  match last (check_trace env u primary_headers head_then_get retries w) with
  | Some a =>
      _do_request env u primary_headers head_then_get (at_start a)
      = (at_outcome a, at_end a)
      /\ response_time_ms r = ((now (at_end a) - now (at_start a)) * 1000)%Q
  | None => retries < 0 /\ response_time_ms r = 0%Q
  end.
Proof.
  intros Hrun. pose proof (check_one_result r w w' Hrun) as H.
  unfold primary_response in H.
  destruct (last _) as [a|] eqn:Hl.
  - split; [now apply (last_attempt_request w)|].
    destruct (at_outcome a) as [resp|e]; [|now subst r].
    unfold record_alternate, record_response in H.
    destruct (safari_retry && _);
      [destruct (_do_request env u _ head_then_get (at_end a)) as [[alt|e] w2]|];
      subst r;
      repeat match goal with |- context [if ?b then _ else _] => destruct b end;
      reflexivity.
  - split; [|now subst r].
    apply last_None in Hl. apply attempts_trace_nil, range_nil in Hl. lia.
Qed.



(** C3.  The alternate-identity fields of a result are filled only when
    the Safari retry is enabled and the primary identity got a response
    of status 403 or 404; and whenever the Safari probe made then comes
    back with a status below 400, the first-hop status, the final status,
    the final URL, the redirect count, the redirect chain, the method and
    the identity of the result are those of the Safari response, the
    identity label saying that a retry took place. *)
Theorem alternate_identity_fields (r : CheckResult) (w w' : World) :
  check w = (Ok r, w') ->
  ((alt_status_code r <> "" \/ alt_user_agent_used r <> "") ->
   safari_retry = true
   /\ exists resp w1,
        primary w = Some (resp, w1)
        /\ (status_code resp = 403 \/ status_code resp = 404))
  /\ (forall resp w1 alt_resp w2,
        primary w = Some (resp, w1) ->
        safari_retry = true ->
        status_code resp = 403 \/ status_code resp = 404 ->
        _do_request env u (make_headers hdr (SAFARI_UA hdr)) head_then_get w1
        = (Ok alt_resp, w2) ->
        status_code alt_resp < 400 ->
        first_status_code r = _get_first_status alt_resp
        /\ final_status_code r = str_Z (status_code alt_resp)
        /\ final_url r = url alt_resp
        /\ redirect_count r = Z.of_nat (length (history alt_resp))
        /\ redirect_chain r = _build_redirect_chain alt_resp
        /\ method_used r = _method_from_resp alt_resp
        /\ user_agent_used r = "Safari macOS (retry)"
        /\ alt_status_code r = str_Z (status_code alt_resp)
        /\ alt_user_agent_used r = "Safari macOS").
Proof.
  intros Hrun. pose proof (check_one_result r w w' Hrun) as H.
  destruct (primary w) as [[resp w1]|].
  - destruct (last _) as [a|]; cbv zeta in H;
      match type of H with context [record_response _ _ _ ?t] =>
        set (elapsed := t) in H end.
    all: assert (Hbase :
      alt_status_code (record_response primary_ua_label (new_CheckResult u) resp elapsed) = ""
      /\ alt_user_agent_used (record_response primary_ua_label (new_CheckResult u) resp elapsed) = "")
      by (unfold record_response; simpl;
          destruct (String.eqb _ "GET" && _); split; reflexivity).
    all: destruct Hbase as [Hb1 Hb2].
    all: destruct (safari_retry && _) eqn:Hcond.
    all: split.
    (* filled only when *)
    all: try (intros _; apply andb_true_iff in Hcond as [Hs Hc]; split; [exact Hs|];
              exists resp, w1; split; [reflexivity|];
              apply orb_true_iff in Hc as [Hc|Hc]; apply Z.eqb_eq in Hc; tauto).
    all: try (subst r; rewrite Hb1, Hb2; intros [Hne|Hne]; congruence).
    (* promotion *)
    all: intros resp' w1' alt_resp w2 Heq Hs Hst Halt Hlt;
         inversion Heq; subst resp' w1'.
    all: try (rewrite Halt in H; subst r; unfold record_alternate;
              apply Z.ltb_lt in Hlt; rewrite Hlt; simpl;
              repeat split; reflexivity).
    all: exfalso; rewrite Hs in Hcond; simpl in Hcond;
         apply orb_false_iff in Hcond as [Hc1 Hc2];
         apply Z.eqb_neq in Hc1, Hc2; lia.
  - subst r. split.
    + simpl. intros [Hne|Hne]; congruence.
    + intros resp w1 alt_resp w2 Heq. discriminate Heq.
Qed.

Lemma chain_of_response (resp : Response) :
  Py.split "→" (_build_redirect_chain resp)
  = map str_Z (history resp) ++ [str_Z (status_code resp)].
Proof.
  unfold Py.split, _build_redirect_chain.
  destruct (history resp) as [|h hs] eqn:Hh.
  - simpl. rewrite <- (app_empty_r (str_Z (status_code resp))) at 1.
    change "→" with (String "226"%char (String "134"%char (String "146"%char ""))).
    rewrite split_go_avoids by apply str_Z_avoids. reflexivity.
  - rewrite split_join_arrow.
    + reflexivity.
    + simpl. discriminate.
    + apply Forall_app. split.
      * apply Forall_forall. intros x Hx. apply list_elem_of_In in Hx.
        apply in_map_iff in Hx as (z & <- & _). apply str_Z_avoids.
      * repeat constructor. apply str_Z_avoids.
Qed.


Lemma classify_error_nonempty (exc : option Exception) :
  _classify_error exc <> "".
Proof.
  intros H. pose proof (error_label_classify exc) as Hl.
  rewrite H in Hl. discriminate Hl.
Qed.

Lemma record_response_chain (result : CheckResult) (resp : Response)
    (elapsed : Q) :
  let base := record_response primary_ua_label result resp elapsed in
  redirect_chain base = _build_redirect_chain resp
  /\ redirect_count base = Z.of_nat (length (history resp))
  /\ final_status_code base = str_Z (status_code resp)
  /\ input_url base = input_url result
  /\ error base = error result.
Proof.
  unfold record_response. simpl.
  destruct (String.eqb _ "GET" && _); repeat split; reflexivity.
Qed.


Lemma primary_response_request (w : World) (resp : Response) (w1 : World) :
  primary w = Some (resp, w1) ->
  exists w0,
    _do_request env u primary_headers head_then_get w0 = (Ok resp, w1).
Proof.
  unfold primary_response. destruct (last _) as [a|] eqn:Hl; [|discriminate].
  apply last_attempt_request in Hl.
  destruct (at_outcome a) as [resp'|e]; [|discriminate].
  intros H. inversion H; subst. eauto.
Qed.

Lemma three_digits_nonempty (s : string) : three_digits s = true -> s <> "".
Proof. now destruct s. Qed.

Lemma error_label_nonempty (s : string) : error_label s = true -> s <> "".
Proof. now destruct s. Qed.

(** The input URL and the final status of the result of one check. *)
Lemma check_one_final_status (r : CheckResult) (w w' : World) :
  http_statuses env ->
  check w = (Ok r, w') ->
  input_url r = u /\ final_status_known r.
Proof.
  intros Henv Hrun. pose proof (check_one_result r w w' Hrun) as H.
  assert (Hnum : forall hs w0 resp w1 (r' : CheckResult),
    _do_request env u hs head_then_get w0 = (Ok resp, w1) ->
    final_status_code r' = str_Z (status_code resp) -> final_status_known r').
  { intros hs w0 resp w1 r' Hreq Hf. unfold final_status_known. rewrite Hf.
    pose proof (str_Z_three_digits _ (do_request_status hs w0 w1 resp Henv Hreq)) as H3.
    split; [now apply three_digits_nonempty | now left]. }
  destruct (primary w) as [[resp w1]|] eqn:Hp.
  - apply primary_response_request in Hp as [w0 Hreq].
    destruct (last _) as [a|]; cbv zeta in H;
      match type of H with context [record_response _ _ _ ?t] =>
        set (elapsed := t) in H end.
    all: destruct (record_response_chain (new_CheckResult u) resp elapsed)
           as (_ & _ & Hf & Hu & _).
    all: destruct (safari_retry && _);
           [destruct (_do_request env u _ head_then_get w1) as [[alt|e] w2] eqn:Halt|];
           subst r; try (split; [exact Hu | now apply (Hnum _ _ _ _ _ Hreq)]).
    all: unfold record_alternate; destruct (status_code alt <? 400);
           (split; [exact Hu|]);
           [now apply (Hnum _ _ _ _ _ Halt) | now apply (Hnum _ _ _ _ _ Hreq)].
  - subst r. split; [reflexivity|]. unfold final_status_known. simpl.
    split; [apply classify_error_nonempty | right; apply error_label_classify].
Qed.

Lemma classify_timeout (e : Exception) :
  timeout_exception e -> _classify_error (Some e) = "TIMEOUT".
Proof.
  intros [Ht Hs]. unfold _classify_error. rewrite Hs.
  unfold looks_timeout. simpl type_name. now rewrite Ht.
Qed.

Lemma do_request_times_out (hs : Headers) (w : World) :
  always_times_out env ->
  exists e w1,
    _do_request env u hs head_then_get w = (Raised e, w1)
    /\ timeout_exception e
    /\ length (sent w1) = S (length (sent w)).
Proof.
  intros Henv. unfold _do_request, client_request. run_m.
  destruct head_then_get.
  - destruct (Henv (sent w) (mkRequest "HEAD" u hs)) as (e & dt & Hr & He).
    rewrite Hr. exists e. eexists. split; [reflexivity|]. split; [exact He|].
    simpl. rewrite length_app. simpl. lia.
  - destruct (Henv (sent w) (mkRequest "GET" u hs)) as (e & dt & Hr & He).
    rewrite Hr. exists e. eexists. split; [reflexivity|]. split; [exact He|].
    simpl. rewrite length_app. simpl. lia.
Qed.

Lemma attempts_trace_times_out (atts : list Z) (w : World) :
  always_times_out env ->
  length (trace atts w) = length atts
  /\ Forall (fun a => exists e, at_outcome a = Raised e /\ timeout_exception e)
       (trace atts w).
Proof.
  intros Henv. revert w. induction atts as [|att rest IH]; intros w.
  - split; [reflexivity | constructor].
  - simpl. destruct (do_request_times_out primary_headers w Henv)
      as (e & w1 & Hreq & He & _).
    rewrite Hreq. destruct (IH (snd (backoff_sleep env retries att w1))) as [Hl Hf].
    split; [simpl; now rewrite Hl|].
    constructor; [simpl; eauto | exact Hf].
Qed.

Lemma attempts_loop_sent (atts : list Z) (last_exc : option Exception)
    (elapsed : Q) (result : CheckResult) (w : World) :
  always_times_out env ->
  exists r w',
    loop atts last_exc elapsed result w = (Ok r, w')
    /\ length (sent w') = (length (sent w) + length atts)%nat.
Proof.
  intros Henv. revert last_exc elapsed w.
  induction atts as [|att rest IH]; intros last_exc elapsed w.
  - simpl. run_m. eexists _, _. split; [reflexivity | lia].
  - destruct (do_request_times_out primary_headers w Henv)
      as (e & w1 & Hreq & _ & Hs1).
    destruct (backoff_sleep_ok att w1) as (w2 & Hs & Hs2 & _).
    destruct (IH (Some e) ((now w1 - now w) * 1000)%Q w2) as (r & w' & Hl & Hn).
    exists r, w'. split.
    + simpl attempts_loop. unfold try_block. run_m. rewrite Hreq, Hs. exact Hl.
    + rewrite Hn, Hs2, Hs1. simpl. lia.
Qed.

(** C4.  When every request of the check runs into a timeout, and
    [retries] is not negative, [_check_one] does not raise: it makes
    exactly [retries + 1] attempts, one after the other, each a single
    request that fails, and returns a result whose final status and
    error are both [TIMEOUT].  With [retries = 1] that is 2 attempts. *)
Theorem timeouts_use_every_attempt (w : World) :
  0 <= retries ->
  always_times_out env ->
  exists r w',
    check w = (Ok r, w')
    /\ final_status_code r = "TIMEOUT"
    /\ error r = "TIMEOUT"
    /\ Z.of_nat (length (check_trace env u primary_headers head_then_get
                           retries w)) = retries + 1
    /\ Forall (fun a => exists e, at_outcome a = Raised e)
         (check_trace env u primary_headers head_then_get retries w)
    /\ Z.of_nat (length (sent w')) = Z.of_nat (length (sent w)) + retries + 1.
Proof.
  intros Hret Henv.
  destruct (attempts_loop_sent (range (1 + retries)) None 0%Q
              (new_CheckResult u) w Henv) as (r & w' & Hrun & Hsent).
  destruct (attempts_trace_times_out (range (1 + retries)) w Henv) as [Hlen Hall].
  assert (Hrange : length (range (1 + retries)) = Z.to_nat (1 + retries))
    by (unfold range; now rewrite length_map, length_seq).
  exists r, w'. split; [exact Hrun|].
  pose proof (check_one_result r w w' Hrun) as H.
  unfold primary_response, check_trace in *.
  destruct (last _) as [a|] eqn:Hl.
  - assert (Ha : exists e, at_outcome a = Raised e /\ timeout_exception e).
    { rewrite Forall_forall in Hall. apply Hall.
      apply last_Some in Hl as [l' ->]. apply elem_of_app. right. now left. }
    destruct Ha as (e & Ha & He). rewrite Ha in H. subst r. simpl.
    rewrite (classify_timeout e He).
    repeat split; try reflexivity.
    + rewrite Hlen, Hrange. lia.
    + eapply Forall_impl; [exact Hall|]. intros a' (e' & Ha' & _). eauto.
    + rewrite Hsent, Hrange. lia.
  - apply last_None in Hl. rewrite Hl in Hlen. simpl in Hlen. lia.
Qed.

End CheckOneFacts.

(** ** The run of all checks *)

Lemma gather_all_ok {A} (P : string -> A -> Prop) (urls : list string)
    (f : nat -> string -> Outcome A) :
  (forall i x, exists a, f i x = Ok a /\ P x a) ->
  exists l, gather (imap f urls) = Ok l /\ Forall2 P urls l.
Proof.
  revert f. induction urls as [|x urls IH]; intros f Hf.
  - exists []. split; [reflexivity | constructor].
  - simpl. destruct (Hf 0%nat x) as (a & Ha & Hp). rewrite Ha.
    destruct (IH (f ∘ S)) as (l & Hl & Hall); [intros i y; apply Hf|].
    rewrite Hl. exists (a :: l). split; [reflexivity | now constructor].
Qed.

Lemma gather_returns {A} (P : A -> Prop) (urls : list string)
    (f : nat -> string -> Outcome A) (l : list A) :
  (forall i x a, f i x = Ok a -> P a) ->
  gather (imap f urls) = Ok l -> Forall P l.
Proof.
  revert f l. induction urls as [|x urls IH]; intros f l Hf.
  - simpl. intros H. inversion H. constructor.
  - simpl. destruct (f 0%nat x) as [a|e] eqn:Ha; [|discriminate].
    destruct (gather (imap (f ∘ S) urls)) as [l'|e] eqn:Hl; [|discriminate].
    intros H. inversion H; subst. constructor; [eapply Hf, Ha|].
    eapply (IH (f ∘ S)); [|exact Hl]. intros i y b. apply Hf.
Qed.

(** What holds of every result of every check holds, as far as
    [to_dict] keeps it, of every result of a run. *)
Lemma run_results (P : CheckResult -> Prop) (hdr : HeadersModule)
    (round1 : Q -> Q) (envs : nat -> Env) (urls : list string)
    (concurrency : Z) (timeout : Q) (follow_redirects head_then_get : bool)
    (retries : Z) (user_agent : string) (safari_retry : bool)
    (results : list CheckResult) :
  (forall i url_i hs label r w',
     _check_one hdr (envs i) url_i hs label head_then_get retries
       safari_retry world0 = (Ok r, w') -> P (to_dict round1 r)) ->
  run_checks hdr round1 envs urls concurrency timeout follow_redirects
    head_then_get retries user_agent safari_retry = Returns results ->
  Forall P results.
Proof.
  intros Hone. unfold run_checks, _run.
  destruct (if String.eqb user_agent "" then _ else _) as [ua|]; [|discriminate].
  destruct (concurrency <? 0); [discriminate|].
  destruct urls as [|x urls].
  - intros H. inversion H. constructor.
  - destruct (concurrency =? 0); [discriminate|].
    destruct (gather _) as [rs|e] eqn:Hg; [|discriminate].
    intros H. inversion H; subst. apply Forall_map.
    eapply gather_returns; [|exact Hg].
    intros i y r Hr. simpl in Hr.
    destruct (_check_one hdr (envs i) y _ _ head_then_get retries safari_retry
                world0) as [o w'] eqn:Hc.
    simpl in Hr. subst o. eapply Hone, Hc.
Qed.

(** C1.  With a concurrency of at least one, the default preset at hand
    when no user agent is given, and a network whose responses carry HTTP
    status codes, [run_checks] returns, for every list of URLs and all
    other settings, exactly one result per input URL, in the order of the
    input; and the final status of each is a number of three digits or a
    label of the error taxonomy, never the empty string. *)
Theorem run_checks_one_result_per_url (hdr : HeadersModule) (round1 : Q -> Q)
    (envs : nat -> Env) (urls : list string) (concurrency : Z) (timeout : Q)
    (follow_redirects head_then_get : bool) (retries : Z)
    (user_agent : string) (safari_retry : bool) :
  1 <= concurrency ->
  (user_agent = "" ->
   is_Some (dict_get (UA_PRESETS hdr) "Chrome macOS (default)")) ->
  (forall i, http_statuses (envs i)) ->
  exists results,
    run_checks hdr round1 envs urls concurrency timeout follow_redirects
      head_then_get retries user_agent safari_retry = Returns results
    /\ map input_url results = urls
    /\ Forall final_status_known results.
Proof.
  intros Hc Hua Henv. unfold run_checks, _run.
  assert (Hsome : exists ua,
    (if String.eqb user_agent ""
     then dict_get (UA_PRESETS hdr) "Chrome macOS (default)"
     else Some user_agent) = Some ua).
  { destruct (String.eqb_spec user_agent "") as [He|_]; [|eauto].
    destruct (Hua He) as [ua Hx]. eauto. }
  destruct Hsome as [ua ->].
  destruct (Z.ltb_spec concurrency 0); [lia|].
  destruct urls as [|x urls]; [exists []; repeat split; constructor|].
  destruct (Z.eqb_spec concurrency 0); [lia|].
  set (f := fun (i : nat) (url_i : string) =>
         fst (_check_one hdr (envs i) url_i (make_headers hdr ua)
                (find_label (UA_PRESETS hdr) ua "Custom") head_then_get retries
                safari_retry world0)).
  destruct (gather_all_ok
              (fun url_i r => input_url r = url_i /\ final_status_known r)
              (x :: urls) f) as (rs & Hg & Hall).
  { intros i y. unfold f.
    destruct (check_one_ok hdr (envs i) y (make_headers hdr ua)
                (find_label (UA_PRESETS hdr) ua "Custom") head_then_get retries
                safari_retry world0) as (r & w' & Hr).
    exists r. rewrite Hr. split; [reflexivity|].
    eapply check_one_final_status; [apply Henv | exact Hr]. }
  rewrite Hg. eexists. split; [reflexivity|]. split.
  - clear Hg. induction Hall as [|y r ys rs' [Hy _] _ IH]; [reflexivity|].
    simpl. now rewrite Hy, IH.
  - apply Forall_map. clear Hg.
    induction Hall as [|y r ys rs' [_ Hy] _ IH]; constructor; [exact Hy | exact IH].
Qed.


(** ** The checker on concrete runs *)

Lemma http_statuses_redirects : http_statuses env_redirects.
Proof. intros hist rq rp dt H. inversion H. simpl. lia. Qed.

Lemma run_checks_one_result_per_url_witness :
  exists results,
    run_checks demo_headers (fun q => q) (fun _ => env_redirects)
      ["http://example.org/a"; "http://example.org/b"] 10 15 true true 1 ""
      true = Returns results
    /\ map input_url results = ["http://example.org/a"; "http://example.org/b"]
    /\ Forall final_status_known results.
Proof.
  apply run_checks_one_result_per_url.
  - lia.
  - intros _. eexists. reflexivity.
  - intros i. apply http_statuses_redirects.
Defined.



Lemma alternate_identity_fields_witness :
  exists r w' resp w1 alt_resp w2,
    demo_check env_safari_only false 1 = (Ok r, w')
    /\ primary_response env_safari_only "http://example.org/"
         [("User-Agent", "Chrome")] false 1 world0 = Some (resp, w1)
    /\ status_code resp = 404
    /\ _do_request env_safari_only "http://example.org/"
         (make_headers demo_headers (SAFARI_UA demo_headers)) false w1
       = (Ok alt_resp, w2)
    /\ status_code alt_resp < 400
    /\ final_status_code r = str_Z (status_code alt_resp)
    /\ user_agent_used r = "Safari macOS (retry)"
    /\ alt_user_agent_used r = "Safari macOS".
Proof.
  destruct (demo_check env_safari_only false 1) as [[r|e] w'] eqn:Hrun;
    [|vm_compute in Hrun; discriminate Hrun].
  destruct (primary_response env_safari_only "http://example.org/"
              [("User-Agent", "Chrome")] false 1 world0) as [[resp w1]|] eqn:Hp;
    [|vm_compute in Hp; discriminate Hp].
  assert (Hst : status_code resp = 404)
    by (vm_compute in Hp; injection Hp as <- <-; reflexivity).
  destruct (_do_request env_safari_only "http://example.org/"
              (make_headers demo_headers (SAFARI_UA demo_headers)) false w1)
    as [[alt_resp|e] w2] eqn:Halt;
    [|vm_compute in Hp; injection Hp as <- <-; vm_compute in Halt;
      discriminate Halt].
  assert (Hlt : status_code alt_resp < 400)
    by (vm_compute in Hp; injection Hp as <- <-; vm_compute in Halt;
        injection Halt as <- <-; reflexivity).
  destruct (alternate_identity_fields demo_headers env_safari_only
              "http://example.org/" [("User-Agent", "Chrome")]
              "Chrome macOS (default)" false 1 true r world0 w' Hrun)
    as [_ Hpromoted].
  destruct (Hpromoted resp w1 alt_resp w2 Hp eq_refl (or_intror Hst) Halt Hlt)
    as (_ & Hfinal & _ & _ & _ & _ & Hua & _ & Halt_ua).
  exists r, w', resp, w1, alt_resp, w2. repeat split; assumption.
Defined.

Lemma always_times_out_demo : always_times_out env_timeout.
Proof.
  intros hist rq. exists (mkException "ReadTimeout" ""), 15%Q.
  split; [reflexivity|]. split; reflexivity.
Qed.

Lemma timeouts_use_every_attempt_witness :
  exists r w',
    demo_check env_timeout true 1 = (Ok r, w')
    /\ final_status_code r = "TIMEOUT"
    /\ error r = "TIMEOUT"
    /\ Z.of_nat (length (check_trace env_timeout "http://example.org/"
                           [("User-Agent", "Chrome")] true 1 world0)) = 2
    /\ Forall (fun a => exists e, at_outcome a = Raised e)
         (check_trace env_timeout "http://example.org/"
            [("User-Agent", "Chrome")] true 1 world0)
    /\ Z.of_nat (length (sent w')) = 2.
Proof.
  apply (timeouts_use_every_attempt demo_headers env_timeout
           "http://example.org/" [("User-Agent", "Chrome")]
           "Chrome macOS (default)" true 1 true world0).
  - lia.
  - apply always_times_out_demo.
Defined.



(** C9 fails as stated: the values of the Safari probe, which took five
    seconds, are promoted, and the response time of the result is the one
    second of the primary request. *)
Lemma response_time_after_promotion :
  exists r w' w1 alt_resp w2,
    demo_check env_safari_only false 1 = (Ok r, w')
    /\ alternate_response demo_headers env_safari_only "http://example.org/"
         [("User-Agent", "Chrome")] false 1 true world0
       = Some (w1, alt_resp, w2)
    /\ final_status_code r = str_Z (status_code alt_resp)
    /\ user_agent_used r = "Safari macOS (retry)"
    /\ (response_time_ms r == 1000)%Q
    /\ ((now w2 - now w1) * 1000 == 5000)%Q
    /\ ~ (response_time_ms r == (now w2 - now w1) * 1000)%Q.
Proof.
  eexists _, _, _, _, _. split; [vm_compute; reflexivity|].
  split; [vm_compute; reflexivity|].
  repeat split; try reflexivity. intros H. vm_compute in H. discriminate H.
Qed.

Lemma response_time_is_primary_elapsed_witness :
  exists r w',
    demo_check env_safari_only false 1 = (Ok r, w')
    /\ match last (check_trace env_safari_only "http://example.org/"
                     [("User-Agent", "Chrome")] false 1 world0) with
       | Some a =>
           _do_request env_safari_only "http://example.org/"
             [("User-Agent", "Chrome")] false (at_start a)
           = (at_outcome a, at_end a)
           /\ response_time_ms r
              = ((now (at_end a) - now (at_start a)) * 1000)%Q
       | None => 1 < 0 /\ response_time_ms r = 0%Q
       end.
Proof.
  eexists _, _. split; [vm_compute; reflexivity|].
  eapply (response_time_is_primary_elapsed demo_headers env_safari_only "http://example.org/"
           [("User-Agent", "Chrome")] "Chrome macOS (default)" false 1 true _
           world0 _).
  vm_compute. reflexivity.
Defined.

(** ** Lists without repetition *)

Lemma filter_all (P : string -> Prop) `{!forall x, Decision (P x)}
    (l : list string) :
  (forall x, x ∈ l -> P x) -> filter P l = l.
Proof.
  induction l as [|z l IH]; intros Hall; [reflexivity|].
  rewrite filter_cons_True by (apply Hall; now left).
  rewrite IH; [reflexivity|]. intros x Hx. apply Hall. now right.
Qed.

Lemma filter_swap (P Q : string -> Prop) `{!forall x, Decision (P x)}
    `{!forall x, Decision (Q x)} (l : list string) :
  filter P (filter Q l) = filter Q (filter P l).
Proof.
  rewrite !list_filter_filter. apply list_filter_iff. intros x. simpl. tauto.
Qed.

Lemma elem_of_first_seen (l : list string) (x : string) :
  x ∈ first_seen l <-> x ∈ l.
Proof.
  induction l as [|y l IH]; simpl; [reflexivity|].
  rewrite !elem_of_cons, list_elem_of_filter, IH.
  destruct (decide (x = y)) as [->|Hne]; tauto.
Qed.

Lemma NoDup_first_seen (l : list string) : NoDup (first_seen l).
Proof.
  induction l as [|y l IH]; simpl; constructor.
  - rewrite list_elem_of_filter. intros [Hne _]. now apply Hne.
  - now apply NoDup_filter.
Qed.

Lemma first_seen_filter (P : string -> Prop) `{!forall x, Decision (P x)}
    (l : list string) :
  first_seen (filter P l) = filter P (first_seen l).
Proof.
  induction l as [|y l IH]; simpl; [reflexivity|].
  rewrite filter_cons. destruct (decide (P y)) as [Hy|Hy].
  - simpl. rewrite filter_cons_True by assumption. f_equal.
    rewrite IH. apply filter_swap.
  - rewrite filter_cons_False by assumption. rewrite IH.
    rewrite (filter_swap P). symmetry. f_equal. apply filter_all.
    intros x Hx Heq. subst x. apply list_elem_of_filter in Hx as [Hx _].
    now apply Hy.
Qed.

Lemma first_seen_app (a b : list string) :
  first_seen (a ++ b) = first_seen a ++ filter (fun y => y ∉ a) (first_seen b).
Proof.
  induction a as [|x a IH]; simpl.
  - symmetry. apply filter_all. intros y _. apply not_elem_of_nil.
  - f_equal. rewrite IH, filter_app. f_equal.
    rewrite list_filter_filter. apply list_filter_iff.
    intros y. simpl. rewrite not_elem_of_cons. tauto.
Qed.

Lemma first_seen_NoDup (l : list string) : NoDup l -> first_seen l = l.
Proof.
  induction 1 as [|x l Hx Hl IH]; simpl; [reflexivity|].
  f_equal. rewrite IH. apply filter_all. intros y Hy ->. now apply Hx.
Qed.

Lemma first_seen_idem (l : list string) :
  first_seen (first_seen l) = first_seen l.
Proof. apply first_seen_NoDup, NoDup_first_seen. Qed.

Lemma first_seen_app_r (a b : list string) :
  first_seen (a ++ first_seen b) = first_seen (a ++ b).
Proof. now rewrite !first_seen_app, first_seen_idem. Qed.

Lemma note_url_acc (raw : list string) (x : string) :
  note_url (acc_of raw) x = acc_of (raw ++ [x]).
Proof.
  unfold note_url, acc_of. rewrite first_seen_app. simpl.
  rewrite filter_nil, filter_cons, filter_nil.
  destruct (decide (x ∉ raw)) as [Hx|Hx].
  - rewrite bool_decide_eq_false_2
      by (rewrite elem_of_list_to_set, elem_of_first_seen; exact Hx).
    f_equal. rewrite list_to_set_snoc_L. apply set_eq. intros y.
    rewrite !elem_of_union, elem_of_singleton. tauto.
  - rewrite bool_decide_eq_true_2.
    + now rewrite app_nil_r.
    + rewrite elem_of_list_to_set, elem_of_first_seen.
      destruct (decide (x ∈ raw)); tauto.
Qed.

Lemma foldl_note_url (raw l : list string) :
  foldl note_url (acc_of raw) l = acc_of (raw ++ l).
Proof.
  revert raw. induction l as [|x l IH]; intros raw.
  - simpl. now rewrite app_nil_r.
  - change (foldl note_url (acc_of raw) (x :: l))
      with (foldl note_url (note_url (acc_of raw) x) l).
    rewrite note_url_acc, IH. now rewrite <- app_assoc.
Qed.

(** Merging the list a child returned, itself without repetition. *)
Lemma merge_child (raw child : list string) :
  foldl note_url (acc_of raw) (first_seen child) = acc_of (raw ++ child).
Proof.
  rewrite foldl_note_url. unfold acc_of. now rewrite first_seen_app_r.
Qed.

(** ** The resolver and the traversal *)

Lemma mapR_bindR_retR {A B C} (f : B -> C) (g : A -> B) (c : R A)
    (s : Run_state) :
  mapR f (bindR c (fun a => retR (g a))) s = mapR (fun a => f (g a)) c s.
Proof.
  unfold mapR, bindR, retR. destruct (c s) as [[[a|e] s']|]; reflexivity.
Qed.

Lemma bindR_retR_l {A B} (a : A) (k : A -> R B) : bindR (retR a) k = k a.
Proof. reflexivity. Qed.

Lemma bindR_assoc {A B C} (c : R A) (k : A -> R B) (h : B -> R C)
    (s : Run_state) :
  bindR (bindR c k) h s = bindR c (fun a => bindR (k a) h) s.
Proof. unfold bindR. destruct (c s) as [[[a|e] s']|]; reflexivity. Qed.

Lemma mapR_bindR {A B C} (f : B -> C) (c : R A) (k : A -> R B)
    (s : Run_state) :
  mapR f (bindR c k) s = bindR c (fun a => mapR f (k a)) s.
Proof. unfold mapR, bindR. destruct (c s) as [[[a|e] s']|]; reflexivity. Qed.

Lemma bindR_visited_contains {B} (x : string) (k : bool -> R B)
    (s : Run_state) :
  bindR (visited_contains x) k s = k (bool_decide (x ∈ visited s)) s.
Proof. reflexivity. Qed.

Lemma bindR_mapR {A B C} (f : B -> C) (c : R A) (k1 : A -> R C)
    (k2 : A -> R B) (s : Run_state) :
  (forall a s', k1 a s' = mapR f (k2 a) s') ->
  bindR c k1 s = mapR f (bindR c k2) s.
Proof.
  intros H. rewrite mapR_bindR. unfold bindR.
  destruct (c s) as [[[a|e] s']|]; [apply H | reflexivity..].
Qed.

Lemma mapR_ext {A B} (f g : A -> B) (c : R A) (s : Run_state) :
  (forall a, f a = g a) -> mapR f c s = mapR g c s.
Proof.
  intros H. unfold mapR. destruct (c s) as [[[a|e] s']|]; [|reflexivity..].
  now rewrite H.
Qed.

Lemma loc_texts_cons (e : Element) (els : list Element) :
  loc_texts (e :: els) = loc_texts [e] ++ loc_texts els.
Proof.
  unfold loc_texts. simpl.
  destruct (String.eqb (_strip_ns (el_tag e)) "loc");
    [destruct (truthy_text e)|]; reflexivity.
Qed.

Lemma urlset_inner_acc (raw : list string) (els : list Element) :
  urlset_inner (acc_of raw) els = acc_of (raw ++ loc_texts els).
Proof.
  unfold urlset_inner. revert raw.
  induction els as [|e els IH]; intros raw.
  - simpl. now rewrite app_nil_r.
  - rewrite loc_texts_cons, app_assoc, <- IH. simpl foldl. f_equal.
    unfold loc_texts. simpl.
    destruct (String.eqb (_strip_ns (el_tag e)) "loc"); simpl.
    + destruct (truthy_text e) as [t|]; simpl.
      * apply note_url_acc.
      * now rewrite app_nil_r.
    + now rewrite app_nil_r.
Qed.

Lemma urlset_outer_acc (raw : list string) (els : list Element) :
  foldl (fun acc url_el =>
           if String.eqb (_strip_ns (el_tag url_el)) "url"
           then urlset_inner acc (el_children url_el)
           else acc) (acc_of raw) els
  = acc_of (raw ++ concat (map (fun url_el =>
                                  if String.eqb (_strip_ns (el_tag url_el)) "url"
                                  then loc_texts (el_children url_el)
                                  else []) els)).
Proof.
  revert raw. induction els as [|e els IH]; intros raw.
  - simpl. now rewrite app_nil_r.
  - simpl foldl. simpl map. simpl concat. rewrite app_assoc, <- IH. do 2 f_equal.
    destruct (String.eqb (_strip_ns (el_tag e)) "url").
    + apply urlset_inner_acc.
    + now rewrite app_nil_r.
Qed.

Lemma urlset_outer_first_seen (root : Element) :
  urlset_outer root = first_seen (urlset_locs root).
Proof.
  unfold urlset_outer, urlset_locs.
  change ([], ∅) with (acc_of []). now rewrite urlset_outer_acc.
Qed.

Section Refinement.

Context (selfP selfT : Source -> string -> Z -> R (list string)).
Context (Hself : forall src ua d s,
           selfP src ua d s = mapR first_seen (selfT src ua d) s).
Context (_depth : Z).

Lemma index_inner_walk (user_agent : string) (els : list Element)
    (raw : list string) (s : Run_state) :
  index_inner selfP _depth user_agent (acc_of raw) els s
  = mapR (fun found => acc_of (raw ++ found))
      (walk_locs selfT _depth user_agent els) s.
Proof.
  revert raw s. induction els as [|e els IH]; intros raw s.
  - simpl. unfold mapR, retR. now rewrite app_nil_r.
  - cbn [index_inner walk_locs]. unfold loc_texts. simpl omap.
    destruct (String.eqb (_strip_ns (el_tag e)) "loc");
      [destruct (truthy_text e) as [t|]|]; simpl.
    2,3: rewrite !bindR_retR_l, IH, mapR_bindR_retR; reflexivity.
    rewrite bindR_assoc, bindR_visited_contains.
    rewrite mapR_bindR, bindR_assoc, bindR_visited_contains.
    destruct ((_depth + 1 <=? _MAX_DEPTH)
              && negb (bool_decide (Py.strip t ∈ visited s))).
    + rewrite bindR_assoc. unfold bindR at 1 3. rewrite Hself.
      unfold mapR at 1.
      destruct (selfT (Url (Py.strip t)) user_agent (_depth + 1) s)
        as [[[found|exc] s1]|]; [|reflexivity..].
      rewrite bindR_retR_l, merge_child, IH, mapR_bindR_retR.
      apply mapR_ext. intros a. now rewrite app_assoc.
    + rewrite !bindR_retR_l, IH, mapR_bindR_retR. reflexivity.
Qed.

Lemma index_outer_walk (user_agent : string) (els : list Element)
    (raw : list string) (s : Run_state) :
  index_outer selfP _depth user_agent (acc_of raw) els s
  = mapR (fun found => acc_of (raw ++ found))
      (walk_sitemaps selfT _depth user_agent els) s.
Proof.
  revert raw s. induction els as [|e els IH]; intros raw s.
  - simpl. unfold mapR, retR. now rewrite app_nil_r.
  - cbn [index_outer walk_sitemaps].
    destruct (String.eqb (_strip_ns (el_tag e)) "sitemap").
    + rewrite mapR_bindR. unfold bindR at 1 2. rewrite index_inner_walk.
      unfold mapR at 1.
      destruct (walk_locs selfT _depth user_agent (el_children e) s)
        as [[[found|exc] s1]|]; [|reflexivity..].
      rewrite IH, mapR_bindR_retR. apply mapR_ext. intros a.
      now rewrite app_assoc.
    + rewrite !bindR_retR_l, IH, mapR_bindR_retR. reflexivity.
Qed.

Lemma parse_sitemap_body_traversal (web : Web) (hdr : HeadersModule)
    (source : Source) (user_agent : string) (s : Run_state) :
  parse_sitemap_body web hdr selfP _depth source user_agent s
  = mapR first_seen (traversal_body web hdr selfT _depth source user_agent) s.
Proof.
  unfold parse_sitemap_body, traversal_body.
  apply bindR_mapR. intros _ s0.
  apply bindR_mapR. intros ua s1.
  apply bindR_mapR. intros [raw|] s2; [|reflexivity].
  apply bindR_mapR. intros raw' s3.
  destruct (_parse_xml web raw') as [exc|[root|]]; [reflexivity| |reflexivity].
  destruct (String.eqb (_strip_ns (el_tag root)) "sitemapindex").
  - change ([], ∅) with (acc_of []).
    unfold bindR. rewrite index_outer_walk. unfold mapR.
    destruct (walk_sitemaps selfT _depth ua (el_children root) s3)
      as [[[found|exc] s4]|]; reflexivity.
  - destruct (String.eqb (_strip_ns (el_tag root)) "urlset"); [|reflexivity].
    unfold mapR, retR. now rewrite urlset_outer_first_seen.
Qed.

End Refinement.

Lemma parse_sitemap_fuel_traversal (fuel : nat) (web : Web)
    (hdr : HeadersModule) (source : Source) (user_agent : string)
    (_depth : Z) (s : Run_state) :
  parse_sitemap_fuel fuel web hdr source user_agent _depth s
  = mapR first_seen (traversal_fuel fuel web hdr source user_agent _depth) s.
Proof.
  revert source user_agent _depth s.
  induction fuel as [|fuel IH]; intros source user_agent _depth s;
    [reflexivity|].
  simpl. apply parse_sitemap_body_traversal. intros src ua d s'. apply IH.
Qed.

(** ** Termination, depth and fetches of the resolver *)

Lemma Grows_refl (lo : Z) (s : Run_state) : Grows lo s s.
Proof.
  split; [reflexivity|]. split.
  - exists []. rewrite app_nil_r. split; [reflexivity|]. split; [constructor|].
    intros x Hx. inversion Hx.
  - exists []. rewrite app_nil_r. split; [reflexivity | constructor].
Qed.

Lemma Grows_trans (lo : Z) (s1 s2 s3 : Run_state) :
  Grows lo s1 s2 -> Grows lo s2 s3 -> Grows lo s1 s3.
Proof.
  intros (Hv1 & (n1 & Hf1 & Hd1 & Hn1) & (c1 & Hc1 & Ha1))
         (Hv2 & (n2 & Hf2 & Hd2 & Hn2) & (c2 & Hc2 & Ha2)).
  split; [etransitivity; eassumption|]. split.
  - exists (n1 ++ n2). split; [now rewrite Hf2, Hf1, app_assoc|]. split.
    + apply NoDup_app. split; [exact Hd1|]. split; [|exact Hd2].
      intros x Hx1 Hx2. apply Hn2 in Hx2 as [Hx2 _]. apply Hn1 in Hx1 as [_ Hx1].
      now apply Hx2.
    + intros x Hx. apply elem_of_app in Hx as [Hx|Hx].
      * apply Hn1 in Hx as [Hx Hx']. split; [exact Hx | now apply Hv2].
      * apply Hn2 in Hx as [Hx Hx']. split; [|exact Hx'].
        intros Hin. now apply Hx, Hv1.
  - exists (c1 ++ c2). split; [now rewrite Hc2, Hc1, app_assoc|].
    apply Forall_app. split; assumption.
Qed.

Lemma Called_Grows (d : Z) (s s' : Run_state) :
  d + 1 <= _MAX_DEPTH -> Called (d + 1) s s' -> Grows d s s'.
Proof.
  intros Hd (Hv & Hf & (cs & Hc & Hall)). simpl in *.
  split; [exact Hv|]. split; [exact Hf|].
  exists ((d + 1) :: cs). split; [now rewrite Hc, <- app_assoc|].
  constructor; [lia|]. eapply Forall_impl; [exact Hall|].
  intros x Hx. simpl in Hx. lia.
Qed.

Section Invariant.

Context (web : Web) (hdr : HeadersModule).
Context (self : Source -> string -> Z -> R (list string)).
Context (_depth : Z).
Context (Hself : _depth + 1 <= _MAX_DEPTH ->
           forall src ua s,
             exists o s', self src ua (_depth + 1) s = Some (o, s')
                          /\ Called (_depth + 1) s s').

Lemma index_inner_grows (user_agent : string) (els : list Element)
    (acc : list string * gset string) (s : Run_state) :
  exists o s',
    index_inner self _depth user_agent acc els s = Some (o, s')
    /\ Grows _depth s s'.
Proof.
  revert acc s. induction els as [|e els IH]; intros acc s.
  - eexists _, _. split; [reflexivity | apply Grows_refl].
  - cbn [index_inner].
    assert (Hstep : exists o s1,
      (if String.eqb (_strip_ns (el_tag e)) "loc" then
         match truthy_text e with
         | Some t =>
             bindR (visited_contains (Py.strip t)) (fun seen =>
               if (_depth + 1 <=? _MAX_DEPTH) && negb seen then
                 bindR (self (Url (Py.strip t)) user_agent (_depth + 1))
                   (fun child_urls => retR (foldl note_url acc child_urls))
               else retR acc)
         | None => retR acc
         end
       else retR acc) s = Some (o, s1) /\ Grows _depth s s1).
    { destruct (String.eqb (_strip_ns (el_tag e)) "loc");
        [destruct (truthy_text e) as [t|]|];
        try (eexists _, _; split; [reflexivity | apply Grows_refl]).
      rewrite bindR_visited_contains.
      destruct (Z.leb_spec (_depth + 1) _MAX_DEPTH) as [Hd|Hd]; simpl;
        [destruct (negb _)|];
        try (eexists _, _; split; [reflexivity | apply Grows_refl]).
      destruct (Hself Hd (Url (Py.strip t)) user_agent s) as (o & s1 & Hc & Hg).
      unfold bindR. rewrite Hc.
      destruct o as [l|exc]; eexists _, _;
        (split; [reflexivity | now apply Called_Grows]). }
    destruct Hstep as (o & s1 & Hstep & Hg1).
    unfold bindR at 1. rewrite Hstep. destruct o as [acc'|exc].
    + destruct (IH acc' s1) as (o2 & s2 & Hrest & Hg2).
      exists o2, s2. split; [exact Hrest | eapply Grows_trans; eassumption].
    + eexists _, _. split; [reflexivity | exact Hg1].
Qed.

Lemma index_outer_grows (user_agent : string) (els : list Element)
    (acc : list string * gset string) (s : Run_state) :
  exists o s',
    index_outer self _depth user_agent acc els s = Some (o, s')
    /\ Grows _depth s s'.
Proof.
  revert acc s. induction els as [|e els IH]; intros acc s.
  - eexists _, _. split; [reflexivity | apply Grows_refl].
  - cbn [index_outer].
    assert (Hstep : exists o s1,
      (if String.eqb (_strip_ns (el_tag e)) "sitemap"
       then index_inner self _depth user_agent acc (el_children e)
       else retR acc) s = Some (o, s1) /\ Grows _depth s s1).
    { destruct (String.eqb (_strip_ns (el_tag e)) "sitemap").
      - apply index_inner_grows.
      - eexists _, _. split; [reflexivity | apply Grows_refl]. }
    destruct Hstep as (o & s1 & Hstep & Hg1).
    unfold bindR at 1. rewrite Hstep. destruct o as [acc'|exc].
    + destruct (IH acc' s1) as (o2 & s2 & Hrest & Hg2).
      exists o2, s2. split; [exact Hrest | eapply Grows_trans; eassumption].
    + eexists _, _. split; [reflexivity | exact Hg1].
Qed.

Lemma Grows_messages (lo : Z) (s : Run_state) (msg : string) :
  Grows lo s (mkRun_state (visited s) (messages s ++ [msg]) (fetched s)
                (calls s)).
Proof.
  split; [reflexivity|]. split.
  - exists []. simpl. rewrite app_nil_r. split; [reflexivity|].
    split; [constructor|]. intros x Hx. inversion Hx.
  - exists []. simpl. rewrite app_nil_r. split; [reflexivity | constructor].
Qed.

Lemma obtain_raw_grows (fetch_headers : Headers) (source : Source)
    (s : Run_state) :
  exists o s',
    obtain_raw web fetch_headers source s = Some (Ok o, s')
    /\ Grows _depth s s'.
Proof.
  destruct source as [raw|u]; simpl.
  - eexists _, _. split; [reflexivity | apply Grows_refl].
  - rewrite bindR_visited_contains.
    destruct (bool_decide (Py.strip u ∈ visited s)) eqn:Hseen.
    + eexists _, _. split; [reflexivity | apply Grows_refl].
    + apply bool_decide_eq_false in Hseen.
      assert (Hg : forall msgs,
        Grows _depth s
          (mkRun_state ({[Py.strip u]} ∪ visited s) msgs
             (fetched s ++ [Py.strip u]) (calls s))).
      { intros msgs. split; [simpl; apply union_subseteq_r|]. split.
        - exists [Py.strip u]. simpl. split; [reflexivity|].
          split; [apply NoDup_singleton|].
          intros x Hx. apply list_elem_of_singleton in Hx as ->.
          split; [exact Hseen|]. apply elem_of_union_l, elem_of_singleton.
          reflexivity.
        - exists []. simpl. rewrite app_nil_r. split; [reflexivity | constructor]. }
      unfold bindR, visited_add, progress_callback, fetch, retR. simpl.
      destruct (http_get web (fetched s) (Py.strip u) fetch_headers) as [exc|raw];
        eexists _, _; (split; [reflexivity | apply Hg]).
Qed.

Lemma parse_sitemap_body_called (source : Source) (user_agent : string)
    (s : Run_state) :
  exists o s',
    parse_sitemap_body web hdr self _depth source user_agent s = Some (o, s')
    /\ Called _depth s s'.
Proof.
  unfold parse_sitemap_body, Called.
  unfold bindR at 1. unfold enter_call at 1.
  set (s0 := mkRun_state (visited s) (messages s) (fetched s)
               (calls s ++ [_depth])).
  unfold bindR at 1.
  destruct (String.eqb user_agent "");
    [destruct (dict_get (UA_PRESETS hdr) "Chrome macOS (default)") as [ua|]|].
  2: { eexists _, _. split; [reflexivity | apply Grows_refl]. }
  all: unfold retR at 1.
  all: match goal with |- context [obtain_raw web ?h ?src] =>
         destruct (obtain_raw_grows h src s0) as (got & s1 & Hraw & Hg1) end.
  all: unfold bindR at 1; rewrite Hraw.
  all: destruct got as [raw|];
         [|eexists _, _; split; [reflexivity | exact Hg1]].
  all: unfold bindR at 1.
  all: destruct (_decompress_if_gz web raw) as [exc|raw'];
         [eexists _, _; split; [reflexivity | exact Hg1]|].
  all: unfold liftR, retR at 1.
  all: destruct (_parse_xml web raw') as [exc|[root|]];
         try (eexists _, _; split; [reflexivity|];
              eapply Grows_trans; [exact Hg1 | apply Grows_messages]).
  all: destruct (String.eqb (_strip_ns (el_tag root)) "sitemapindex");
         [|destruct (String.eqb (_strip_ns (el_tag root)) "urlset")];
         try (eexists _, _; split; [reflexivity|]; first
                [exact Hg1
                |eapply Grows_trans; [exact Hg1 | apply Grows_messages]]).
  all: match goal with |- context [index_outer self _depth ?ua ?acc ?els] =>
         destruct (index_outer_grows ua els acc s1) as (o & s2 & Hix & Hg2) end.
  all: unfold bindR; rewrite Hix; destruct o as [acc|exc];
         eexists _, _; (split; [reflexivity|]);
         eapply Grows_trans; eassumption.
Qed.

End Invariant.

Lemma enough_fuel_succ (d : Z) :
  d + 1 <= _MAX_DEPTH -> enough_fuel d = S (enough_fuel (d + 1)).
Proof. unfold enough_fuel, _MAX_DEPTH. intros H. lia. Qed.

Lemma parse_sitemap_fuel_called (fuel : nat) (web : Web) (hdr : HeadersModule)
    (source : Source) (user_agent : string) (_depth : Z) (s : Run_state) :
  (enough_fuel _depth <= fuel)%nat ->
  exists o s',
    parse_sitemap_fuel fuel web hdr source user_agent _depth s = Some (o, s')
    /\ Called _depth s s'.
Proof.
  revert source user_agent _depth s.
  induction fuel as [|fuel IH]; intros source user_agent _depth s Hfuel.
  - unfold enough_fuel in Hfuel. lia.
  - simpl. apply parse_sitemap_body_called.
    intros Hd src ua s0. apply IH.
    rewrite (enough_fuel_succ _depth Hd) in Hfuel. lia.
Qed.

Lemma bindR_ext {A B} (c1 c2 : R A) (k1 k2 : A -> R B) (s : Run_state) :
  c1 s = c2 s -> (forall a s', k1 a s' = k2 a s') ->
  bindR c1 k1 s = bindR c2 k2 s.
Proof.
  intros Hc Hk. unfold bindR. rewrite Hc.
  destruct (c2 s) as [[[a|e] s']|]; [apply Hk | reflexivity..].
Qed.

Section Fuel.

Context (self1 self2 : Source -> string -> Z -> R (list string)).
Context (_depth : Z).
Context (Hagree : _depth + 1 <= _MAX_DEPTH ->
           forall src ua s,
             self1 src ua (_depth + 1) s = self2 src ua (_depth + 1) s).

Lemma index_inner_agree (user_agent : string) (els : list Element)
    (acc : list string * gset string) (s : Run_state) :
  index_inner self1 _depth user_agent acc els s
  = index_inner self2 _depth user_agent acc els s.
Proof.
  revert acc s. induction els as [|e els IH]; intros acc s; [reflexivity|].
  cbn [index_inner]. apply bindR_ext; [|intros a s'; apply IH].
  destruct (String.eqb (_strip_ns (el_tag e)) "loc"); [|reflexivity].
  destruct (truthy_text e) as [t|]; [|reflexivity].
  rewrite !bindR_visited_contains.
  destruct (Z.leb_spec (_depth + 1) _MAX_DEPTH) as [Hd|Hd]; [|reflexivity].
  simpl. destruct (negb _); [|reflexivity].
  apply bindR_ext; [now apply Hagree | reflexivity].
Qed.

Lemma index_outer_agree (user_agent : string) (els : list Element)
    (acc : list string * gset string) (s : Run_state) :
  index_outer self1 _depth user_agent acc els s
  = index_outer self2 _depth user_agent acc els s.
Proof.
  revert acc s. induction els as [|e els IH]; intros acc s; [reflexivity|].
  cbn [index_outer]. apply bindR_ext; [|intros a s'; apply IH].
  destruct (String.eqb (_strip_ns (el_tag e)) "sitemap"); [|reflexivity].
  apply index_inner_agree.
Qed.

Lemma parse_sitemap_body_agree (web : Web) (hdr : HeadersModule)
    (source : Source) (user_agent : string) (s : Run_state) :
  parse_sitemap_body web hdr self1 _depth source user_agent s
  = parse_sitemap_body web hdr self2 _depth source user_agent s.
Proof.
  unfold parse_sitemap_body.
  apply bindR_ext; [reflexivity|]. intros _ s0.
  apply bindR_ext; [reflexivity|]. intros ua s1.
  apply bindR_ext; [reflexivity|]. intros [raw|] s2; [|reflexivity].
  apply bindR_ext; [reflexivity|]. intros raw' s3.
  destruct (_parse_xml web raw') as [exc|[root|]]; try reflexivity.
  destruct (String.eqb (_strip_ns (el_tag root)) "sitemapindex"); [|reflexivity].
  apply bindR_ext; [apply index_outer_agree | reflexivity].
Qed.

End Fuel.

(** More fuel than enough changes nothing. *)
Lemma parse_sitemap_fuel_irrelevant (fuel1 fuel2 : nat) (web : Web)
    (hdr : HeadersModule) (source : Source) (user_agent : string)
    (_depth : Z) (s : Run_state) :
  (enough_fuel _depth <= fuel1)%nat -> (enough_fuel _depth <= fuel2)%nat ->
  parse_sitemap_fuel fuel1 web hdr source user_agent _depth s
  = parse_sitemap_fuel fuel2 web hdr source user_agent _depth s.
Proof.
  revert fuel2 source user_agent _depth s.
  induction fuel1 as [|fuel1 IH]; intros fuel2 source user_agent _depth s H1 H2.
  - unfold enough_fuel in H1. lia.
  - destruct fuel2 as [|fuel2]; [unfold enough_fuel in H2; lia|].
    simpl. apply parse_sitemap_body_agree.
    intros Hd src ua s0. rewrite (enough_fuel_succ _depth Hd) in H1, H2.
    apply IH; lia.
Qed.

(** C7.  Whatever the web answers (an index that lists itself, or indexes
    that list each other, included), a call of [parse_sitemap] comes to an
    end, with fuel for [_MAX_DEPTH] levels below depth 0 and with any
    larger amount alike; the calls it makes in turn are all deeper than
    itself and at depth 3 at most; and the URLs it fetches are distinct
    and were not in the visited set before. *)
Theorem parse_sitemap_terminates (web : Web) (hdr : HeadersModule)
    (source : Source) (user_agent : string) (_depth : Z) (s : Run_state) :
  exists o s',
    parse_sitemap web hdr source user_agent _depth s = Some (o, s')
    /\ (forall fuel, (enough_fuel _depth <= fuel)%nat ->
          parse_sitemap_fuel fuel web hdr source user_agent _depth s
          = Some (o, s'))
    /\ (exists deeper,
          calls s' = calls s ++ _depth :: deeper
          /\ Forall (fun d => _depth < d <= _MAX_DEPTH) deeper)
    /\ (exists new,
          fetched s' = fetched s ++ new /\ NoDup new
          /\ (forall x, x ∈ new -> x ∉ visited s)).
Proof.
  destruct (parse_sitemap_fuel_called (enough_fuel _depth) web hdr source
              user_agent _depth s (le_n _)) as (o & s' & Hrun & Hc).
  exists o, s'. split; [exact Hrun|]. split.
  - intros fuel Hfuel. rewrite <- Hrun. unfold parse_sitemap.
    apply parse_sitemap_fuel_irrelevant; [exact Hfuel | apply le_n].
  - destruct Hc as (_ & (new & Hf & Hd & Hn) & (cs & Hcs & Hall)).
    simpl in *. split.
    + exists cs. split; [now rewrite Hcs, <- app_assoc | exact Hall].
    + exists new. split; [exact Hf|]. split; [exact Hd|].
      intros x Hx. now apply Hn in Hx as [Hx _].
Qed.

Lemma resolve_user_agent (hdr : HeadersModule) (user_agent : string) :
  (user_agent = "" ->
   is_Some (dict_get (UA_PRESETS hdr) "Chrome macOS (default)")) ->
  exists ua,
    (if String.eqb user_agent "" then
       match dict_get (UA_PRESETS hdr) "Chrome macOS (default)" with
       | Some ua => retR ua
       | None => raiseR (mkException "KeyError" "'Chrome macOS (default)'")
       end
     else retR user_agent) = retR ua.
Proof.
  intros H. destruct (String.eqb_spec user_agent "") as [He|_]; [|eauto].
  destruct (H He) as [ua ->]. eauto.
Qed.

(** C6.  The list [parse_sitemap] returns is the list of the [loc]
    entries met by the depth-first traversal in document order, each kept
    at its first occurrence, and the state is left as the traversal leaves
    it; the list has no repetition; and for a document whose root is a
    [urlset] it is the list of the document's [loc] entries, each kept at
    its first occurrence. *)
Theorem parse_sitemap_first_seen_order (web : Web) (hdr : HeadersModule)
    (source : Source) (user_agent : string) (_depth : Z) (s : Run_state) :
  parse_sitemap web hdr source user_agent _depth s
  = mapR first_seen (traversal web hdr source user_agent _depth) s
  /\ (forall l s',
        parse_sitemap web hdr source user_agent _depth s = Some (Ok l, s') ->
        NoDup l)
  /\ (forall data raw root,
        source = Bytes data ->
        (user_agent = "" ->
         is_Some (dict_get (UA_PRESETS hdr) "Chrome macOS (default)")) ->
        _decompress_if_gz web data = inr raw ->
        _parse_xml web raw = inr (Some root) ->
        _strip_ns (el_tag root) = "urlset" ->
        exists s',
          parse_sitemap web hdr source user_agent _depth s
          = Some (Ok (first_seen (urlset_locs root)), s')).
Proof.
  assert (Heq : parse_sitemap web hdr source user_agent _depth s
                = mapR first_seen (traversal web hdr source user_agent _depth) s)
    by apply parse_sitemap_fuel_traversal.
  split; [exact Heq|]. split.
  - intros l s' Hrun. rewrite Heq in Hrun. unfold mapR in Hrun.
    destruct (traversal web hdr source user_agent _depth s)
      as [[[found|exc] s1]|]; inversion Hrun; subst.
    apply NoDup_first_seen.
  - intros data raw root -> Hua Hgz Hxml Htag.
    unfold parse_sitemap, enough_fuel. cbn [parse_sitemap_fuel].
    unfold parse_sitemap_body.
    destruct (resolve_user_agent hdr user_agent Hua) as [ua ->].
    unfold bindR, enter_call, retR, obtain_raw, liftR. simpl.
    rewrite Hgz. simpl. rewrite Hxml, Htag. simpl.
    rewrite urlset_outer_first_seen. eauto.
Qed.

(** C10.  In a run whose visited set holds every URL fetched so far, a
    call of [parse_sitemap] keeps it so, and fetches no URL twice; from
    then on a reference to a URL of the visited set (one whose fetch
    failed included) is answered at once: nothing is fetched, the visited
    set stays as it is, and no URL is returned. *)
Theorem sitemap_fetched_at_most_once (web : Web) (hdr : HeadersModule)
    (source : Source) (user_agent : string) (_depth : Z) (s : Run_state) :
  NoDup (fetched s) ->
  (forall x, x ∈ fetched s -> x ∈ visited s) ->
  exists o s',
    parse_sitemap web hdr source user_agent _depth s = Some (o, s')
    /\ NoDup (fetched s')
    /\ (forall x, x ∈ fetched s' -> x ∈ visited s')
    /\ (forall x ua d,
          Py.strip x ∈ visited s' ->
          exists o',
            parse_sitemap web hdr (Url x) ua d s'
            = Some (o', mkRun_state (visited s') (messages s') (fetched s')
                          (calls s' ++ [d]))
            /\ (forall l, o' = Ok l -> l = [])).
Proof.
  intros Hnd Hinv.
  destruct (parse_sitemap_fuel_called (enough_fuel _depth) web hdr source
              user_agent _depth s (le_n _))
    as (o & s' & Hrun & (Hv & (new & Hf & Hd & Hn) & _)).
  simpl in *. exists o, s'. split; [exact Hrun|]. split; [|split].
  - rewrite Hf. apply NoDup_app. split; [exact Hnd|]. split; [|exact Hd].
    intros x Hx Hx'. apply Hn in Hx' as [Hx' _]. now apply Hx', Hinv.
  - intros x. rewrite Hf, elem_of_app. intros [Hx|Hx].
    + now apply Hv, Hinv.
    + now apply Hn in Hx as [_ Hx].
  - intros x ua d Hx.
    unfold parse_sitemap, enough_fuel. cbn [parse_sitemap_fuel].
    unfold parse_sitemap_body. unfold bindR at 1. unfold enter_call at 1.
    unfold bindR at 1.
    destruct (String.eqb ua "");
      [destruct (dict_get (UA_PRESETS hdr) "Chrome macOS (default)")|].
    2: { eexists. split; [reflexivity|]. intros l Hl. discriminate Hl. }
    all: unfold retR at 1; unfold bindR at 1; unfold obtain_raw;
         rewrite bindR_visited_contains; simpl visited;
         rewrite bool_decide_eq_true_2 by exact Hx;
         eexists; (split; [reflexivity|]);
         intros l Hl; now inversion Hl.
Qed.

(** ** The resolver on a concrete web *)

Lemma parse_sitemap_first_seen_order_witness :
  exists s',
    parse_sitemap demo_web demo_headers (Bytes [Byte.x04]) "" 0 fresh_run
    = Some (Ok ["/a"; "/b"; "/c"], s')
    /\ NoDup ["/a"; "/b"; "/c"].
Proof.
  destruct (parse_sitemap_first_seen_order demo_web demo_headers
              (Bytes [Byte.x04]) "" 0 fresh_run) as (_ & Hnodup & Hurlset).
  destruct (Hurlset [Byte.x04] [Byte.x04]
              (urlset_doc ["/a"; "/b"; "/a"; "/c"]) eq_refl
              (fun _ => ex_intro _ "Chrome" eq_refl) eq_refl eq_refl eq_refl)
    as [s' Hrun].
  change (first_seen (urlset_locs (urlset_doc ["/a"; "/b"; "/a"; "/c"])))
    with ["/a"; "/b"; "/c"] in Hrun.
  exists s'. split; [exact Hrun | exact (Hnodup _ _ Hrun)].
Defined.

Lemma sitemap_fetched_at_most_once_witness :
  exists o s',
    parse_sitemap demo_web demo_headers (Url "index.xml") "" 0 fresh_run
    = Some (o, s')
    /\ NoDup (fetched s')
    /\ (forall x, x ∈ fetched s' -> x ∈ visited s')
    /\ (forall x ua d,
          Py.strip x ∈ visited s' ->
          exists o',
            parse_sitemap demo_web demo_headers (Url x) ua d s'
            = Some (o', mkRun_state (visited s') (messages s') (fetched s')
                          (calls s' ++ [d]))
            /\ (forall l, o' = Ok l -> l = [])).
Proof.
  apply (sitemap_fetched_at_most_once demo_web demo_headers
           (Url "index.xml") "" 0 fresh_run).
  - constructor.
  - intros x Hx. inversion Hx.
Defined.

(** An index that lists two url sets, itself and, twice, a sitemap that
    cannot be fetched: four fetches, three URLs. *)
Example parse_sitemap_demo_web :
  exists s',
    parse_sitemap demo_web demo_headers (Url "index.xml") "" 0 fresh_run
    = Some (Ok ["/a"; "/b"; "/c"], s')
    /\ fetched s' = ["index.xml"; "one.xml"; "gone.xml"; "two.xml"]
    /\ calls s' = [0; 1; 1; 1].
Proof. eexists. split; [vm_compute; reflexivity|]. split; reflexivity. Qed.

Lemma parse_sitemap_terminates_witness :
  exists o s',
    parse_sitemap demo_web demo_headers (Url "index.xml") "" 0 fresh_run
    = Some (o, s')
    /\ (forall fuel, (enough_fuel 0 <= fuel)%nat ->
          parse_sitemap_fuel fuel demo_web demo_headers (Url "index.xml") "" 0
            fresh_run = Some (o, s'))
    /\ (exists deeper,
          calls s' = calls fresh_run ++ 0 :: deeper
          /\ Forall (fun d => 0 < d <= _MAX_DEPTH) deeper)
    /\ (exists new,
          fetched s' = fetched fresh_run ++ new /\ NoDup new
          /\ (forall x, x ∈ new -> x ∉ visited fresh_run)).
Proof.
  exact (parse_sitemap_terminates demo_web demo_headers (Url "index.xml") ""
           0 fresh_run).
Defined.

(** * Further properties *)

(** ** One probe *)

(** What one call of the client does to the world. *)
Lemma client_request_sent (env : Env) (m u : string) (hs : Headers)
    (w : World) :
  exists o w',
    client_request env m u hs w = (o, w')
    /\ sent w' = sent w ++ [mkRequest m u hs]
    /\ slept w' = slept w /\ draws w' = draws w
    /\ (forall resp, o = Ok resp ->
          request resp = mkRequest m u hs
          /\ exists rp dt,
               respond env (sent w) (mkRequest m u hs) = (inr rp, dt)
               /\ status_code resp = rp_status rp)
    /\ (forall e, o = Raised e ->
          exists dt, respond env (sent w) (mkRequest m u hs) = (inl e, dt)).
Proof.
  unfold client_request.
  destruct (respond env (sent w) (mkRequest m u hs)) as [[e|rp] dt] eqn:Hr;
    eexists _, _; (split; [reflexivity|]); simpl;
    (split; [reflexivity|]); (split; [reflexivity|]);
    (split; [reflexivity|]); split; intros x Hx; inversion Hx; subst; simpl;
    eauto.
Qed.

(** The shape of what [_do_request] sends, and of what it returns. *)
Lemma do_request_shape (env : Env) (u : string) (hs : Headers)
    (head_then_get : bool) (w : World) (o : Outcome Response) (w' : World) :
  _do_request env u hs head_then_get w = (o, w') ->
  exists reqs,
    sent w' = sent w ++ reqs
    /\ slept w' = slept w /\ draws w' = draws w
    /\ Forall (fun rq => rq_url rq = u /\ rq_headers rq = hs) reqs
    /\ map rq_method reqs =
       (if head_then_get then
          match fst (respond env (sent w) (mkRequest "HEAD" u hs)) with
          | inr rp => if rp_status rp >=? 400 then ["HEAD"; "GET"] else ["HEAD"]
          | inl _ => ["HEAD"]
          end
        else ["GET"])
    /\ (forall resp, o = Ok resp ->
          last reqs = Some (request resp)
          /\ (_method_from_resp resp = "HEAD" -> status_code resp < 400)).
Proof.
  unfold _do_request. destruct head_then_get.
  - unfold bind.
    destruct (client_request_sent env "HEAD" u hs w)
      as (o1 & w1 & H1 & Hs1 & Hl1 & Hd1 & Hok1 & Herr1).
    rewrite H1. destruct o1 as [resp1|e1].
    + destruct (Hok1 resp1 eq_refl) as (Hrq1 & rp & dt & Hr & Hst).
      rewrite Hr. cbn [fst]. cbv beta iota. rewrite <- Hst.
      destruct (status_code resp1 >=? 400) eqn:Hge.
      * destruct (client_request_sent env "GET" u hs w1)
          as (o2 & w2 & H2 & Hs2 & Hl2 & Hd2 & Hok2 & _).
        rewrite H2. intros Heq. inversion Heq; subst o2 w2.
        exists [mkRequest "HEAD" u hs; mkRequest "GET" u hs].
        split; [rewrite Hs2, Hs1, <- app_assoc; reflexivity|].
        split; [congruence|]. split; [congruence|].
        split; [repeat constructor|]. split; [reflexivity|].
        intros resp ->. destruct (Hok2 resp eq_refl) as (Hrq2 & _).
        split; [simpl; now rewrite Hrq2|].
        unfold _method_from_resp. rewrite Hrq2. simpl. discriminate.
      * unfold ret. intros Heq. inversion Heq; subst o w'.
        exists [mkRequest "HEAD" u hs].
        split; [exact Hs1|]. split; [exact Hl1|]. split; [exact Hd1|].
        split; [repeat constructor|]. split; [reflexivity|].
        intros resp Hresp. inversion Hresp; subst resp.
        split; [simpl; now rewrite Hrq1|].
        intros _. rewrite Z.geb_leb in Hge. apply Z.leb_gt in Hge. exact Hge.
    + destruct (Herr1 e1 eq_refl) as [dt Hr]. rewrite Hr. cbn [fst]. cbv beta iota.
      intros Heq. inversion Heq; subst o w'.
      exists [mkRequest "HEAD" u hs].
      split; [exact Hs1|]. split; [exact Hl1|]. split; [exact Hd1|].
      split; [repeat constructor|]. split; [reflexivity|].
      intros resp Hresp. discriminate Hresp.
  - destruct (client_request_sent env "GET" u hs w)
      as (o2 & w2 & H2 & Hs2 & Hl2 & Hd2 & Hok2 & _).
    rewrite H2. intros Heq. inversion Heq; subst o2 w2.
    exists [mkRequest "GET" u hs].
    split; [exact Hs2|]. split; [exact Hl2|]. split; [exact Hd2|].
    split; [repeat constructor|]. split; [reflexivity|].
    intros resp ->. destruct (Hok2 resp eq_refl) as (Hrq2 & _).
    split; [simpl; now rewrite Hrq2|].
    unfold _method_from_resp. rewrite Hrq2. simpl. discriminate.
Qed.

(** X1.  With HEAD-then-GET, [_do_request] calls [client.request] for a
    HEAD first, with the URL and the headers it was given.  If the HEAD
    fails, its exception is raised and no GET is sent; if it is answered
    with a status below 400, the response to the HEAD is returned and no
    GET is sent; if it is answered with 400 or more, exactly one GET
    follows, with the same URL and headers, and the outcome of
    [_do_request] is the outcome of that GET, response or exception. *)
Theorem head_then_get_policy (env : Env) (u : string) (hs : Headers)
    (w : World) (o : Outcome Response) (w' : World) :
  _do_request env u hs true w = (o, w') ->
  let head := mkRequest "HEAD" u hs in
  let get := mkRequest "GET" u hs in
  match fst (respond env (sent w) head) with
  | inl e => sent w' = sent w ++ [head] /\ o = Raised e
  | inr rp =>
      if rp_status rp >=? 400 then
        sent w' = sent w ++ [head; get]
        /\ o = outcome_of get (fst (respond env (sent w ++ [head]) get))
      else
        sent w' = sent w ++ [head] /\ o = Ok (response_to head rp)
  end.
Proof.
  unfold _do_request, bind, client_request. cbv zeta.
  destruct (respond env (sent w) (mkRequest "HEAD" u hs)) as [[e|rp] dt1].
  - cbn. intros H. inversion H; subst. split; reflexivity.
  - cbn. destruct (rp_status rp >=? 400).
    + intros H.
      destruct (respond env (sent w ++ [mkRequest "HEAD" u hs])
                  (mkRequest "GET" u hs)) as [[e2|rp2] dt2] eqn:Hr2;
        cbn in H; rewrite Hr2 in H; inversion H; subst; cbn; split;
        first [reflexivity | now rewrite <- app_assoc].
    + unfold ret. intros H. inversion H; subst. split; reflexivity.
Qed.

Lemma head_then_get_policy_witness :
  exists o w' rp,
    _do_request env_head_refused "http://example.org/" [] true world0 = (o, w')
    /\ fst (respond env_head_refused [] (mkRequest "HEAD" "http://example.org/" []))
       = inr rp
    /\ (rp_status rp >=? 400) = true
    /\ sent w' = [mkRequest "HEAD" "http://example.org/" [];
                  mkRequest "GET" "http://example.org/" []]
    /\ o = outcome_of (mkRequest "GET" "http://example.org/" [])
             (fst (respond env_head_refused
                     [mkRequest "HEAD" "http://example.org/" []]
                     (mkRequest "GET" "http://example.org/" []))).
Proof.
  destruct (_do_request env_head_refused "http://example.org/" [] true world0)
    as [o w'] eqn:Hrun.
  pose proof (head_then_get_policy env_head_refused "http://example.org/" []
                world0 o w' Hrun) as Hcase.
  cbv zeta in Hcase.
  destruct (fst (respond env_head_refused (sent world0)
                   (mkRequest "HEAD" "http://example.org/" [])))
    as [e|rp] eqn:Hhead; [vm_compute in Hhead; discriminate Hhead|].
  destruct (rp_status rp >=? 400) eqn:Hst;
    [|vm_compute in Hhead; injection Hhead as <-; vm_compute in Hst;
      discriminate Hst].
  destruct Hcase as [Hsent Ho].
  exists o, w', rp. split; [reflexivity|]. split; [exact Hhead|].
  split; [exact Hst|]. split; [exact Hsent | exact Ho].
Defined.

Lemma do_request_count (env : Env) (u : string) (hs : Headers)
    (head_then_get : bool) (w : World) (o : Outcome Response) (w' : World) :
  _do_request env u hs head_then_get w = (o, w') ->
  exists reqs,
    sent w' = sent w ++ reqs
    /\ slept w' = slept w /\ draws w' = draws w
    /\ Forall (fun rq => rq_url rq = u) reqs
    /\ (1 <= length reqs <= requests_per_probe head_then_get)%nat.
Proof.
  intros H. destruct (do_request_shape env u hs head_then_get w o w' H)
    as (reqs & Hs & Hl & Hd & Hall & Hm & _).
  exists reqs. split; [exact Hs|]. split; [exact Hl|]. split; [exact Hd|].
  split; [eapply Forall_impl; [exact Hall|]; now intros rq [Hu _]|].
  apply (f_equal (@length string)) in Hm. rewrite length_map in Hm.
  rewrite Hm. unfold requests_per_probe. destruct head_then_get; simpl; [|lia].
  destruct (fst _) as [e|rp]; [simpl; lia|].
  destruct (rp_status rp >=? 400); simpl; lia.
Qed.

Section CheckOneMore.

Context (hdr : HeadersModule) (env : Env).
Context (u : string) (primary_headers : Headers) (primary_ua_label : string).
Context (head_then_get : bool) (retries : Z) (safari_retry : bool).

Local Abbreviation after :=
  (after_response hdr env u primary_ua_label head_then_get safari_retry).
Local Abbreviation loop :=
  (attempts_loop hdr env u primary_headers primary_ua_label head_then_get
     retries safari_retry).
Local Abbreviation trace :=
  (attempts_trace env u primary_headers head_then_get retries).
Local Abbreviation check :=
  (_check_one hdr env u primary_headers primary_ua_label head_then_get
     retries safari_retry).
Local Abbreviation primary :=
  (primary_response env u primary_headers head_then_get retries).

(** What the rest of the [try] block does to the world. *)
Lemma after_response_world (result : CheckResult) (resp : Response)
    (elapsed : Q) (w : World) (r : CheckResult) (w' : World) :
  after result resp elapsed w = (Ok r, w') ->
  exists reqs,
    sent w' = sent w ++ reqs
    /\ slept w' = slept w /\ draws w' = draws w
    /\ Forall (fun rq => rq_url rq = u) reqs
    /\ (length reqs <=
        if safari_retry then requests_per_probe head_then_get else 0)%nat.
Proof.
  unfold after_response.
  destruct (safari_retry && _) eqn:Hcond.
  - apply andb_true_iff in Hcond as [-> _]. rewrite safari_probe_eq.
    destruct (_do_request env u _ head_then_get w) as [o w2] eqn:Hreq.
    destruct (do_request_count env u _ head_then_get w o w2 Hreq)
      as (reqs & Hs & Hl & Hd & Hall & Hn).
    intros Heq. assert (w2 = w') as -> by (destruct o; now inversion Heq).
    exists reqs. repeat split; try assumption; lia.
  - unfold ret. intros Heq. inversion Heq; subst. exists [].
    rewrite app_nil_r. repeat split; try constructor. simpl. lia.
Qed.

(** One pass through the loop that meets an exception goes on with the
    rest of the attempts, after the pause. *)
Lemma attempts_loop_raised (att : Z) (rest : list Z)
    (last_exc : option Exception) (elapsed : Q) (result : CheckResult)
    (w : World) (e : Exception) (w1 : World) :
  _do_request env u primary_headers head_then_get w = (Raised e, w1) ->
  loop (att :: rest) last_exc elapsed result w
  = loop rest (Some e) ((now w1 - now w) * 1000)%Q result
      (snd (backoff_sleep env retries att w1)).
Proof.
  intros Hreq. destruct (backoff_sleep_ok env retries att w1) as (w2 & Hs & _).
  simpl attempts_loop. unfold try_block, bind, attempt, perf_counter.
  rewrite Hreq, Hs. reflexivity.
Qed.

(** One pass that gets a response ends the loop with the [try] block. *)
Lemma attempts_loop_answered (att : Z) (rest : list Z)
    (last_exc : option Exception) (elapsed : Q) (result : CheckResult)
    (w : World) (resp : Response) (w1 : World) :
  _do_request env u primary_headers head_then_get w = (Ok resp, w1) ->
  loop (att :: rest) last_exc elapsed result w
  = after result resp ((now w1 - now w) * 1000)%Q w1.
Proof.
  intros Hreq.
  destruct (after_response_ok hdr env u primary_ua_label head_then_get
              safari_retry result resp ((now w1 - now w) * 1000)%Q w1)
    as (r & w2 & Hr).
  simpl attempts_loop. unfold try_block, bind, attempt, perf_counter, ret.
  rewrite Hreq. simpl. rewrite Hr. reflexivity.
Qed.

Lemma backoff_sleep_world (att : Z) (w : World) :
  let w' := snd (backoff_sleep env retries att w) in
  sent w' = sent w
  /\ (if att <? retries
      then (exists d, slept w' = slept w ++ [d])
           /\ draws w' = S (draws w)
      else slept w' = slept w /\ draws w' = draws w).
Proof.
  unfold backoff_sleep. destruct (att <? retries); simpl; repeat split.
  eexists. reflexivity.
Qed.

Lemma attempts_loop_requests (atts : list Z) (last_exc : option Exception)
    (elapsed : Q) (result : CheckResult) (w : World) (r : CheckResult)
    (w' : World) :
  loop atts last_exc elapsed result w = (Ok r, w') ->
  exists reqs,
    sent w' = sent w ++ reqs
    /\ Forall (fun rq => rq_url rq = u) reqs
    /\ (length reqs <=
        requests_per_probe head_then_get * length atts
        + if safari_retry then requests_per_probe head_then_get else 0)%nat.
Proof.
  revert last_exc elapsed w.
  induction atts as [|att rest IH]; intros last_exc elapsed w Hrun.
  - simpl in Hrun. unfold ret in Hrun. inversion Hrun; subst.
    exists []. rewrite app_nil_r. repeat split; [constructor | simpl; lia].
  - destruct (_do_request env u primary_headers head_then_get w)
      as [[resp|e] w1] eqn:Hreq;
      destruct (do_request_count env u _ head_then_get w _ w1 Hreq)
        as (reqs1 & Hs1 & _ & _ & Hall1 & Hn1).
    + rewrite (attempts_loop_answered att rest _ _ _ w resp w1 Hreq) in Hrun.
      destruct (after_response_world _ _ _ _ _ _ Hrun)
        as (reqs2 & Hs2 & _ & _ & Hall2 & Hn2).
      exists (reqs1 ++ reqs2). split; [now rewrite Hs2, Hs1, app_assoc|].
      split; [now apply Forall_app|].
      rewrite length_app. simpl length. lia.
    + rewrite (attempts_loop_raised att rest _ _ _ w e w1 Hreq) in Hrun.
      destruct (backoff_sleep_world att w1) as [Hsb _].
      destruct (IH _ _ _ Hrun) as (reqs2 & Hs2 & Hall2 & Hn2).
      exists (reqs1 ++ reqs2).
      split; [now rewrite Hs2, Hsb, Hs1, app_assoc|].
      split; [now apply Forall_app|].
      rewrite length_app. simpl length. lia.
Qed.

(** X2.  One check calls [client.request] a bounded number of times, and
    each time with its own URL: with [retries] not negative, at most one
    probe per attempt and one more for the Safari retry when it is
    enabled, a probe being two calls with HEAD-then-GET and one without.
    (What is counted are the calls: the further requests [httpx] sends
    inside one call while it follows redirects are not.) *)
Theorem check_one_request_budget (r : CheckResult) (w w' : World) :
  0 <= retries ->
  check w = (Ok r, w') ->
  exists reqs,
    sent w' = sent w ++ reqs
    /\ Forall (fun rq => rq_url rq = u) reqs
    /\ Z.of_nat (length reqs) <=
       Z.of_nat (requests_per_probe head_then_get)
       * (retries + 1 + if safari_retry then 1 else 0).
Proof.
  intros Hret Hrun. unfold _check_one in Hrun.
  destruct (attempts_loop_requests _ _ _ _ _ _ _ Hrun)
    as (reqs & Hs & Hall & Hn).
  exists reqs. split; [exact Hs|]. split; [exact Hall|].
  unfold range in Hn. rewrite length_map, length_seq in Hn.
  destruct safari_retry; nia.
Qed.

End CheckOneMore.

Lemma check_one_request_budget_witness :
  exists r w' reqs,
    demo_check env_safari_only true 1 = (Ok r, w')
    /\ sent w' = sent world0 ++ reqs
    /\ Forall (fun rq => rq_url rq = "http://example.org/") reqs
    /\ Z.of_nat (length reqs) <= 2 * (1 + 1 + 1).
Proof.
  destruct (demo_check env_safari_only true 1) as [[r|e] w'] eqn:Hrun;
    [|vm_compute in Hrun; discriminate Hrun].
  destruct (check_one_request_budget demo_headers env_safari_only
              "http://example.org/" [("User-Agent", "Chrome")]
              "Chrome macOS (default)" true 1 true r world0 w'
              ltac:(lia) Hrun) as (reqs & Hs & Hall & Hn).
  exists r, w', reqs. repeat split; assumption.
Defined.

Section CheckOneShape.

Context (hdr : HeadersModule) (env : Env).
Context (u : string) (primary_headers : Headers) (primary_ua_label : string).
Context (head_then_get : bool) (retries : Z) (safari_retry : bool).

Local Abbreviation check :=
  (_check_one hdr env u primary_headers primary_ua_label head_then_get
     retries safari_retry).
Local Abbreviation primary :=
  (primary_response env u primary_headers head_then_get retries).
Local Abbreviation trace :=
  (attempts_trace env u primary_headers head_then_get retries).
Local Abbreviation loop :=
  (attempts_loop hdr env u primary_headers primary_ua_label head_then_get
     retries safari_retry).

(** The result of a check that got a response, in one of three shapes. *)
Lemma check_one_answered (r : CheckResult) (w w' : World) (resp : Response)
    (w1 : World) :
  check w = (Ok r, w') ->
  primary w = Some (resp, w1) ->
  exists elapsed,
    let base := record_response primary_ua_label (new_CheckResult u) resp
                  elapsed in
    r = base
    \/ exists alt_resp w2,
         safari_retry = true
         /\ (status_code resp = 403 \/ status_code resp = 404)
         /\ _do_request env u (make_headers hdr (SAFARI_UA hdr)) head_then_get
              w1 = (Ok alt_resp, w2)
         /\ r = record_alternate base alt_resp.
Proof.
  intros Hrun Hp. pose proof (check_one_result hdr env u primary_headers
    primary_ua_label head_then_get retries safari_retry r w w' Hrun) as H.
  rewrite Hp in H.
  destruct (last _) as [a|]; cbv zeta in H;
    match type of H with context [record_response _ _ _ ?t] =>
      exists t end; cbv zeta.
  all: destruct (safari_retry && _) eqn:Hcond; [|now left].
  all: apply andb_true_iff in Hcond as [Hs Hc].
  all: destruct (_do_request env u _ head_then_get w1) as [[alt|e] w2] eqn:Halt;
         [|now left].
  all: right; exists alt, w2; split; [exact Hs|]; split; [|split;[reflexivity|exact H]].
  all: apply orb_true_iff in Hc as [Hc|Hc]; apply Z.eqb_eq in Hc; tauto.
Qed.

Lemma check_one_failed (r : CheckResult) (w w' : World) :
  check w = (Ok r, w') ->
  primary w = None ->
  exists last_exc elapsed,
    r = exhausted primary_ua_label (new_CheckResult u) last_exc elapsed.
Proof.
  intros Hrun Hp. pose proof (check_one_result hdr env u primary_headers
    primary_ua_label head_then_get retries safari_retry r w w' Hrun) as H.
  rewrite Hp in H. eauto.
Qed.

Lemma check_one_answered_error (r : CheckResult) (w w' : World)
    (resp : Response) (w1 : World) :
  check w = (Ok r, w') -> primary w = Some (resp, w1) -> error r = "".
Proof.
  intros Hrun Hp.
  destruct (check_one_answered r w w' resp w1 Hrun Hp) as [elapsed H].
  cbv zeta in H.
  destruct (record_response_chain primary_ua_label (new_CheckResult u)
              resp elapsed) as (_ & _ & _ & _ & He).
  destruct H as [->|(alt & w2 & _ & _ & _ & ->)]; [exact He|].
  unfold record_alternate. destruct (status_code alt <? 400); exact He.
Qed.


(** X4.  A result flagged as a soft 404 has the final status 200, was
    obtained by GET under the primary identity, and carries neither an
    error nor a Safari status. *)
Theorem soft_404_flag_implies (r : CheckResult) (w w' : World) :
  check w = (Ok r, w') ->
  soft_404 r = true ->
  final_status_code r = "200"
  /\ method_used r = "GET"
  /\ user_agent_used r = primary_ua_label
  /\ error r = ""
  /\ alt_status_code r = "".
Proof.
  intros Hrun Hsoft. destruct (primary w) as [[resp w1]|] eqn:Hp.
  - destruct (check_one_answered r w w' resp w1 Hrun Hp) as [elapsed H].
    cbv zeta in H.
    assert (Hbase : forall b,
      b = record_response primary_ua_label (new_CheckResult u) resp elapsed ->
      soft_404 b = true ->
      status_code resp = 200
      /\ final_status_code b = "200" /\ method_used b = "GET"
      /\ user_agent_used b = primary_ua_label /\ error b = ""
      /\ alt_status_code b = "").
    { intros b -> Hb. unfold record_response in *. simpl in *.
      destruct (String.eqb (_method_from_resp resp) "GET") eqn:Hm;
        [|discriminate Hb].
      destruct (Z.eqb_spec (status_code resp) 200) as [Hs|Hs];
        [|discriminate Hb].
      simpl in *. rewrite Hs. apply String.eqb_eq in Hm.
      repeat split; assumption. }
    destruct H as [->|(alt & w2 & _ & Hst & _ & ->)].
    + destruct (Hbase _ eq_refl Hsoft) as (_ & H1); exact H1.
    + exfalso.
      assert (Hs : soft_404 (record_response primary_ua_label
                               (new_CheckResult u) resp elapsed) = true)
        by (unfold record_alternate in Hsoft;
            destruct (status_code alt <? 400); exact Hsoft).
      destruct (Hbase _ eq_refl Hs) as (H200 & _). lia.
  - destruct (check_one_failed r w w' Hrun Hp) as (exc & elapsed & ->).
    discriminate Hsoft.
Qed.

(** X5.  The redirect chain of a result without error begins with its
    first-hop status. *)
Theorem redirect_chain_begins_with_first_status (r : CheckResult)
    (w w' : World) :
  check w = (Ok r, w') ->
  error r = "" ->
  head (Py.split "→" (redirect_chain r)) = Some (first_status_code r).
Proof.
  intros Hrun Herr.
  assert (Hresp : forall resp,
    head (Py.split "→" (_build_redirect_chain resp))
    = Some (_get_first_status resp)).
  { intros resp. rewrite chain_of_response. unfold _get_first_status.
    destruct (history resp); reflexivity. }
  destruct (primary w) as [[resp w1]|] eqn:Hp.
  - destruct (check_one_answered r w w' resp w1 Hrun Hp) as [elapsed H].
    cbv zeta in H.
    assert (Hbase : forall b,
      b = record_response primary_ua_label (new_CheckResult u) resp elapsed ->
      redirect_chain b = _build_redirect_chain resp
      /\ first_status_code b = _get_first_status resp).
    { intros b ->. unfold record_response. simpl.
      destruct (String.eqb _ "GET" && _); split; reflexivity. }
    destruct (Hbase _ eq_refl) as [Hc Hf].
    destruct H as [->|(alt & w2 & _ & _ & _ & ->)].
    + rewrite Hc, Hf. apply Hresp.
    + unfold record_alternate. destruct (status_code alt <? 400); simpl.
      * apply Hresp.
      * rewrite Hc, Hf. apply Hresp.
  - destruct (check_one_failed r w w' Hrun Hp) as (exc & elapsed & ->).
    simpl in Herr. now apply classify_error_nonempty in Herr.
Qed.

(** X6.  A result says HEAD only if HEAD-then-GET is on and the final
    status is a number below 400: a HEAD answered with 400 or more is
    never the final answer. *)
Theorem head_results_are_below_400 (r : CheckResult) (w w' : World) :
  check w = (Ok r, w') ->
  method_used r = "HEAD" ->
  head_then_get = true
  /\ exists z, final_status_code r = str_Z z /\ z < 400.
Proof.
  intros Hrun Hm.
  assert (Hreq : forall hs w0 resp w1,
    _do_request env u hs head_then_get w0 = (Ok resp, w1) ->
    _method_from_resp resp = "HEAD" ->
    head_then_get = true /\ status_code resp < 400).
  { intros hs w0 resp w1 H Hh.
    destruct (do_request_shape env u hs head_then_get w0 _ w1 H)
      as (reqs & _ & _ & _ & _ & Hmap & Hok).
    destruct (Hok resp eq_refl) as [Hlast Hlt]. split; [|now apply Hlt].
    destruct head_then_get; [reflexivity|]. exfalso.
    destruct reqs as [|rq [|rq' reqs]]; try discriminate Hmap.
    simpl in Hlast, Hmap. inversion Hlast; subst rq.
    unfold _method_from_resp in Hh. rewrite Hh in Hmap. discriminate Hmap. }
  destruct (primary w) as [[resp w1]|] eqn:Hp.
  - destruct (primary_response_request env u primary_headers head_then_get
                retries w resp w1 Hp) as [w0 Hprim].
    destruct (check_one_answered r w w' resp w1 Hrun Hp) as [elapsed H].
    cbv zeta in H.
    assert (Hbase : forall b,
      b = record_response primary_ua_label (new_CheckResult u) resp elapsed ->
      method_used b = _method_from_resp resp
      /\ final_status_code b = str_Z (status_code resp)).
    { intros b ->. unfold record_response. simpl.
      destruct (String.eqb _ "GET" && _); split; reflexivity. }
    destruct (Hbase _ eq_refl) as [Hbm Hbf].
    destruct H as [->|(alt & w2 & _ & _ & Halt & ->)].
    + rewrite Hbm in Hm. destruct (Hreq _ _ _ _ Hprim Hm) as [Hh Hlt].
      split; [exact Hh|]. exists (status_code resp). now rewrite Hbf.
    + unfold record_alternate in *. destruct (status_code alt <? 400); simpl in *.
      * destruct (Hreq _ _ _ _ Halt Hm) as [Hh Hlt].
        split; [exact Hh|]. now exists (status_code alt).
      * rewrite Hbm in Hm. destruct (Hreq _ _ _ _ Hprim Hm) as [Hh Hlt].
        split; [exact Hh|]. exists (status_code resp). now rewrite Hbf.
  - destruct (check_one_failed r w w' Hrun Hp) as (exc & elapsed & ->).
    discriminate Hm.
Qed.

End CheckOneShape.


Lemma soft_404_flag_implies_witness :
  exists r w',
    demo_check env_missing_page false 1 = (Ok r, w')
    /\ soft_404 r = true
    /\ final_status_code r = "200"
    /\ method_used r = "GET"
    /\ user_agent_used r = "Chrome macOS (default)"
    /\ error r = ""
    /\ alt_status_code r = "".
Proof.
  destruct (demo_check env_missing_page false 1) as [[r|e] w'] eqn:Hrun;
    [|vm_compute in Hrun; discriminate Hrun].
  assert (Hsoft : soft_404 r = true)
    by (vm_compute in Hrun; injection Hrun as <- _; reflexivity).
  exists r, w'. split; [reflexivity|]. split; [exact Hsoft|].
  exact (soft_404_flag_implies demo_headers env_missing_page
           "http://example.org/" [("User-Agent", "Chrome")]
           "Chrome macOS (default)" false 1 true r world0 w' Hrun Hsoft).
Defined.

Lemma redirect_chain_begins_with_first_status_witness :
  exists r w',
    demo_check env_redirects true 1 = (Ok r, w')
    /\ first_status_code r = "301"
    /\ head (Py.split "→" (redirect_chain r)) = Some (first_status_code r).
Proof.
  destruct (demo_check env_redirects true 1) as [[r|e] w'] eqn:Hrun;
    [|vm_compute in Hrun; discriminate Hrun].
  assert (Hfirst : first_status_code r = "301" /\ error r = "")
    by (vm_compute in Hrun; injection Hrun as <- _; split; reflexivity).
  destruct Hfirst as [Hfirst Herr].
  exists r, w'. split; [reflexivity|]. split; [exact Hfirst|].
  exact (redirect_chain_begins_with_first_status demo_headers env_redirects
           "http://example.org/" [("User-Agent", "Chrome")]
           "Chrome macOS (default)" true 1 true r world0 w' Hrun Herr).
Defined.

Lemma head_results_are_below_400_witness :
  exists r w',
    demo_check env_redirects true 1 = (Ok r, w')
    /\ method_used r = "HEAD"
    /\ true = true
    /\ exists z, final_status_code r = str_Z z /\ z < 400.
Proof.
  destruct (demo_check env_redirects true 1) as [[r|e] w'] eqn:Hrun;
    [|vm_compute in Hrun; discriminate Hrun].
  assert (Hm : method_used r = "HEAD")
    by (vm_compute in Hrun; injection Hrun as <- _; reflexivity).
  exists r, w'. split; [reflexivity|]. split; [exact Hm|].
  exact (head_results_are_below_400 demo_headers env_redirects
           "http://example.org/" [("User-Agent", "Chrome")]
           "Chrome macOS (default)" true 1 true r world0 w' Hrun Hm).
Defined.

Section SafariRetry.

Context (hdr : HeadersModule) (env : Env).
Context (u : string) (primary_headers : Headers) (primary_ua_label : string).
Context (head_then_get : bool) (retries : Z).

(** X7.  Enabling the Safari retry never changes the input URL, the
    response time, the soft-404 flag or the error of a result; and unless
    the result says that the retry was promoted, it changes nothing but
    the two Safari fields. *)
Theorem safari_retry_changes_little (r r0 : CheckResult) (w w' w0' : World) :
  _check_one hdr env u primary_headers primary_ua_label head_then_get retries
    true w = (Ok r, w') ->
  _check_one hdr env u primary_headers primary_ua_label head_then_get retries
    false w = (Ok r0, w0') ->
  (input_url r = input_url r0
   /\ response_time_ms r = response_time_ms r0
   /\ soft_404 r = soft_404 r0
   /\ error r = error r0)
  /\ (user_agent_used r <> "Safari macOS (retry)" ->
      first_status_code r = first_status_code r0
      /\ final_status_code r = final_status_code r0
      /\ final_url r = final_url r0
      /\ redirect_count r = redirect_count r0
      /\ redirect_chain r = redirect_chain r0
      /\ method_used r = method_used r0
      /\ user_agent_used r = user_agent_used r0)
  /\ alt_status_code r0 = "" /\ alt_user_agent_used r0 = "".
Proof.
  intros Hon Hoff.
  pose proof (check_one_result _ _ _ _ _ _ _ _ _ _ _ Hon) as H.
  pose proof (check_one_result _ _ _ _ _ _ _ _ _ _ _ Hoff) as H0.
  destruct (primary_response env u primary_headers head_then_get retries w)
    as [[resp w1]|].
  - destruct (last _) as [a|]; cbv zeta in H, H0;
      match type of H0 with context [record_response _ _ _ ?t] =>
        set (elapsed := t) in H, H0 end.
    all: simpl in H0; subst r0.
    all: assert (Halt0 :
           alt_status_code (record_response primary_ua_label
                              (new_CheckResult u) resp elapsed) = ""
           /\ alt_user_agent_used (record_response primary_ua_label
                                     (new_CheckResult u) resp elapsed) = "")
           by (unfold record_response; simpl;
               destruct (String.eqb _ "GET" && _); split; reflexivity).
    all: destruct (true && _);
           [destruct (_do_request env u _ head_then_get w1) as [[alt|e] w2]|];
           subst r.
    all: try (unfold record_alternate; destruct (status_code alt <? 400);
              simpl).
    all: split; [repeat split; reflexivity|]; split; [|exact Halt0];
           intros Hne;
           first [repeat split; reflexivity | exfalso; apply Hne; reflexivity].
  - subst r r0. repeat split.
Qed.

End SafariRetry.

Lemma safari_retry_changes_little_witness :
  exists r r0 w' w0',
    demo_check env_safari_only false 1 = (Ok r, w')
    /\ _check_one demo_headers env_safari_only "http://example.org/"
         [("User-Agent", "Chrome")] "Chrome macOS (default)" false 1 false
         world0 = (Ok r0, w0')
    /\ final_status_code r = "200" /\ final_status_code r0 = "404"
    /\ response_time_ms r = response_time_ms r0
    /\ soft_404 r = soft_404 r0
    /\ error r = error r0.
Proof.
  destruct (demo_check env_safari_only false 1) as [[r|e] w'] eqn:Hon;
    [|vm_compute in Hon; discriminate Hon].
  destruct (_check_one demo_headers env_safari_only "http://example.org/"
              [("User-Agent", "Chrome")] "Chrome macOS (default)" false 1
              false world0) as [[r0|e] w0'] eqn:Hoff;
    [|vm_compute in Hoff; discriminate Hoff].
  destruct (safari_retry_changes_little demo_headers env_safari_only
              "http://example.org/" [("User-Agent", "Chrome")]
              "Chrome macOS (default)" false 1 r r0 world0 w' w0' Hon Hoff)
    as ((_ & Ht & Hs & He) & _).
  assert (Hf : final_status_code r = "200")
    by (vm_compute in Hon; injection Hon as <- _; reflexivity).
  assert (Hf0 : final_status_code r0 = "404")
    by (vm_compute in Hoff; injection Hoff as <- _; reflexivity).
  exists r, r0, w', w0'. repeat split; assumption.
Defined.

Section Backoff.

Context (hdr : HeadersModule) (env : Env).
Context (u : string) (primary_headers : Headers) (primary_ua_label : string).
Context (head_then_get : bool) (retries : Z) (safari_retry : bool).

Local Abbreviation loop :=
  (attempts_loop hdr env u primary_headers primary_ua_label head_then_get
     retries safari_retry).
Local Abbreviation trace :=
  (attempts_trace env u primary_headers head_then_get retries).




End Backoff.


(** ** The run and the dashboard *)

(** X9.  [run_checks] raises only for its configuration: a [KeyError]
    when no user agent is given and the default preset is missing, a
    [ValueError] when the concurrency is negative; it hangs only with a
    concurrency of 0 and URLs to check.  No URL makes it raise: in every
    other case it returns as many results as there are URLs. *)
Theorem run_checks_outcomes (hdr : HeadersModule) (round1 : Q -> Q)
    (envs : nat -> Env) (urls : list string) (concurrency : Z) (timeout : Q)
    (follow_redirects head_then_get : bool) (retries : Z)
    (user_agent : string) (safari_retry : bool) :
  let preset_missing :=
    user_agent = ""
    /\ dict_get (UA_PRESETS hdr) "Chrome macOS (default)" = None in
  match run_checks hdr round1 envs urls concurrency timeout follow_redirects
          head_then_get retries user_agent safari_retry with
  | Raises e =>
      (preset_missing /\ e = KeyError_default)
      \/ (~ preset_missing /\ concurrency < 0 /\ e = ValueError_semaphore)
  | Hangs => ~ preset_missing /\ concurrency = 0 /\ urls <> []
  | Returns results =>
      ~ preset_missing /\ 0 <= concurrency
      /\ (concurrency = 0 -> urls = [])
      /\ length results = length urls
  end.
Proof.
  cbv zeta. unfold run_checks, _run.
  destruct (String.eqb_spec user_agent "") as [Hua|Hua].
  - destruct (dict_get (UA_PRESETS hdr) "Chrome macOS (default)") as [ua|] eqn:Hd.
    2: { left. split; [split; [exact Hua | reflexivity] | reflexivity]. }
    assert (Hnot : ~ (user_agent = "" /\ Some ua = None))
      by (intros [_ H]; discriminate H).
    destruct (Z.ltb_spec concurrency 0);
      [right; split; [exact Hnot|]; split; [lia | reflexivity]|].
    destruct urls as [|x urls];
      [split; [exact Hnot|]; split; [lia|]; split; reflexivity|].
    destruct (Z.eqb_spec concurrency 0);
      [split; [exact Hnot|]; split; [assumption | discriminate]|].
    match goal with |- context [gather (imap ?f ?l)] =>
      destruct (gather_all_ok (fun _ _ => True) l f) as (rs & -> & Hall) end.
    { intros i y.
      destruct (check_one_ok hdr (envs i) y (make_headers hdr ua)
                  (find_label (UA_PRESETS hdr) ua "Custom") head_then_get
                  retries safari_retry world0) as (r & w' & Hr).
      exists r. rewrite Hr. split; [reflexivity | exact I]. }
    split; [exact Hnot|]. split; [lia|]. split; [lia|].
    rewrite length_map. symmetry. eapply Forall2_length, Hall.
  - assert (Hnot : ~ (user_agent = ""
        /\ dict_get (UA_PRESETS hdr) "Chrome macOS (default)" = None))
      by (intros [H _]; contradiction).
    destruct (Z.ltb_spec concurrency 0);
      [right; split; [exact Hnot|]; split; [lia | reflexivity]|].
    destruct urls as [|x urls];
      [split; [exact Hnot|]; split; [lia|]; split; reflexivity|].
    destruct (Z.eqb_spec concurrency 0);
      [split; [exact Hnot|]; split; [assumption | discriminate]|].
    match goal with |- context [gather (imap ?f ?l)] =>
      destruct (gather_all_ok (fun _ _ => True) l f) as (rs & -> & Hall) end.
    { intros i y.
      destruct (check_one_ok hdr (envs i) y (make_headers hdr user_agent)
                  (find_label (UA_PRESETS hdr) user_agent "Custom")
                  head_then_get retries safari_retry world0) as (r & w' & Hr).
      exists r. rewrite Hr. split; [reflexivity | exact I]. }
    split; [exact Hnot|]. split; [lia|]. split; [lia|].
    rewrite length_map. symmetry. eapply Forall2_length, Hall.
Qed.

Lemma find_label_spec (d : list (string * string)) (ua default : string) :
  (find_label d ua default, ua) ∈ d
  \/ (find_label d ua default = default /\ forall name, (name, ua) ∉ d).
Proof.
  induction d as [|[name val] d IH]; simpl.
  - right. split; [reflexivity|]. intros name. apply not_elem_of_nil.
  - destruct (String.eqb_spec val ua) as [->|Hne].
    + left. now left.
    + destruct IH as [IH|[IH Hnone]].
      * left. now right.
      * right. split; [exact IH|]. intros n Hin.
        apply elem_of_cons in Hin as [Heq|Hin]; [congruence | now apply (Hnone n)].
Qed.

Lemma check_one_identity (hdr : HeadersModule) (env : Env) (u : string)
    (primary_headers : Headers) (primary_ua_label : string)
    (head_then_get : bool) (retries : Z) (safari_retry : bool)
    (r : CheckResult) (w w' : World) :
  _check_one hdr env u primary_headers primary_ua_label head_then_get retries
    safari_retry w = (Ok r, w') ->
  user_agent_used r = primary_ua_label
  \/ (safari_retry = true /\ user_agent_used r = "Safari macOS (retry)").
Proof.
  intros Hrun.
  destruct (primary_response env u primary_headers head_then_get retries w)
    as [[resp w1]|] eqn:Hp.
  - destruct (check_one_answered _ _ _ _ _ _ _ _ r w w' resp w1 Hrun Hp)
      as [elapsed H]. cbv zeta in H.
    assert (Hb : user_agent_used (record_response primary_ua_label
                   (new_CheckResult u) resp elapsed) = primary_ua_label)
      by (unfold record_response; simpl;
          destruct (String.eqb _ "GET" && _); reflexivity).
    destruct H as [->|(alt & w2 & Hs & _ & _ & ->)]; [now left|].
    unfold record_alternate. destruct (status_code alt <? 400); simpl.
    + right. now split.
    + now left.
  - destruct (check_one_failed _ _ _ _ _ _ _ _ r w w' Hrun Hp)
      as (exc & elapsed & ->). now left.
Qed.

(** X10.  The identity of every result of a run is the label of the user
    agent of the run or, with the Safari retry on, the label of a
    promoted retry.  The label of the run names a preset whose string is
    the user agent in use (the first such preset), or it is [Custom] when
    no preset has that string. *)
Theorem run_checks_identity_labels (hdr : HeadersModule) (round1 : Q -> Q)
    (envs : nat -> Env) (urls : list string) (concurrency : Z) (timeout : Q)
    (follow_redirects head_then_get : bool) (retries : Z)
    (user_agent : string) (safari_retry : bool)
    (results : list CheckResult) :
  run_checks hdr round1 envs urls concurrency timeout follow_redirects
    head_then_get retries user_agent safari_retry = Returns results ->
  exists ua label,
    (if String.eqb user_agent ""
     then dict_get (UA_PRESETS hdr) "Chrome macOS (default)" = Some ua
     else ua = user_agent)
    /\ ((label, ua) ∈ UA_PRESETS hdr
        \/ (label = "Custom" /\ forall name, (name, ua) ∉ UA_PRESETS hdr))
    /\ Forall (fun r =>
                 user_agent_used r = label
                 \/ (safari_retry = true
                     /\ user_agent_used r = "Safari macOS (retry)")) results.
Proof.
  unfold run_checks, _run. intros Hrun.
  assert (Hua : exists ua,
    (if String.eqb user_agent ""
     then dict_get (UA_PRESETS hdr) "Chrome macOS (default)"
     else Some user_agent) = Some ua
    /\ (if String.eqb user_agent ""
        then dict_get (UA_PRESETS hdr) "Chrome macOS (default)" = Some ua
        else ua = user_agent)).
  { destruct (String.eqb user_agent "").
    - destruct (dict_get _ _) as [ua|]; [eauto | discriminate Hrun].
    - eauto. }
  destruct Hua as (ua & Hres & Hua). rewrite Hres in Hrun.
  exists ua, (find_label (UA_PRESETS hdr) ua "Custom").
  split; [exact Hua|]. split; [apply find_label_spec|].
  destruct (concurrency <? 0); [discriminate|].
  destruct urls as [|x urls]; [inversion Hrun; constructor|].
  destruct (concurrency =? 0); [discriminate|].
  destruct (gather _) as [rs|e] eqn:Hg; [|discriminate].
  inversion Hrun; subst. apply Forall_map.
  eapply gather_returns; [|exact Hg].
  intros i y r Hr. simpl in Hr.
  destruct (_check_one hdr (envs i) y _ _ head_then_get retries safari_retry
              world0) as [o w'] eqn:Hc.
  simpl in Hr. subst o. simpl.
  exact (check_one_identity _ _ _ _ _ _ _ _ _ _ _ Hc).
Qed.

Lemma run_checks_identity_labels_witness :
  exists results ua label,
    run_checks demo_headers (fun q => q) (fun _ => env_safari_only)
      ["http://example.org/"] 10 15 true false 1 "" true = Returns results
    /\ dict_get (UA_PRESETS demo_headers) "Chrome macOS (default)" = Some ua
    /\ ((label, ua) ∈ UA_PRESETS demo_headers
        \/ (label = "Custom"
            /\ forall name, (name, ua) ∉ UA_PRESETS demo_headers))
    /\ Forall (fun r =>
                 user_agent_used r = label
                 \/ (true = true
                     /\ user_agent_used r = "Safari macOS (retry)")) results.
Proof.
  destruct (run_checks demo_headers (fun q => q) (fun _ => env_safari_only)
              ["http://example.org/"] 10 15 true false 1 "" true)
    as [results|e|] eqn:Hrun;
    [|vm_compute in Hrun; discriminate Hrun..].
  destruct (run_checks_identity_labels demo_headers (fun q => q)
              (fun _ => env_safari_only) ["http://example.org/"] 10 15 true
              false 1 "" true results Hrun) as (ua & label & Hua & Hl & Hall).
  exists results, ua, label. split; [reflexivity|]. split; [exact Hua|].
  split; [exact Hl | exact Hall].
Defined.

(** X11.  The status group of an HTTP status code written in decimal is
    given by its hundreds: 2xx for 200 to 299, and so on up to 5xx; the
    codes below 200 and from 600 on come under Other, none under
    Error. *)
Theorem group_of_numeric_status (z : Z) :
  100 <= z <= 999 -> _group (str_Z z) = group_of_status z.
Proof.
  intros Hz.
  assert (Hall : forallb (fun k =>
            String.eqb (_group (str_Z (Z.of_nat k)))
              (group_of_status (Z.of_nat k))) (seq 100 900) = true)
    by (vm_compute; reflexivity).
  rewrite forallb_forall in Hall.
  specialize (Hall (Z.to_nat z)). rewrite Z2Nat.id in Hall by lia.
  apply String.eqb_eq, Hall, in_seq. lia.
Qed.

Lemma group_of_numeric_status_witness :
  100 <= 404 <= 999 /\ _group (str_Z 404) = "4xx".
Proof.
  split; [lia|]. exact (group_of_numeric_status 404 ltac:(lia)).
Defined.

Lemma group_error_iff (s : string) :
  _group s = "Error" <-> isdigit s = false.
Proof.
  unfold _group. destruct (isdigit s); [|tauto].
  split; [|discriminate]. destruct s as [|c s]; [discriminate|].
  simpl. repeat match goal with |- context [if ?b then _ else _] =>
                  destruct b end; discriminate.
Qed.

Lemma three_digits_isdigit (s : string) :
  three_digits s = true -> isdigit s = true.
Proof.
  destruct s as [|a [|b [|c [|d s]]]]; try discriminate. simpl.
  intros H. apply andb_true_iff in H as [H Hc].
  apply andb_true_iff in H as [Ha Hb]. now rewrite Ha, Hb, Hc.
Qed.

Lemma failure_group_str_Z (z : Z) :
  100 <= z <= 999 ->
  (existsb (String.eqb (_group (str_Z z))) ["4xx"; "5xx"; "Error"] = true
   <-> 400 <= z <= 599).
Proof.
  intros Hz.
  assert (Hall : forallb (fun k =>
            Bool.eqb
              (existsb (String.eqb (_group (str_Z (Z.of_nat k))))
                 ["4xx"; "5xx"; "Error"])
              ((400 <=? Z.of_nat k) && (Z.of_nat k <=? 599)))
            (seq 100 900) = true)
    by (vm_compute; reflexivity).
  rewrite forallb_forall in Hall.
  specialize (Hall (Z.to_nat z)). rewrite Z2Nat.id in Hall by lia.
  apply Bool.eqb_prop in Hall; [|apply in_seq; lia]. rewrite Hall.
  rewrite andb_true_iff, !Z.leb_le. reflexivity.
Qed.

Lemma isdigit_classify_error (exc : option Exception) :
  isdigit (_classify_error exc) = false.
Proof.
  unfold _classify_error.
  repeat match goal with |- context [if ?b then _ else _] => destruct b end;
    reflexivity.
Qed.

(** The final status of a result without error is an HTTP status. *)
Lemma check_one_numeric_status (hdr : HeadersModule) (env : Env) (u : string)
    (primary_headers : Headers) (primary_ua_label : string)
    (head_then_get : bool) (retries : Z) (safari_retry : bool)
    (r : CheckResult) (w w' : World) :
  http_statuses env ->
  _check_one hdr env u primary_headers primary_ua_label head_then_get retries
    safari_retry w = (Ok r, w') ->
  error r = "" ->
  exists z, final_status_code r = str_Z z /\ 100 <= z <= 999.
Proof.
  intros Henv Hrun Herr.
  destruct (primary_response env u primary_headers head_then_get retries w)
    as [[resp w1]|] eqn:Hp.
  - destruct (primary_response_request env u primary_headers head_then_get
                retries w resp w1 Hp) as [w0 Hprim].
    pose proof (do_request_status env u head_then_get _ _ _ _ Henv Hprim) as Hz.
    destruct (check_one_answered _ _ _ _ _ _ _ _ r w w' resp w1 Hrun Hp)
      as [elapsed H]. cbv zeta in H.
    destruct (record_response_chain primary_ua_label (new_CheckResult u) resp
                elapsed) as (_ & _ & Hf & _).
    destruct H as [->|(alt & w2 & _ & _ & Halt & ->)]; [eauto|].
    pose proof (do_request_status env u head_then_get _ _ _ _ Henv Halt) as Hz2.
    unfold record_alternate. destruct (status_code alt <? 400); simpl; eauto.
  - destruct (check_one_failed _ _ _ _ _ _ _ _ r w w' Hrun Hp)
      as (exc & elapsed & ->).
    simpl in Herr. now apply classify_error_nonempty in Herr.
Qed.

Lemma check_one_group (hdr : HeadersModule) (env : Env) (u : string)
    (primary_headers : Headers) (primary_ua_label : string)
    (head_then_get : bool) (retries : Z) (safari_retry : bool)
    (r : CheckResult) (w w' : World) :
  http_statuses env ->
  _check_one hdr env u primary_headers primary_ua_label head_then_get retries
    safari_retry w = (Ok r, w') ->
  (_group (final_status_code r) = "Error" <-> error r <> "").
Proof.
  intros Henv Hrun. rewrite group_error_iff.
  destruct (primary_response env u primary_headers head_then_get retries w)
    as [[resp w1]|] eqn:Hp.
  - pose proof (check_one_answered_error _ _ _ _ _ _ _ _ r w w' resp w1
                  Hrun Hp) as Herr.
    destruct (check_one_numeric_status _ _ _ _ _ _ _ _ r w w' Henv Hrun Herr)
      as (z & Hf & Hz).
    rewrite Hf, (three_digits_isdigit _ (str_Z_three_digits z Hz)), Herr.
    split; [discriminate | congruence].
  - destruct (check_one_failed _ _ _ _ _ _ _ _ r w w' Hrun Hp)
      as (exc & elapsed & ->).
    simpl. rewrite isdigit_classify_error.
    split; [intros _; apply classify_error_nonempty | reflexivity].
Qed.

Lemma check_one_failure_row (hdr : HeadersModule) (env : Env) (u : string)
    (primary_headers : Headers) (primary_ua_label : string)
    (head_then_get : bool) (retries : Z) (safari_retry : bool)
    (r : CheckResult) (w w' : World) :
  http_statuses env ->
  _check_one hdr env u primary_headers primary_ua_label head_then_get retries
    safari_retry w = (Ok r, w') ->
  (failure_row r = true <->
   error r <> "" \/ soft_404 r = true
   \/ exists z, final_status_code r = str_Z z /\ 400 <= z <= 599).
Proof.
  intros Henv Hrun. unfold failure_row. rewrite orb_true_iff.
  pose proof (check_one_group _ _ _ _ _ _ _ _ r w w' Henv Hrun) as Hg.
  destruct (string_dec (error r) "") as [Herr|Herr].
  - destruct (check_one_numeric_status _ _ _ _ _ _ _ _ r w w' Henv Hrun Herr)
      as (z & Hf & Hz).
    rewrite Hf, (failure_group_str_Z z Hz). split.
    + intros [H|H]; [right; right; eauto | now right; left].
    + intros [H|[H|(z' & Hf' & Hz')]]; [contradiction | now right |].
      left. apply (failure_group_str_Z z Hz).
      assert (Heq : str_Z z = str_Z z') by congruence.
      rewrite Heq. apply (failure_group_str_Z z'); lia.
  - split; [intros _; now left|]. intros _. left.
    apply Hg in Herr. rewrite Herr. reflexivity.
Qed.

(** X12.  Under a network that answers with HTTP status codes, the rows
    the dashboard groups under Error are exactly the results with an
    error: the Errors count and the error breakdown speak of the same
    rows. *)
Theorem error_group_is_error_field (hdr : HeadersModule) (round1 : Q -> Q)
    (envs : nat -> Env) (urls : list string) (concurrency : Z) (timeout : Q)
    (follow_redirects head_then_get : bool) (retries : Z)
    (user_agent : string) (safari_retry : bool)
    (results : list CheckResult) :
  (forall i, http_statuses (envs i)) ->
  run_checks hdr round1 envs urls concurrency timeout follow_redirects
    head_then_get retries user_agent safari_retry = Returns results ->
  Forall (fun r => _group (final_status_code r) = "Error" <-> error r <> "")
    results.
Proof.
  intros Henv. apply run_results. intros i url_i hs label r w' Hr.
  exact (check_one_group hdr (envs i) url_i hs label head_then_get retries
           safari_retry r world0 w' (Henv i) Hr).
Qed.

(** X13.  Under a network that answers with HTTP status codes, a result
    is among the rows of the failures download exactly when it has an
    error, or is flagged as a soft 404, or has a final status from 400 to
    599. *)
Theorem failures_download_rows (hdr : HeadersModule) (round1 : Q -> Q)
    (envs : nat -> Env) (urls : list string) (concurrency : Z) (timeout : Q)
    (follow_redirects head_then_get : bool) (retries : Z)
    (user_agent : string) (safari_retry : bool)
    (results : list CheckResult) :
  (forall i, http_statuses (envs i)) ->
  run_checks hdr round1 envs urls concurrency timeout follow_redirects
    head_then_get retries user_agent safari_retry = Returns results ->
  Forall (fun r =>
            failure_row r = true <->
            error r <> "" \/ soft_404 r = true
            \/ exists z, final_status_code r = str_Z z /\ 400 <= z <= 599)
    results.
Proof.
  intros Henv. apply run_results. intros i url_i hs label r w' Hr.
  exact (check_one_failure_row hdr (envs i) url_i hs label head_then_get
           retries safari_retry r world0 w' (Henv i) Hr).
Qed.

Lemma http_statuses_timeout : http_statuses env_timeout.
Proof. intros hist rq rp dt H. inversion H. Qed.

Lemma http_statuses_missing_page : http_statuses env_missing_page.
Proof. intros hist rq rp dt H. inversion H. simpl. lia. Qed.

Lemma error_group_is_error_field_witness :
  exists r,
    run_checks demo_headers (fun q => q) (fun _ => env_timeout)
      ["http://example.org/"] 10 15 true true 1 "" true = Returns [r]
    /\ error r = "TIMEOUT"
    /\ Forall (fun r => _group (final_status_code r) = "Error" <-> error r <> "")
         [r].
Proof.
  eexists. split; [vm_compute; reflexivity|]. split; [reflexivity|].
  apply (error_group_is_error_field demo_headers (fun q => q)
           (fun _ => env_timeout) ["http://example.org/"] 10 15 true true 1 ""
           true).
  - intros i. apply http_statuses_timeout.
  - vm_compute. reflexivity.
Defined.

Lemma failures_download_rows_witness :
  exists r,
    run_checks demo_headers (fun q => q) (fun _ => env_missing_page)
      ["http://example.org/"] 10 15 true false 1 "" true = Returns [r]
    /\ final_status_code r = "200" /\ failure_row r = true
    /\ Forall (fun r =>
                 failure_row r = true <->
                 error r <> "" \/ soft_404 r = true
                 \/ exists z, final_status_code r = str_Z z /\ 400 <= z <= 599)
         [r].
Proof.
  eexists. split; [vm_compute; reflexivity|]. split; [reflexivity|].
  split; [reflexivity|].
  apply (failures_download_rows demo_headers (fun q => q)
           (fun _ => env_missing_page) ["http://example.org/"] 10 15 true
           false 1 "" true).
  - intros i. apply http_statuses_missing_page.
  - vm_compute. reflexivity.
Defined.

(** ** More on the resolver *)

(** X14.  [_strip_ns] cuts a tag after its first closing brace, so that a
    tag qualified by a namespace is read as its local name; a tag without
    a closing brace is left as it is. *)
Theorem strip_ns_local_name (tag : string) :
  (forall ns local,
     avoids "}" ns -> tag = ns +:+ String "}" local -> _strip_ns tag = local)
  /\ (avoids "}" tag -> _strip_ns tag = tag).
Proof.
  unfold _strip_ns. split.
  - intros ns local Hns ->.
    assert (H : after_first "}" (ns +:+ String "}" local) = Some local).
    { induction ns as [|a ns IH]; [reflexivity|].
      destruct Hns as [Ha Hns]. rewrite app_cons. simpl.
      destruct (Ascii.eqb_spec a "}"); [contradiction|]. now apply IH. }
    now rewrite H.
  - intros Htag.
    assert (H : after_first "}" tag = None).
    { induction tag as [|a tag IH]; [reflexivity|].
      destruct Htag as [Ha Htag]. simpl.
      destruct (Ascii.eqb_spec a "}"); [contradiction|]. now apply IH. }
    now rewrite H.
Qed.

Lemma strip_ns_local_name_witness :
  _strip_ns "{http://www.sitemaps.org/schemas/sitemap/0.9}urlset" = "urlset"
  /\ _strip_ns "sitemapindex" = "sitemapindex".
Proof.
  split.
  - apply (strip_ns_local_name
             "{http://www.sitemaps.org/schemas/sitemap/0.9}urlset")
      with (ns := "{http://www.sitemaps.org/schemas/sitemap/0.9");
      [|reflexivity].
    simpl. repeat split; discriminate.
  - apply (strip_ns_local_name "sitemapindex").
    simpl. repeat split; discriminate.
Defined.

Lemma decompress_if_gz_eq (web : Web) (data : bytes) :
  _decompress_if_gz web data
  = if has_gzip_magic data then gzip_decompress web data else inr data.
Proof.
  unfold _decompress_if_gz, has_gzip_magic.
  destruct data as [|b1 [|b2 rest]]; try reflexivity.
  - destruct b1; reflexivity.
  - destruct b1; try reflexivity. destruct b2; reflexivity.
Qed.

Lemma parse_xml_eq (web : Web) (data : bytes) :
  _parse_xml web data
  = etree_fromstring web (if has_bom data then drop 3 data else data).
Proof.
  unfold _parse_xml, has_bom.
  destruct data as [|b1 [|b2 [|b3 rest]]]; try reflexivity.
  - destruct b1; reflexivity.
  - destruct b1; try reflexivity. destruct b2; reflexivity.
  - destruct b1; try reflexivity. destruct b2; try reflexivity.
    destruct b3; reflexivity.
Qed.

(** The start of [parse_sitemap] on raw bytes: the call is recorded, the
    user agent made up, and the bytes go to [_decompress_if_gz]. *)
Lemma parse_sitemap_bytes (web : Web) (hdr : HeadersModule) (data : bytes)
    (user_agent : string) (_depth : Z) (s : Run_state) :
  (user_agent = "" ->
   is_Some (dict_get (UA_PRESETS hdr) "Chrome macOS (default)")) ->
  exists ua,
    (if String.eqb user_agent ""
     then dict_get (UA_PRESETS hdr) "Chrome macOS (default)" = Some ua
     else ua = user_agent)
    /\ parse_sitemap web hdr (Bytes data) user_agent _depth s
       = bindR (liftR (_decompress_if_gz web data))
           (fun raw =>
              match _parse_xml web raw with
              | inl exc =>
                  bindR (progress_callback
                           ("XML parse error: " +:+ exc_str exc))
                    (fun _ => retR [])
              | inr None =>
                  bindR (progress_callback
                           "XML parse returned empty document – check the sitemap source.")
                    (fun _ => retR [])
              | inr (Some root) =>
                  let root_tag := _strip_ns (el_tag root) in
                  if String.eqb root_tag "sitemapindex" then
                    bindR (index_outer
                             (fun src ua d =>
                                parse_sitemap_fuel
                                  (Z.to_nat (_MAX_DEPTH - _depth)) web hdr
                                  src ua d)
                             _depth ua ([], ∅) (el_children root))
                      (fun acc => retR (fst acc))
                  else if String.eqb root_tag "urlset" then
                    retR (urlset_outer root)
                  else
                    bindR (progress_callback
                             ("⚠️ Unknown root element: <" +:+ root_tag
                              +:+ ">"))
                      (fun _ => retR [])
              end)
           (mkRun_state (visited s) (messages s) (fetched s)
              (calls s ++ [_depth])).
Proof.
  intros Hua. unfold parse_sitemap, enough_fuel. cbn [parse_sitemap_fuel].
  unfold parse_sitemap_body.
  destruct (String.eqb_spec user_agent "") as [He|_].
  - destruct (Hua He) as [ua Hd]. rewrite Hd. exists ua. split; reflexivity.
  - exists user_agent. split; reflexivity.
Qed.

(** X15.  A payload that begins with the gzip magic number and does not
    decompress makes [parse_sitemap] raise the error of the
    decompression: it is not turned into an empty result, whether the
    payload is given as bytes or fetched from a URL not visited yet. *)
Theorem corrupt_gzip_raises (web : Web) (hdr : HeadersModule)
    (source : Source) (data : bytes) (exc : Exception)
    (user_agent : string) (_depth : Z) (s : Run_state) :
  (user_agent = "" ->
   is_Some (dict_get (UA_PRESETS hdr) "Chrome macOS (default)")) ->
  has_gzip_magic data = true ->
  gzip_decompress web data = inl exc ->
  match source with
  | Bytes given => given = data
  | Url x =>
      (Py.strip x ∉ visited s)
      /\ forall hs, http_get web (fetched s) (Py.strip x) hs = inr data
  end ->
  exists s',
    parse_sitemap web hdr source user_agent _depth s = Some (Raised exc, s').
Proof.
  intros Hua Hmagic Hgz Hsrc.
  assert (Hdec : _decompress_if_gz web data = inl exc)
    by (now rewrite decompress_if_gz_eq, Hmagic).
  destruct source as [given|x].
  - subst given.
    destruct (parse_sitemap_bytes web hdr data user_agent _depth s Hua)
      as (ua & _ & ->).
    unfold bindR, liftR. rewrite Hdec. simpl. eauto.
  - destruct Hsrc as [Hnew Hget].
    unfold parse_sitemap, enough_fuel. cbn [parse_sitemap_fuel].
    unfold parse_sitemap_body.
    destruct (resolve_user_agent hdr user_agent Hua) as [ua ->].
    unfold bindR at 1. unfold enter_call at 1. rewrite bindR_retR_l.
    unfold bindR at 1. unfold obtain_raw. rewrite bindR_visited_contains.
    simpl visited. rewrite bool_decide_eq_false_2 by exact Hnew.
    unfold bindR, visited_add, progress_callback, fetch, retR, liftR. simpl.
    rewrite Hget, Hdec. simpl. eauto.
Qed.

Lemma corrupt_gzip_raises_witness :
  exists s',
    parse_sitemap demo_web demo_headers (Bytes [Byte.x1f; Byte.x8b]) "" 0
      fresh_run
    = Some (Raised (mkException "BadGzipFile" "not a gzip file"), s').
Proof.
  apply (corrupt_gzip_raises demo_web demo_headers
           (Bytes [Byte.x1f; Byte.x8b]) [Byte.x1f; Byte.x8b]).
  - intros _. eexists. reflexivity.
  - reflexivity.
  - reflexivity.
  - reflexivity.
Defined.

(** X16.  A byte order mark before a document changes nothing: when
    [data] begins neither with the gzip magic number nor with a mark of
    its own, the mark followed by [data] resolves as [data] does. *)
Theorem byte_order_mark_is_skipped (web : Web) (hdr : HeadersModule)
    (data : bytes) (user_agent : string) (_depth : Z) (s : Run_state) :
  has_gzip_magic data = false ->
  has_bom data = false ->
  parse_sitemap web hdr
    (Bytes (Byte.xef :: Byte.xbb :: Byte.xbf :: data)) user_agent _depth s
  = parse_sitemap web hdr (Bytes data) user_agent _depth s.
Proof.
  intros Hmagic Hbom.
  unfold parse_sitemap, enough_fuel. cbn [parse_sitemap_fuel].
  unfold parse_sitemap_body.
  apply bindR_ext; [reflexivity|]. intros _ s0.
  apply bindR_ext; [reflexivity|]. intros ua s1.
  unfold obtain_raw. rewrite !bindR_retR_l.
  assert (Hd1 : _decompress_if_gz web (Byte.xef :: Byte.xbb :: Byte.xbf :: data)
                = inr (Byte.xef :: Byte.xbb :: Byte.xbf :: data))
    by reflexivity.
  assert (Hd2 : _decompress_if_gz web data = inr data)
    by (now rewrite decompress_if_gz_eq, Hmagic).
  rewrite Hd1, Hd2. unfold liftR. rewrite !bindR_retR_l.
  assert (Hx : _parse_xml web (Byte.xef :: Byte.xbb :: Byte.xbf :: data)
               = _parse_xml web data).
  { rewrite (parse_xml_eq web data), Hbom. reflexivity. }
  now rewrite Hx.
Qed.

Lemma byte_order_mark_is_skipped_witness :
  parse_sitemap demo_web demo_headers
    (Bytes [Byte.xef; Byte.xbb; Byte.xbf; Byte.x04]) "" 0 fresh_run
  = parse_sitemap demo_web demo_headers (Bytes [Byte.x04]) "" 0 fresh_run.
Proof.
  apply (byte_order_mark_is_skipped demo_web demo_headers [Byte.x04]);
    reflexivity.
Defined.

Section AtTheBound.

Context (self : Source -> string -> Z -> R (list string)).
Context (_depth : Z) (Hdeep : _MAX_DEPTH <= _depth).



End AtTheBound.



Lemma bindR_raised {A B} (c : R A) (k : A -> R B) (s : Run_state)
    (e : Exception) (s' : Run_state) :
  bindR c k s = Some (Raised e, s') ->
  c s = Some (Raised e, s')
  \/ exists a s1, c s = Some (Ok a, s1) /\ k a s1 = Some (Raised e, s').
Proof.
  unfold bindR. destruct (c s) as [[[a|e0] s1]|]; [eauto | | discriminate].
  intros H. inversion H; subst. now left.
Qed.

(** ** Documents with nodes that are not elements *)

Lemma strip_ns_tag_node_of (lx : Lxml) (e : Element) :
  strip_ns_tag lx (node_of e) = inr (_strip_ns (el_tag e)).
Proof. now destruct e. Qed.

Lemma truthy_node_text_node_of (e : Element) :
  truthy_node_text (node_of e) = truthy_text e.
Proof. destruct e as [tag [[|c t]|] children]; reflexivity. Qed.

Lemma child_nodes_node_of (e : Element) :
  child_nodes (node_of e) = map node_of (el_children e).
Proof. now destruct e. Qed.

Lemma urlset_inner_nodes_of (lx : Lxml) (els : list Element)
    (acc : list string * gset string) :
  urlset_inner_nodes lx acc (map node_of els) = inr (urlset_inner acc els).
Proof.
  unfold urlset_inner. revert acc.
  induction els as [|e els IH]; intros acc; [reflexivity|].
  simpl. rewrite strip_ns_tag_node_of, truthy_node_text_node_of. apply IH.
Qed.

Lemma urlset_outer_nodes_of (lx : Lxml) (root : Element) :
  urlset_outer_nodes lx ([], ∅) (child_nodes (node_of root))
  = inr (foldl (fun acc url_el =>
                  if String.eqb (_strip_ns (el_tag url_el)) "url"
                  then urlset_inner acc (el_children url_el)
                  else acc) ([], ∅) (el_children root)).
Proof.
  rewrite child_nodes_node_of. generalize (([], ∅) : list string * gset string).
  induction (el_children root) as [|e els IH]; intros acc; [reflexivity|].
  simpl. rewrite strip_ns_tag_node_of.
  destruct (String.eqb (_strip_ns (el_tag e)) "url"); [|apply IH].
  rewrite child_nodes_node_of, urlset_inner_nodes_of. apply IH.
Qed.

Section Elements.

Context (lx : Lxml).
Context (self1 self2 : Source -> string -> Z -> R (list string)).
Context (_depth : Z).
Context (Hagree : forall src ua d s, self1 src ua d s = self2 src ua d s).

Lemma index_inner_nodes_of (user_agent : string) (els : list Element)
    (acc : list string * gset string) (s : Run_state) :
  index_inner_nodes lx self1 _depth user_agent acc (map node_of els) s
  = index_inner self2 _depth user_agent acc els s.
Proof.
  revert acc s. induction els as [|e els IH]; intros acc s; [reflexivity|].
  cbn [map index_inner_nodes index_inner].
  apply bindR_ext; [|intros a s'; apply IH].
  rewrite strip_ns_tag_node_of, truthy_node_text_node_of. cbn [liftR].
  rewrite bindR_retR_l.
  destruct (String.eqb (_strip_ns (el_tag e)) "loc"); [|reflexivity].
  destruct (truthy_text e) as [t|]; [|reflexivity].
  rewrite !bindR_visited_contains.
  destruct ((_depth + 1 <=? _MAX_DEPTH) && negb _); [|reflexivity].
  apply bindR_ext; [apply Hagree | reflexivity].
Qed.

Lemma index_outer_nodes_of (user_agent : string) (els : list Element)
    (acc : list string * gset string) (s : Run_state) :
  index_outer_nodes lx self1 _depth user_agent acc (map node_of els) s
  = index_outer self2 _depth user_agent acc els s.
Proof.
  revert acc s. induction els as [|e els IH]; intros acc s; [reflexivity|].
  cbn [map index_outer_nodes index_outer].
  apply bindR_ext; [|intros a s'; apply IH].
  rewrite strip_ns_tag_node_of. cbn [liftR]. rewrite bindR_retR_l.
  destruct (String.eqb (_strip_ns (el_tag e)) "sitemap"); [|reflexivity].
  rewrite child_nodes_node_of. apply index_inner_nodes_of.
Qed.

End Elements.

Lemma parse_sitemap_body_nodes_of (web : Web) (msg : string)
    (hdr : HeadersModule)
    (self1 self2 : Source -> string -> Z -> R (list string)) (_depth : Z)
    (source : Source) (user_agent : string) (s : Run_state) :
  (forall src ua d s, self1 src ua d s = self2 src ua d s) ->
  parse_sitemap_body_nodes web (lxml_of web msg) hdr self1 _depth source
    user_agent s
  = parse_sitemap_body web hdr self2 _depth source user_agent s.
Proof.
  intros Hagree. unfold parse_sitemap_body_nodes, parse_sitemap_body.
  apply bindR_ext; [reflexivity|]. intros _ s0.
  apply bindR_ext; [reflexivity|]. intros ua s1.
  apply bindR_ext; [reflexivity|]. intros [raw|] s2; [|reflexivity].
  apply bindR_ext; [reflexivity|]. intros raw' s3.
  assert (Hparse : _parse_xml_nodes (lxml_of web msg) raw'
                   = match _parse_xml web raw' with
                     | inl exc => inl exc
                     | inr root => inr (node_of <$> root)
                     end) by reflexivity.
  rewrite Hparse.
  destruct (_parse_xml web raw') as [exc|[root|]]; try reflexivity.
  cbn [fmap option_fmap option_map].
  rewrite strip_ns_tag_node_of. cbn [liftR]. rewrite bindR_retR_l.
  destruct (String.eqb (_strip_ns (el_tag root)) "sitemapindex").
  - rewrite child_nodes_node_of.
    apply bindR_ext; [now apply index_outer_nodes_of | reflexivity].
  - destruct (String.eqb (_strip_ns (el_tag root)) "urlset"); [|reflexivity].
    rewrite urlset_outer_nodes_of. reflexivity.
Qed.

(** On the documents whose nodes are all elements, the two descriptions
    of [parse_sitemap] are one. *)
Lemma parse_sitemap_nodes_of_elements (web : Web) (msg : string)
    (hdr : HeadersModule) (source : Source) (user_agent : string)
    (_depth : Z) (s : Run_state) :
  parse_sitemap_nodes web (lxml_of web msg) hdr source user_agent _depth s
  = parse_sitemap web hdr source user_agent _depth s.
Proof.
  unfold parse_sitemap_nodes, parse_sitemap.
  generalize (enough_fuel _depth) as fuel. intros fuel.
  revert source user_agent _depth s.
  induction fuel as [|fuel IH]; intros source user_agent _depth s;
    [reflexivity|].
  simpl. apply parse_sitemap_body_nodes_of. intros src ua d s0. apply IH.
Qed.

Lemma other_grandchild (children : list Node) :
  forallb (fun n => match n with
                    | OtherNode => false
                    | ElementNode _ _ _ => true
                    end) children = false
  <-> OtherNode ∈ children.
Proof.
  induction children as [|n ns IH]; simpl.
  - split; [discriminate | intros H; inversion H].
  - destruct n as [tag text cs|]; simpl.
    + rewrite IH. split; [intros H; now right|].
      intros H. inversion H; subst. assumption.
    + split; [intros _; left | reflexivity].
Qed.

(** A [TypeError] of the loops comes from a node that is not an
    element. *)
Lemma urlset_inner_nodes_raises (lx : Lxml) (els : list Node)
    (acc : list string * gset string) (e : Exception) :
  urlset_inner_nodes lx acc els = inl e ->
  e = TypeError_tag lx /\ OtherNode ∈ els.
Proof.
  revert acc. induction els as [|n ns IH]; intros acc; [discriminate|].
  simpl. destruct n as [tag text cs|]; simpl.
  - intros H. apply IH in H as [-> H]. split; [reflexivity | now right].
  - intros H. inversion H. split; [reflexivity | left].
Qed.

Lemma urlset_outer_nodes_raises (lx : Lxml) (els : list Node)
    (acc : list string * gset string) (e : Exception) :
  urlset_outer_nodes lx acc els = inl e ->
  e = TypeError_tag lx
  /\ reads_only_elements (ElementNode "" None els) = false.
Proof.
  revert acc. induction els as [|n ns IH]; intros acc; [discriminate|].
  simpl. destruct n as [tag text cs|]; simpl.
  - destruct (String.eqb (_strip_ns tag) "url").
    + destruct (urlset_inner_nodes lx acc cs) as [exc|acc'] eqn:Hin.
      * intros H. inversion H; subst exc.
        apply urlset_inner_nodes_raises in Hin as [-> Hin].
        split; [reflexivity|]. apply other_grandchild in Hin.
        now rewrite Hin.
      * intros H. apply IH in H as [-> H]. split; [reflexivity|].
        simpl in H. rewrite H. apply andb_false_r.
    + intros H. apply IH in H as [-> H]. split; [reflexivity|].
      simpl in H. rewrite H. apply andb_false_r.
  - intros H. inversion H. split; reflexivity.
Qed.

Section RaisesNodes.

Context (web : Web) (lx : Lxml) (hdr : HeadersModule).
Context (self : Source -> string -> Z -> R (list string)).
Context (_depth : Z).
Context (Hself : forall src ua d s e s',
           self src ua d s = Some (Raised e, s') ->
           resolver_error web lx hdr e).

Lemma index_inner_nodes_raises (user_agent : string) (els : list Node)
    (acc : list string * gset string) (s : Run_state) (e : Exception)
    (s' : Run_state) :
  index_inner_nodes lx self _depth user_agent acc els s
  = Some (Raised e, s') ->
  resolver_error web lx hdr e \/ (e = TypeError_tag lx /\ OtherNode ∈ els).
Proof.
  revert acc s. induction els as [|el els IH]; intros acc s; [discriminate|].
  cbn [index_inner_nodes]. intros H.
  apply bindR_raised in H as [H|(acc' & s1 & _ & H)].
  2: { apply IH in H as [H|[-> H]]; [now left | right].
       split; [reflexivity | now right]. }
  destruct el as [tag text cs|]; cbn [strip_ns_tag liftR] in H.
  2: { inversion H. right. split; [reflexivity | left]. }
  rewrite bindR_retR_l in H.
  destruct (String.eqb (_strip_ns tag) "loc"); [|discriminate H].
  destruct (truthy_node_text _) as [t|]; [|discriminate H].
  rewrite bindR_visited_contains in H.
  destruct ((_depth + 1 <=? _MAX_DEPTH) && negb _); [|discriminate H].
  apply bindR_raised in H as [H|(l & s1 & _ & H)]; [|discriminate H].
  left. now apply Hself in H.
Qed.

Lemma index_outer_nodes_raises (user_agent : string) (els : list Node)
    (acc : list string * gset string) (s : Run_state) (e : Exception)
    (s' : Run_state) :
  index_outer_nodes lx self _depth user_agent acc els s
  = Some (Raised e, s') ->
  resolver_error web lx hdr e
  \/ (e = TypeError_tag lx
      /\ reads_only_elements (ElementNode "" None els) = false).
Proof.
  revert acc s. induction els as [|el els IH]; intros acc s; [discriminate|].
  cbn [index_outer_nodes]. intros H.
  apply bindR_raised in H as [H|(acc' & s1 & _ & H)].
  2: { apply IH in H as [H|[-> H]]; [now left | right].
       split; [reflexivity|]. simpl in *. rewrite H. apply andb_false_r. }
  destruct el as [tag text cs|]; cbn [strip_ns_tag liftR] in H.
  2: { inversion H. right. split; reflexivity. }
  rewrite bindR_retR_l in H.
  destruct (String.eqb (_strip_ns tag) "sitemap"); [|discriminate H].
  apply index_inner_nodes_raises in H as [H|[-> H]]; [now left | right].
  split; [reflexivity|]. apply other_grandchild in H. simpl.
  cbn [child_nodes] in H. now rewrite H.
Qed.

Lemma parse_sitemap_body_nodes_raises (source : Source) (user_agent : string)
    (s : Run_state) (e : Exception) (s' : Run_state) :
  parse_sitemap_body_nodes web lx hdr self _depth source user_agent s
  = Some (Raised e, s') ->
  resolver_error web lx hdr e.
Proof.
  unfold parse_sitemap_body_nodes. intros H.
  apply bindR_raised in H as [H|([] & s0 & _ & H)]; [discriminate H|].
  apply bindR_raised in H as [H|(ua & s1 & _ & H)].
  { destruct (String.eqb user_agent ""); [|discriminate H].
    destruct (dict_get _ _) eqn:Hd; [discriminate H|].
    inversion H. now left. }
  apply bindR_raised in H as [H|(got & s2 & _ & H)].
  { destruct (obtain_raw_grows web _depth (make_headers hdr ua) source s1)
      as (o & s2 & Ho & _). rewrite Ho in H. discriminate H. }
  destruct got as [raw|]; [|discriminate H].
  apply bindR_raised in H as [H|(raw' & s3 & _ & H)].
  { rewrite decompress_if_gz_eq in H.
    destruct (has_gzip_magic raw) eqn:Hm; [|discriminate H].
    destruct (gzip_decompress web raw) as [exc|raw'] eqn:Hgz; [|discriminate H].
    inversion H; subst. right. left. eauto. }
  destruct (_parse_xml_nodes lx raw') as [exc|[root|]] eqn:Hparse;
    try discriminate H.
  assert (Hdoc : exists data, fromstring lx data = inr (Some root))
    by (unfold _parse_xml_nodes in Hparse; eauto).
  destruct Hdoc as [data Hdoc].
  assert (Hother : reads_only_elements root = false ->
                   e = TypeError_tag lx -> resolver_error web lx hdr e)
    by (intros Hr He; right; right; eauto).
  destruct root as [tag text children|]; cbn [strip_ns_tag liftR] in H.
  2: { unfold bindR, raiseR in H. injection H as He Hs.
       apply Hother; [reflexivity | now symmetry]. }
  rewrite bindR_retR_l in H. cbn [child_nodes] in H.
  destruct (String.eqb (_strip_ns tag) "sitemapindex").
  - apply bindR_raised in H as [H|(acc & s4 & _ & H)]; [|discriminate H].
    apply index_outer_nodes_raises in H as [H|[He H]]; [exact H|].
    now apply Hother.
  - destruct (String.eqb (_strip_ns tag) "urlset"); [|discriminate H].
    apply bindR_raised in H as [H|(acc & s4 & _ & H)]; [|discriminate H].
    destruct (urlset_outer_nodes lx _ children) as [exc|acc] eqn:Hout;
      [|discriminate H].
    inversion H; subst exc.
    apply urlset_outer_nodes_raises in Hout as [He Hout].
    now apply Hother.
Qed.

End RaisesNodes.

(** X18.  [parse_sitemap] raises in three cases only, at whatever depth
    of the resolution they arise: the default preset is missing when no
    user agent is given; a payload that begins with the gzip magic number
    does not decompress; or a document has, where the resolver reads a
    tag, a node that is not an element (a processing instruction or an
    entity reference), and the exception is then the [TypeError] of
    [_strip_ns].  A fetch that fails, a document that does not parse and
    an unknown root never make it raise. *)
Theorem parse_sitemap_raises_only (web : Web) (lx : Lxml)
    (hdr : HeadersModule) (source : Source) (user_agent : string)
    (_depth : Z) (s : Run_state) (e : Exception) (s' : Run_state) :
  parse_sitemap_nodes web lx hdr source user_agent _depth s
  = Some (Raised e, s') ->
  (e = KeyError_default
   /\ dict_get (UA_PRESETS hdr) "Chrome macOS (default)" = None)
  \/ (exists data,
        has_gzip_magic data = true /\ gzip_decompress web data = inl e)
  \/ (e = TypeError_tag lx
      /\ exists data root,
           fromstring lx data = inr (Some root)
           /\ reads_only_elements root = false).
Proof.
  unfold parse_sitemap_nodes. generalize (enough_fuel _depth) as fuel.
  intros fuel. revert source user_agent _depth s e s'.
  induction fuel as [|fuel IH]; intros source user_agent _depth s e s';
    [discriminate|].
  simpl. apply parse_sitemap_body_nodes_raises.
  intros src ua d s0 e0 s0'. apply IH.
Qed.

Lemma parse_sitemap_raises_only_witness :
  exists e s',
    parse_sitemap_nodes demo_web demo_lxml demo_headers
      (Bytes [Byte.x1f; Byte.x8b]) "" 0 fresh_run = Some (Raised e, s')
    /\ exc_type e = "BadGzipFile"
    /\ ((e = KeyError_default
         /\ dict_get (UA_PRESETS demo_headers) "Chrome macOS (default)" = None)
        \/ (exists data,
              has_gzip_magic data = true
              /\ gzip_decompress demo_web data = inl e)
        \/ (e = TypeError_tag demo_lxml
            /\ exists data root,
                 fromstring demo_lxml data = inr (Some root)
                 /\ reads_only_elements root = false)).
Proof.
  destruct (parse_sitemap_nodes demo_web demo_lxml demo_headers
              (Bytes [Byte.x1f; Byte.x8b]) "" 0 fresh_run)
    as [[[l|e] s']|] eqn:Hrun;
    [vm_compute in Hrun; discriminate Hrun | | vm_compute in Hrun;
     discriminate Hrun].
  exists e, s'. split; [reflexivity|]. split.
  - vm_compute in Hrun. now injection Hrun as <- _.
  - exact (parse_sitemap_raises_only demo_web demo_lxml demo_headers
             (Bytes [Byte.x1f; Byte.x8b]) "" 0 fresh_run e s' Hrun).
Defined.

(** In a [urlset], a node that is not an element among the children of
    the root ends the loops with the [TypeError], whatever the loops
    collected before it. *)
Lemma urlset_outer_nodes_other (lx : Lxml) (els : list Node)
    (acc : list string * gset string) :
  OtherNode ∈ els ->
  urlset_outer_nodes lx acc els = inl (TypeError_tag lx).
Proof.
  revert acc. induction els as [|n ns IH]; intros acc Hin;
    [inversion Hin|].
  simpl. destruct n as [tag text cs|]; simpl; [|reflexivity].
  assert (Hns : OtherNode ∈ ns) by (inversion Hin; subst; assumption).
  destruct (String.eqb (_strip_ns tag) "url"); [|now apply IH].
  destruct (urlset_inner_nodes lx acc cs) as [exc|acc'] eqn:Hinner;
    [|now apply IH].
  apply urlset_inner_nodes_raises in Hinner as [-> _]. reflexivity.
Qed.

(** X22.  A processing instruction or an entity reference among the
    children of a [urlset] root makes [parse_sitemap] raise the
    [TypeError] of [_strip_ns]: the URLs of the document are not returned,
    neither those before the node nor those after it. *)
Theorem urlset_with_other_node_raises (web : Web) (lx : Lxml)
    (hdr : HeadersModule) (data raw : bytes) (tag : string)
    (text : option string) (children : list Node) (user_agent : string)
    (_depth : Z) (s : Run_state) :
  (user_agent = "" ->
   is_Some (dict_get (UA_PRESETS hdr) "Chrome macOS (default)")) ->
  _decompress_if_gz web data = inr raw ->
  _parse_xml_nodes lx raw = inr (Some (ElementNode tag text children)) ->
  _strip_ns tag = "urlset" ->
  OtherNode ∈ children ->
  parse_sitemap_nodes web lx hdr (Bytes data) user_agent _depth s
  = Some (Raised (TypeError_tag lx),
          mkRun_state (visited s) (messages s) (fetched s)
            (calls s ++ [_depth])).
Proof.
  intros Hua Hgz Hparse Htag Hin.
  unfold parse_sitemap_nodes, enough_fuel. cbn [parse_sitemap_nodes_fuel].
  unfold parse_sitemap_body_nodes.
  unfold bindR at 1. unfold enter_call at 1.
  assert (Hagent : exists ua,
    (if String.eqb user_agent "" then
       match dict_get (UA_PRESETS hdr) "Chrome macOS (default)" with
       | Some ua => retR ua
       | None => raiseR (mkException "KeyError" "'Chrome macOS (default)'")
       end
     else retR user_agent) = retR ua).
  { destruct (String.eqb_spec user_agent "") as [->|_]; [|eauto].
    destruct (Hua eq_refl) as [ua ->]. eauto. }
  destruct Hagent as [ua ->]. rewrite bindR_retR_l.
  cbn [obtain_raw]. rewrite bindR_retR_l. rewrite Hgz. cbn [liftR].
  rewrite bindR_retR_l, Hparse. cbn [strip_ns_tag liftR].
  rewrite bindR_retR_l, Htag. cbn [child_nodes].
  rewrite (urlset_outer_nodes_other lx children _ Hin). reflexivity.
Qed.

Lemma urlset_with_other_node_raises_witness :
  parse_sitemap_nodes demo_web demo_lxml demo_headers (Bytes [Byte.x05]) "" 0
    fresh_run
  = Some (Raised (mkException "TypeError" "not iterable"),
          mkRun_state ∅ [] [] [0]).
Proof.
  apply (urlset_with_other_node_raises demo_web demo_lxml demo_headers
           [Byte.x05] [Byte.x05] "urlset" None
           [ElementNode "url" None [ElementNode "loc" (Some "/a") []];
            OtherNode;
            ElementNode "url" None [ElementNode "loc" (Some "/b") []]]
           "" 0 fresh_run).
  - intros _. vm_compute. eauto.
  - reflexivity.
  - reflexivity.
  - reflexivity.
  - apply list_elem_of_here || (right; left).
Defined.

(** ** White space *)

Lemma rstrip_idem (s : string) : Py.rstrip (Py.rstrip s) = Py.rstrip s.
Proof.
  induction s as [|c s IH]; [reflexivity|]. simpl.
  destruct (Py.rstrip s) as [|c' r] eqn:Hr.
  - destruct (Py.is_space c) eqn:Hc; [reflexivity|]. simpl. now rewrite Hc.
  - simpl. simpl in IH. now rewrite IH.
Qed.

Lemma lstrip_starts_clean (s : string) : starts_clean (Py.lstrip s).
Proof.
  induction s as [|c s IH]; [exact I|]. simpl.
  destruct (Py.is_space c) eqn:Hc; [exact IH | exact Hc].
Qed.

Lemma lstrip_clean (s : string) : starts_clean s -> Py.lstrip s = s.
Proof. destruct s as [|c s]; [reflexivity|]. simpl. now intros ->. Qed.

Lemma rstrip_starts_clean (s : string) :
  starts_clean s -> starts_clean (Py.rstrip s).
Proof.
  destruct s as [|c s]; [exact id|]. simpl. intros Hc.
  destruct (Py.rstrip s); [now rewrite Hc | exact Hc].
Qed.

Lemma strip_idem (s : string) : Py.strip (Py.strip s) = Py.strip s.
Proof.
  unfold Py.strip.
  rewrite (lstrip_clean (Py.rstrip (Py.lstrip s)))
    by apply rstrip_starts_clean, lstrip_starts_clean.
  apply rstrip_idem.
Qed.

(** ** What the resolver returns *)

Lemma bindR_returned {A B} (c : R A) (k : A -> R B) (s : Run_state)
    (b : B) (s' : Run_state) :
  bindR c k s = Some (Ok b, s') ->
  exists a s1, c s = Some (Ok a, s1) /\ k a s1 = Some (Ok b, s').
Proof.
  unfold bindR. destruct (c s) as [[[a|e0] s1]|]; [eauto | |]; discriminate.
Qed.

Section Returned.

Context (Q : string -> Prop) (HQ : forall t, Q (Py.strip t)).

Lemma note_url_Forall (acc : list string * gset string) (x : string) :
  Forall Q (fst acc) -> Q x -> Forall Q (fst (note_url acc x)).
Proof.
  destruct acc as [urls seen]. unfold note_url. intros Hacc Hx.
  destruct (bool_decide (x ∈ seen)); [exact Hacc|]. simpl.
  apply Forall_app. split; [exact Hacc | now constructor].
Qed.

Lemma foldl_note_url_Forall (l : list string)
    (acc : list string * gset string) :
  Forall Q (fst acc) -> Forall Q l -> Forall Q (fst (foldl note_url acc l)).
Proof.
  revert acc. induction l as [|x l IH]; intros acc Hacc Hl; [exact Hacc|].
  inversion Hl; subst. simpl. apply IH; [|assumption].
  now apply note_url_Forall.
Qed.

Lemma urlset_inner_Forall (els : list Element)
    (acc : list string * gset string) :
  Forall Q (fst acc) -> Forall Q (fst (urlset_inner acc els)).
Proof.
  unfold urlset_inner. revert acc.
  induction els as [|e els IH]; intros acc Hacc; [exact Hacc|].
  simpl. apply IH.
  destruct (String.eqb (_strip_ns (el_tag e)) "loc"); [|exact Hacc].
  destruct (truthy_text e) as [t|]; [|exact Hacc].
  apply note_url_Forall; [exact Hacc | apply HQ].
Qed.

Lemma urlset_outer_Forall (root : Element) : Forall Q (urlset_outer root).
Proof.
  unfold urlset_outer.
  assert (H : forall els (acc : list string * gset string),
    Forall Q (fst acc) ->
    Forall Q (fst (foldl (fun acc url_el =>
                            if String.eqb (_strip_ns (el_tag url_el)) "url"
                            then urlset_inner acc (el_children url_el)
                            else acc) acc els))).
  { induction els as [|e els IH]; intros acc Hacc; [exact Hacc|].
    simpl. apply IH.
    destruct (String.eqb (_strip_ns (el_tag e)) "url"); [|exact Hacc].
    now apply urlset_inner_Forall. }
  apply H. constructor.
Qed.

Context (self : Source -> string -> Z -> R (list string)).
Context (_depth : Z).
Context (Hself : forall src ua d s l s',
           self src ua d s = Some (Ok l, s') -> Forall Q l).

Lemma index_inner_Forall (user_agent : string) (els : list Element)
    (acc acc' : list string * gset string) (s s' : Run_state) :
  Forall Q (fst acc) ->
  index_inner self _depth user_agent acc els s = Some (Ok acc', s') ->
  Forall Q (fst acc').
Proof.
  revert acc s. induction els as [|e els IH]; intros acc s Hacc.
  - intros H. inversion H; subst. exact Hacc.
  - cbn [index_inner]. intros H.
    apply bindR_returned in H as (acc1 & s1 & Hstep & H).
    apply (IH acc1 s1); [|exact H]. clear H IH.
    destruct (String.eqb (_strip_ns (el_tag e)) "loc");
      [|inversion Hstep; subst; exact Hacc].
    destruct (truthy_text e) as [t|]; [|inversion Hstep; subst; exact Hacc].
    rewrite bindR_visited_contains in Hstep.
    destruct ((_depth + 1 <=? _MAX_DEPTH) && negb _);
      [|inversion Hstep; subst; exact Hacc].
    apply bindR_returned in Hstep as (l & s2 & Hc & Hstep).
    inversion Hstep; subst. apply foldl_note_url_Forall; [exact Hacc|].
    eapply Hself, Hc.
Qed.

Lemma index_outer_Forall (user_agent : string) (els : list Element)
    (acc acc' : list string * gset string) (s s' : Run_state) :
  Forall Q (fst acc) ->
  index_outer self _depth user_agent acc els s = Some (Ok acc', s') ->
  Forall Q (fst acc').
Proof.
  revert acc s. induction els as [|e els IH]; intros acc s Hacc.
  - intros H. inversion H; subst. exact Hacc.
  - cbn [index_outer]. intros H.
    apply bindR_returned in H as (acc1 & s1 & Hstep & H).
    apply (IH acc1 s1); [|exact H].
    destruct (String.eqb (_strip_ns (el_tag e)) "sitemap");
      [|inversion Hstep; subst; exact Hacc].
    eapply index_inner_Forall; eassumption.
Qed.

Lemma parse_sitemap_body_Forall (web : Web) (hdr : HeadersModule)
    (source : Source) (user_agent : string) (s : Run_state)
    (l : list string) (s' : Run_state) :
  parse_sitemap_body web hdr self _depth source user_agent s
  = Some (Ok l, s') ->
  Forall Q l.
Proof.
  unfold parse_sitemap_body. intros H.
  apply bindR_returned in H as ([] & s0 & _ & H).
  apply bindR_returned in H as (ua & s1 & _ & H).
  apply bindR_returned in H as (got & s2 & _ & H).
  destruct got as [raw|]; [|inversion H; constructor].
  apply bindR_returned in H as (raw' & s3 & _ & H).
  destruct (_parse_xml web raw') as [exc|[root|]];
    try (apply bindR_returned in H as (? & ? & _ & H); inversion H; constructor).
  destruct (String.eqb (_strip_ns (el_tag root)) "sitemapindex").
  - apply bindR_returned in H as (acc & s4 & Hix & H). inversion H; subst.
    eapply index_outer_Forall; [|exact Hix]. constructor.
  - destruct (String.eqb (_strip_ns (el_tag root)) "urlset").
    + inversion H; subst. apply urlset_outer_Forall.
    + apply bindR_returned in H as (? & ? & _ & H). inversion H. constructor.
Qed.

End Returned.

(** X19.  Every URL [parse_sitemap] returns is free of white space at
    both ends: stripping it again changes nothing. *)
Theorem parse_sitemap_urls_are_stripped (web : Web) (hdr : HeadersModule)
    (source : Source) (user_agent : string) (_depth : Z) (s : Run_state)
    (l : list string) (s' : Run_state) :
  parse_sitemap web hdr source user_agent _depth s = Some (Ok l, s') ->
  Forall (fun x => Py.strip x = x) l.
Proof.
  unfold parse_sitemap. generalize (enough_fuel _depth) as fuel.
  intros fuel. revert source user_agent _depth s l s'.
  induction fuel as [|fuel IH]; intros source user_agent _depth s l s';
    [discriminate|].
  simpl. apply parse_sitemap_body_Forall; [apply strip_idem|].
  intros src ua d s0 l0 s0'. apply IH.
Qed.

Lemma parse_sitemap_urls_are_stripped_witness :
  exists l s',
    parse_sitemap demo_web demo_headers (Url " index.xml ") "" 0 fresh_run
    = Some (Ok l, s')
    /\ l = ["/a"; "/b"; "/c"]
    /\ Forall (fun x => Py.strip x = x) l.
Proof.
  destruct (parse_sitemap demo_web demo_headers (Url " index.xml ") "" 0
              fresh_run) as [[[l|e] s']|] eqn:Hrun;
    [|vm_compute in Hrun; discriminate Hrun..].
  exists l, s'. split; [reflexivity|]. split.
  - vm_compute in Hrun. now injection Hrun as <- _.
  - exact (parse_sitemap_urls_are_stripped demo_web demo_headers
             (Url " index.xml ") "" 0 fresh_run l s' Hrun).
Defined.

(** ** The progress messages and the visited set *)

Lemma startswith_app (p s : string) : Py.startswith p (p +:+ s) = true.
Proof.
  induction p as [|a p IH]; [now destruct s|].
  rewrite app_cons. simpl. now rewrite Ascii.eqb_refl.
Qed.

Lemma Announced_refl (s : Run_state) : Announced s s.
Proof.
  exists [], []. rewrite !app_nil_r. repeat split. simpl.
  now rewrite (right_id_L ∅ (∪)).
Qed.

Lemma Announced_trans (s1 s2 s3 : Run_state) :
  Announced s1 s2 -> Announced s2 s3 -> Announced s1 s3.
Proof.
  intros (f1 & m1 & Hf1 & Hm1 & Hfm1 & Hv1) (f2 & m2 & Hf2 & Hm2 & Hfm2 & Hv2).
  exists (f1 ++ f2), (m1 ++ m2).
  split; [now rewrite Hf2, Hf1, app_assoc|].
  split; [now rewrite Hm2, Hm1, app_assoc|].
  split; [now rewrite List.filter_app, Hfm1, Hfm2, map_app|].
  rewrite Hv2, Hv1, list_to_set_app_L. now rewrite (assoc_L (∪)).
Qed.

Lemma Announced_call (s : Run_state) (d : Z) :
  Announced s (mkRun_state (visited s) (messages s) (fetched s)
                 (calls s ++ [d])).
Proof.
  exists [], []. simpl. rewrite !app_nil_r. repeat split.
  now rewrite (right_id_L ∅ (∪)).
Qed.

Lemma Announced_message (s : Run_state) (msg : string) :
  Py.startswith "Fetching " msg = false ->
  Announced s (mkRun_state (visited s) (messages s ++ [msg]) (fetched s)
                 (calls s)).
Proof.
  intros Hmsg. exists [], [msg]. cbn [List.filter map fetched messages visited].
  rewrite Hmsg, app_nil_r. repeat split. simpl.
  now rewrite (right_id_L ∅ (∪)).
Qed.

Section Announcements.

Context (web : Web) (hdr : HeadersModule).
Context (self : Source -> string -> Z -> R (list string)).
Context (_depth : Z).
Context (Hself : _depth + 1 <= _MAX_DEPTH ->
           forall src ua s,
             exists o s', self src ua (_depth + 1) s = Some (o, s')
                          /\ Announced s s').

Lemma index_inner_announced (user_agent : string) (els : list Element)
    (acc : list string * gset string) (s : Run_state) :
  exists o s',
    index_inner self _depth user_agent acc els s = Some (o, s')
    /\ Announced s s'.
Proof.
  revert acc s. induction els as [|e els IH]; intros acc s.
  - eexists _, _. split; [reflexivity | apply Announced_refl].
  - cbn [index_inner].
    assert (Hstep : exists o s1,
      (if String.eqb (_strip_ns (el_tag e)) "loc" then
         match truthy_text e with
         | Some t =>
             bindR (visited_contains (Py.strip t)) (fun seen =>
               if (_depth + 1 <=? _MAX_DEPTH) && negb seen then
                 bindR (self (Url (Py.strip t)) user_agent (_depth + 1))
                   (fun child_urls => retR (foldl note_url acc child_urls))
               else retR acc)
         | None => retR acc
         end
       else retR acc) s = Some (o, s1) /\ Announced s s1).
    { destruct (String.eqb (_strip_ns (el_tag e)) "loc");
        [destruct (truthy_text e) as [t|]|];
        try (eexists _, _; split; [reflexivity | apply Announced_refl]).
      rewrite bindR_visited_contains.
      destruct (Z.leb_spec (_depth + 1) _MAX_DEPTH) as [Hd|Hd]; simpl;
        [destruct (negb _)|];
        try (eexists _, _; split; [reflexivity | apply Announced_refl]).
      destruct (Hself Hd (Url (Py.strip t)) user_agent s) as (o & s1 & Hc & Hg).
      unfold bindR. rewrite Hc.
      destruct o as [l|exc]; eexists _, _;
        (split; [reflexivity | exact Hg]). }
    destruct Hstep as (o & s1 & Hstep & Hg1).
    unfold bindR at 1. rewrite Hstep. destruct o as [acc'|exc].
    + destruct (IH acc' s1) as (o2 & s2 & Hrest & Hg2).
      exists o2, s2. split; [exact Hrest | eapply Announced_trans; eassumption].
    + eexists _, _. split; [reflexivity | exact Hg1].
Qed.

Lemma index_outer_announced (user_agent : string) (els : list Element)
    (acc : list string * gset string) (s : Run_state) :
  exists o s',
    index_outer self _depth user_agent acc els s = Some (o, s')
    /\ Announced s s'.
Proof.
  revert acc s. induction els as [|e els IH]; intros acc s.
  - eexists _, _. split; [reflexivity | apply Announced_refl].
  - cbn [index_outer].
    assert (Hstep : exists o s1,
      (if String.eqb (_strip_ns (el_tag e)) "sitemap"
       then index_inner self _depth user_agent acc (el_children e)
       else retR acc) s = Some (o, s1) /\ Announced s s1).
    { destruct (String.eqb (_strip_ns (el_tag e)) "sitemap").
      - apply index_inner_announced.
      - eexists _, _. split; [reflexivity | apply Announced_refl]. }
    destruct Hstep as (o & s1 & Hstep & Hg1).
    unfold bindR at 1. rewrite Hstep. destruct o as [acc'|exc].
    + destruct (IH acc' s1) as (o2 & s2 & Hrest & Hg2).
      exists o2, s2. split; [exact Hrest | eapply Announced_trans; eassumption].
    + eexists _, _. split; [reflexivity | exact Hg1].
Qed.

Lemma obtain_raw_announced (fetch_headers : Headers) (source : Source)
    (s : Run_state) :
  exists o s',
    obtain_raw web fetch_headers source s = Some (Ok o, s')
    /\ Announced s s'.
Proof.
  destruct source as [raw|u]; simpl.
  - eexists _, _. split; [reflexivity | apply Announced_refl].
  - rewrite bindR_visited_contains.
    destruct (bool_decide (Py.strip u ∈ visited s)) eqn:Hseen.
    + eexists _, _. split; [reflexivity | apply Announced_refl].
    + set (s1 := mkRun_state ({[Py.strip u]} ∪ visited s)
                   (messages s ++ ["Fetching " +:+ Py.strip u])
                   (fetched s ++ [Py.strip u]) (calls s)).
      assert (Hg : Announced s s1).
      { exists [Py.strip u], ["Fetching " +:+ Py.strip u].
        split; [reflexivity|]. split; [reflexivity|]. split.
        - cbn [List.filter map]. now rewrite startswith_app.
        - simpl. rewrite (right_id_L ∅ (∪)). apply (comm_L (∪)). }
      unfold bindR, visited_add, progress_callback, fetch, retR. simpl.
      destruct (http_get web (fetched s) (Py.strip u) fetch_headers) as [exc|raw];
        eexists _, _; (split; [reflexivity|]); [|exact Hg].
      eapply Announced_trans; [exact Hg|].
      apply (Announced_message s1). now rewrite !app_cons.
Qed.

Lemma parse_sitemap_body_announced (source : Source) (user_agent : string)
    (s : Run_state) :
  exists o s',
    parse_sitemap_body web hdr self _depth source user_agent s = Some (o, s')
    /\ Announced s s'.
Proof.
  unfold parse_sitemap_body.
  unfold bindR at 1. unfold enter_call at 1.
  set (s0 := mkRun_state (visited s) (messages s) (fetched s)
               (calls s ++ [_depth])).
  assert (Hg0 : Announced s s0) by apply Announced_call.
  unfold bindR at 1.
  destruct (String.eqb user_agent "");
    [destruct (dict_get (UA_PRESETS hdr) "Chrome macOS (default)") as [ua|]|].
  2: { eexists _, _. split; [reflexivity | exact Hg0]. }
  all: unfold retR at 1.
  all: match goal with |- context [obtain_raw web ?h ?src] =>
         destruct (obtain_raw_announced h src s0) as (got & s1 & Hraw & Hg1) end.
  all: pose proof (Announced_trans _ _ _ Hg0 Hg1) as Hg.
  all: unfold bindR at 1; rewrite Hraw.
  all: destruct got as [raw|];
         [|eexists _, _; split; [reflexivity | exact Hg]].
  all: unfold bindR at 1.
  all: destruct (_decompress_if_gz web raw) as [exc|raw'];
         [eexists _, _; split; [reflexivity | exact Hg]|].
  all: unfold liftR, retR at 1.
  all: destruct (_parse_xml web raw') as [exc|[root|]];
         try (eexists _, _; split; [reflexivity|];
              eapply Announced_trans;
                [exact Hg | apply Announced_message; now rewrite ?app_cons]).
  all: destruct (String.eqb (_strip_ns (el_tag root)) "sitemapindex");
         [|destruct (String.eqb (_strip_ns (el_tag root)) "urlset")];
         try (eexists _, _; split; [reflexivity|]; first
                [exact Hg
                |eapply Announced_trans;
                   [exact Hg
                   |apply Announced_message; now rewrite ?app_cons]]).
  all: match goal with |- context [index_outer self _depth ?ua ?acc ?els] =>
         destruct (index_outer_announced ua els acc s1) as (o & s2 & Hix & Hg2) end.
  all: unfold bindR; rewrite Hix; destruct o as [acc|exc];
         eexists _, _; (split; [reflexivity|]);
         eapply Announced_trans; eassumption.
Qed.

End Announcements.

Lemma parse_sitemap_fuel_announced (fuel : nat) (web : Web)
    (hdr : HeadersModule) (source : Source) (user_agent : string)
    (_depth : Z) (s : Run_state) :
  (enough_fuel _depth <= fuel)%nat ->
  exists o s',
    parse_sitemap_fuel fuel web hdr source user_agent _depth s = Some (o, s')
    /\ Announced s s'.
Proof.
  revert source user_agent _depth s.
  induction fuel as [|fuel IH]; intros source user_agent _depth s Hfuel.
  - unfold enough_fuel in Hfuel. lia.
  - simpl. apply parse_sitemap_body_announced.
    intros Hd src ua s0. apply IH.
    rewrite (enough_fuel_succ _depth Hd) in Hfuel. lia.
Qed.

(** X20.  Every fetch is announced.  Whatever the state [parse_sitemap]
    starts in, it returns, and the progress messages it adds that begin
    with "Fetching " are exactly "Fetching <url>" for the URLs it fetches,
    one for each fetch and in the order of the fetches. *)
Theorem every_fetch_is_announced (web : Web) (hdr : HeadersModule)
    (source : Source) (user_agent : string) (_depth : Z) (s : Run_state) :
  exists o s' new_fetched new_messages,
    parse_sitemap web hdr source user_agent _depth s = Some (o, s')
    /\ fetched s' = fetched s ++ new_fetched
    /\ messages s' = messages s ++ new_messages
    /\ List.filter (Py.startswith "Fetching ") new_messages
       = map (fun u => "Fetching " +:+ u) new_fetched.
Proof.
  destruct (parse_sitemap_fuel_announced (enough_fuel _depth) web hdr source
              user_agent _depth s (le_n _))
    as (o & s' & Hrun & f & m & Hf & Hm & Hfm & _).
  exists o, s', f, m. repeat split; assumption.
Qed.

(** X21.  The visited set holds what was fetched.  After a call of
    [parse_sitemap] the visited set is the one it started with together
    with the URLs fetched during the call: a URL is marked visited only by
    fetching it.  If the visited set was the set of the fetched URLs
    before the call, as in a fresh run, it is so after it. *)
Theorem visited_is_what_was_fetched (web : Web) (hdr : HeadersModule)
    (source : Source) (user_agent : string) (_depth : Z) (s : Run_state) :
  exists o s' new_fetched,
    parse_sitemap web hdr source user_agent _depth s = Some (o, s')
    /\ fetched s' = fetched s ++ new_fetched
    /\ visited s' = visited s ∪ list_to_set new_fetched
    /\ (visited s = list_to_set (fetched s) ->
        visited s' = list_to_set (fetched s')).
Proof.
  destruct (parse_sitemap_fuel_announced (enough_fuel _depth) web hdr source
              user_agent _depth s (le_n _))
    as (o & s' & Hrun & f & m & Hf & Hm & Hfm & Hv).
  exists o, s', f. repeat split; try assumption.
  intros Hs. now rewrite Hv, Hf, Hs, list_to_set_app_L.
Qed.
